(** * SERP-overlap keyword research: pipeline, cache and batch coordinator

    A shallow embedding of [single_keyword_research.py] (class
    [KeywordResearcher]) and [batch_keyword_research_optimized.py] (class
    [OptimizedBatchKeywordResearcher]).

    Modelling conventions.
    - Python [str] is [string]; the URLs handled here are ASCII, and
      [str.lower] is modelled on the ASCII letters (other characters are
      left as they are).
    - Python [float] values (overlap percentages, CPC, clock readings) are
      exact rationals [Q]; comparisons of floats are [Qle]/[Qlt], equality
      of floats is [Qeq].
    - A Python [set] of strings is a [gset string]; the SQLite table
      [cache(key PRIMARY KEY, value, expires_at)] is a [gmap] from the key
      to the remaining columns.  A write to the table can fail, which an
      oracle decides; reads are taken to succeed.
    - [datetime] values are clock readings in seconds; adding hours to
      one overflows outside the years 1 to 9999, as in Python.
    - A [dict] that is iterated in insertion order is an association list
      in insertion order.
    - Calls that leave the process (HTTP, clock, sleep) are oracles that
      thread an abstract world. *)

From Stdlib Require Import ZArith QArith Qround String Ascii List Lia Lqa.
From Stdlib Require Import Sorting.Permutation Sorting.Sorted.
From stdpp Require Import base gmap sets list strings.

Import ListNotations.
Local Open Scope string_scope.
Local Open Scope list_scope.

(** ** Python string helpers used by [normalize_url] *)

Module PyStr.

(** [c in s] for a one-character needle. *)
Fixpoint contains (c : ascii) (s : string) : bool :=
  match s with
  | EmptyString => false
  | String a s' => if Ascii.eqb a c then true else contains c s'
  end.

(** [s.split(c)[0]]: the text before the first [c], the whole of [s]
    when [c] does not occur. *)
Fixpoint split_head (c : ascii) (s : string) : string :=
  match s with
  | EmptyString => EmptyString
  | String a s' => if Ascii.eqb a c then EmptyString
                   else String a (split_head c s')
  end.

(** [s.rstrip(c)]: drop every trailing [c]. *)
Fixpoint rstrip (c : ascii) (s : string) : string :=
  match s with
  | EmptyString => EmptyString
  | String a s' =>
      match rstrip c s' with
      | EmptyString => if Ascii.eqb a c then EmptyString
                       else String a EmptyString
      | r => String a r
      end
  end.

Definition is_upper (a : ascii) : bool :=
  ((65 <=? nat_of_ascii a) && (nat_of_ascii a <=? 90))%nat.

Definition lower_char (a : ascii) : ascii :=
  if is_upper a then ascii_of_nat (nat_of_ascii a + 32) else a.

(** [s.lower()]. *)
Fixpoint lower (s : string) : string :=
  match s with
  | EmptyString => EmptyString
  | String a s' => String (lower_char a) (lower s')
  end.

(** Truth value of a string: [not s] is [true] exactly for [""]. *)
Definition truthy (s : string) : bool :=
  match s with EmptyString => false | _ => true end.

End PyStr.

(** ** [KeywordResearcher.normalize_url] *)

Definition normalize_url (url : string) : string :=
  if negb (PyStr.truthy url) then url
  else
    let url := PyStr.rstrip "/" url in
    let url := if PyStr.contains "?" url then PyStr.split_head "?" url else url in
    let url := if PyStr.contains "#" url then PyStr.split_head "#" url else url in
    PyStr.lower url.

(** ** [KeywordResearcher.calculate_url_overlap] *)

Definition url_set (urls : list string) : gset string :=
  list_to_set (map normalize_url urls).

Definition Qnat (n : nat) : Q := inject_Z (Z.of_nat n).

Definition is_empty {A} (l : list A) : bool :=
  match l with [] => true | _ => false end.

Definition calculate_url_overlap (urls1 urls2 : list string) : Q :=
  if is_empty urls1 || is_empty urls2 then 0%Q
  else
    let normalized_urls1 := url_set urls1 in
    let normalized_urls2 := url_set urls2 in
    let overlap := size (normalized_urls1 ∩ normalized_urls2) in
    let total := size normalized_urls1 in
    if (0 <? total)%nat then ((Qnat overlap / Qnat total) * 100)%Q else 0%Q.

(** The overlap as the specification words it: zero when either list is
    empty, otherwise the share of the normalized original URLs that occur
    among the normalized candidate URLs, as a percentage. *)
Definition overlap_reference (original candidate : list string) : Q :=
  match original, candidate with
  | [], _ | _, [] => 0%Q
  | _, _ =>
      (Qnat (size (url_set original ∩ url_set candidate))
         / Qnat (size (url_set original)) * 100)%Q
  end.

(** ** Numbers: Python's [round] and [x or 0] *)

(** Nearest integer, ties to the even neighbour (Python 3 rounding). *)
Definition round_half_even (x : Q) : Z :=
  let f := Qfloor x in
  match Qcompare (x - inject_Z f) (1 # 2) with
  | Lt => f
  | Gt => (f + 1)%Z
  | Eq => if Z.even f then f else (f + 1)%Z
  end.

(** [round(x, ndigits)]. *)
Definition py_round (x : Q) (ndigits : nat) : Q :=
  let scale := inject_Z (10 ^ Z.of_nat ndigits) in
  (inject_Z (round_half_even (x * scale)) / scale)%Q.

(** [v or 0] on a nullable integer and on a nullable float. *)
Definition or_zero_Z (v : option Z) : Z :=
  match v with Some n => n | None => 0%Z end.

Definition or_zero_Q (v : option Q) : Q :=
  match v with Some q => q | None => 0%Q end.

(** ** Ranked-keyword records and stage 2 of [research_keyword] *)

(** One entry of the list returned by [get_ranked_keywords]:
    [{'keyword', 'position', 'search_volume', 'cpc', 'competition'}];
    the last three may be [None]. *)
Record KeywordRecord := {
  keyword : string;
  position : Z;
  search_volume : option Z;
  cpc : option Q;
  competition : option Q
}.

(** The dict [unique_keywords], in insertion order. *)
Definition KeywordDict := list (string * KeywordRecord).

(** [d.get(k)] / [k in d]. *)
Fixpoint dict_get (k : string) (d : KeywordDict) : option KeywordRecord :=
  match d with
  | [] => None
  | (k', v) :: d' => if String.eqb k' k then Some v else dict_get k d'
  end.

(** [d[k] = v]: an existing key keeps its place, a new key goes last. *)
Fixpoint dict_set (k : string) (v : KeywordRecord) (d : KeywordDict) : KeywordDict :=
  match d with
  | [] => [(k, v)]
  | (k', v') :: d' =>
      if String.eqb k' k then (k', v) :: d' else (k', v') :: dict_set k v d'
  end.

Definition dict_keys (d : KeywordDict) : list string := map fst d.
Definition dict_values (d : KeywordDict) : list KeywordRecord := map snd d.

(** Body of the loop [for kw in all_keywords]. *)
Definition dedup_step (unique_keywords : KeywordDict) (kw : KeywordRecord) : KeywordDict :=
  let keyword_text := keyword kw in
  match dict_get keyword_text unique_keywords with
  | None => dict_set keyword_text kw unique_keywords
  | Some kept =>
      if (position kw <? position kept)%Z
      then dict_set keyword_text kw unique_keywords
      else unique_keywords
  end.

Definition deduplicate (all_keywords : list KeywordRecord) : KeywordDict :=
  fold_left dedup_step all_keywords [].

(** The sort key [(-(x['search_volume'] or 0), -(x['cpc'] or 0))]. *)
Definition sort_key (x : KeywordRecord) : Z * Q :=
  ((- or_zero_Z (search_volume x))%Z, (- or_zero_Q (cpc x))%Q).

(** Python's [<] on such pairs: the first components decide unless they
    are equal. *)
Definition key_lt (a b : Z * Q) : bool :=
  if (fst a =? fst b)%Z then negb (Qle_bool (snd b) (snd a))
  else (fst a <? fst b)%Z.

Definition key_eqb (a b : Z * Q) : bool :=
  (fst a =? fst b)%Z && Qeq_bool (snd a) (snd b).

(** [sorted(xs, key=sort_key)]: Python's sort is stable, so its result is
    the one of a stable insertion sort. *)
Fixpoint sorted_insert (x : KeywordRecord) (l : list KeywordRecord) : list KeywordRecord :=
  match l with
  | [] => [x]
  | y :: l' =>
      if key_lt (sort_key y) (sort_key x) then y :: sorted_insert x l'
      else x :: y :: l'
  end.

Fixpoint py_sorted (l : list KeywordRecord) : list KeywordRecord :=
  match l with
  | [] => []
  | x :: l' => sorted_insert x (py_sorted l')
  end.

(** [sorted_keywords] as computed from [all_keywords]. *)
Definition sorted_keywords (all_keywords : list KeywordRecord) : list KeywordRecord :=
  py_sorted (dict_values (deduplicate all_keywords)).

(** The order the sort is meant to establish, in the words of the
    specification: volume descending, then CPC descending, nulls as 0. *)
Definition volume_cpc_desc (a b : KeywordRecord) : Prop :=
  (or_zero_Z (search_volume b) < or_zero_Z (search_volume a))%Z
  \/ (or_zero_Z (search_volume a) = or_zero_Z (search_volume b)
      /\ (or_zero_Q (cpc b) <= or_zero_Q (cpc a))%Q).

(** Keywords in order of first appearance. *)
Definition first_seen (ks : list string) : list string :=
  fold_left (fun acc k => if existsb (String.eqb k) acc then acc else acc ++ [k]) ks [].

Definition mk_kw (k : string) (pos vol : Z) (c : Q) : KeywordRecord :=
  {| keyword := k; position := pos; search_volume := Some vol;
     cpc := Some c; competition := None |}.

(** ** The outside world *)

(** An exception is its message. *)
Definition Exc := string.

(** One item of a SERP response: [{'type': ..., 'url': ...}]; a missing
    ['url'] reads as [""]. *)
Record SerpItem := { item_type : string; item_url : string }.

(** Everything that leaves the process.  [get_serp_data] answers [None]
    for failed requests and may raise on a malformed response;
    [get_ranked_keywords] answers the filtered records and may raise
    likewise; [time_time] reads the clock (also standing for
    [datetime.now()], in seconds); [time_sleep] blocks; [db_write]
    tells whether the SQLite operations of one write to the cache
    (connect, [INSERT OR REPLACE], commit) go through, [false] standing
    for any [sqlite3] error.  Reads of the cache table are taken to
    succeed. *)
Class External (World : Type) := {
  get_serp_data : string -> World -> (Exc + option (list SerpItem)) * World;
  get_ranked_keywords : string -> World -> (Exc + list KeywordRecord) * World;
  time_time : World -> Q * World;
  time_sleep : Q -> World -> World;
  md5_hexdigest : string -> string;
  db_write : World -> bool * World
}.

(** Computations that read and change the world and may raise. *)
Definition M (World A : Type) : Type := World -> (Exc + A) * World.

Definition ret {World A} (a : A) : M World A := fun w => (inr a, w).

Definition raise {World A} (e : Exc) : M World A := fun w => (inl e, w).

Definition bind {World A B} (m : M World A) (k : A -> M World B) : M World B :=
  fun w =>
    match m w with
    | (inl e, w') => (inl e, w')
    | (inr a, w') => k a w'
    end.

Notation "'do' x <- m ; k" := (bind m (fun x => k))
  (at level 10, x name, m at level 100, k at level 200).

Definition clock {World} `{External World} : M World Q :=
  fun w => let '(t, w') := time_time w in (inr t, w').

Definition sleep {World} `{External World} (d : Q) : M World unit :=
  fun w => (inr tt, time_sleep d w).

(** ** [KeywordResearcher.get_keyword_serp_urls] *)

(** The loop over [serp_data.get('items', [])]. *)
Fixpoint organic_urls (items : list SerpItem) (urls : list string) : list string :=
  match items with
  | [] => urls
  | item :: rest =>
      if String.eqb (item_type item) "organic" && (length urls <? 10)%nat
      then organic_urls rest (urls ++ [item_url item])
      else organic_urls rest urls
  end.

Definition get_keyword_serp_urls {World} `{External World} (kw : string)
  : M World (list string) :=
  do serp_data <- get_serp_data kw ;
  match serp_data with
  | None => ret []
  | Some items => ret (organic_urls items [])
  end.

(** ** [KeywordResearcher.research_keyword] *)

Record SupportingKeyword := {
  sk_keyword : string;
  overlap_percentage : Q;
  sk_search_volume : option Z;
  sk_cpc : option Q;
  sk_position : Z;
  top_10_urls : list string
}.

(** The dict returned by [research_keyword]; a key that a return
    statement leaves out is [None]. *)
Record ResearchResult := {
  error : option string;
  input_keyword : string;
  original_top_10_urls : option (list string);
  keywords_from_top_3_urls : option (list KeywordRecord);
  supporting_keywords : option (list SupportingKeyword);
  total_supporting_keywords_found : option nat;
  processing_time : option Q
}.

(** Step 2, the loop over [original_top_10_urls[:3]]. *)
Fixpoint harvest {World} `{External World} (urls : list string)
    (all_keywords : list KeywordRecord) : M World (list KeywordRecord) :=
  match urls with
  | [] => ret all_keywords
  | url :: rest =>
      do keywords <- get_ranked_keywords url ;
      do _ <- sleep 1 ;
      harvest rest (all_keywords ++ keywords)
  end.

(** Step 3, the loop over [sorted_keywords]. *)
Fixpoint select_supporting {World} `{External World} (original_top_10_urls : list string)
    (candidates : list KeywordRecord) (supporting_keywords : list SupportingKeyword)
  : M World (list SupportingKeyword) :=
  match candidates with
  | [] => ret supporting_keywords
  | kw_data :: rest =>
      if (4 <=? length supporting_keywords)%nat then ret supporting_keywords
      else
        let keyword_text := keyword kw_data in
        do keyword_urls <- get_keyword_serp_urls keyword_text ;
        let supporting_keywords' :=
          if negb (is_empty keyword_urls) then
            let overlap_percentage :=
              calculate_url_overlap original_top_10_urls keyword_urls in
            if Qle_bool 40 overlap_percentage then
              supporting_keywords ++
                [ {| sk_keyword := keyword_text;
                     overlap_percentage := py_round overlap_percentage 1;
                     sk_search_volume := search_volume kw_data;
                     sk_cpc := cpc kw_data;
                     sk_position := position kw_data;
                     top_10_urls := firstn 10 keyword_urls |} ]
            else supporting_keywords
          else supporting_keywords in
        do _ <- sleep 1 ;
        select_supporting original_top_10_urls rest supporting_keywords'
  end.

(** The whole method.  Writing the result files cannot change the
    returned dict and is left out; so is the formatted timestamp. *)
Definition research_keyword {World} `{External World} (kw : string)
  : M World ResearchResult :=
  do start_time <- clock ;
  do original_top_10_urls <- get_keyword_serp_urls kw ;
  if is_empty original_top_10_urls then
    ret {| error := Some "Failed to get top 10 URLs for the keyword";
           input_keyword := kw;
           original_top_10_urls := None;
           keywords_from_top_3_urls := None;
           supporting_keywords := None;
           total_supporting_keywords_found := None;
           processing_time := None |}
  else
    do all_keywords <- harvest (firstn 3 original_top_10_urls) [] ;
    let sorted_keywords := sorted_keywords all_keywords in
    if (length sorted_keywords =? 0)%nat then
      do now <- clock ;
      ret {| error := Some "No ranking keywords found from DataForSEO Labs API";
             input_keyword := kw;
             original_top_10_urls := Some original_top_10_urls;
             keywords_from_top_3_urls := Some [];
             supporting_keywords := Some [];
             total_supporting_keywords_found := Some 0%nat;
             processing_time := Some (py_round (now - start_time) 2) |}
    else
      do supporting_keywords <- select_supporting original_top_10_urls sorted_keywords [] ;
      do now <- clock ;
      let processing_time := py_round (now - start_time) 2 in
      ret {| error := None;
             input_keyword := kw;
             original_top_10_urls := Some original_top_10_urls;
             keywords_from_top_3_urls := Some (firstn 20 sorted_keywords);
             supporting_keywords := Some supporting_keywords;
             total_supporting_keywords_found := Some (length supporting_keywords);
             processing_time := Some processing_time |}.

(** ** [OptimizedBatchKeywordResearcher]: cache, rate limiter *)

(** [json.dumps] / [json.loads] on the values of one Python type, and the
    truth value of such a value ([None], [[]] and [{}] are false).
    [json_dumps] is [None] where Python raises [TypeError], [json_loads]
    where it raises on text that is no such value. *)
Class Json (V : Type) := {
  json_dumps : V -> option string;
  json_loads : string -> option V;
  py_bool : V -> bool
}.

(** Calls recorded for the counting arguments below; the program itself
    keeps no such log. *)
Inductive Event := EvRateLimit | EvFetch.

(** The fields of the researcher object that its methods read or write,
    and the rows of the table [cache] as key |-> (value, expires_at). *)
Record Researcher := {
  username : string;
  max_workers : Z;
  cache_ttl_hours : Z;
  cache : gmap string (string * Q);
  cache_hits : nat;
  api_calls : nat;
  start_time : option Q;
  end_time : option Q;
  last_request_time : Q;
  min_request_interval : Q;
  calls : list Event
}.

Definition with_cache (c : gmap string (string * Q)) (r : Researcher) : Researcher :=
  {| username := username r; max_workers := max_workers r;
     cache_ttl_hours := cache_ttl_hours r; cache := c;
     cache_hits := cache_hits r; api_calls := api_calls r;
     start_time := start_time r; end_time := end_time r;
     last_request_time := last_request_time r;
     min_request_interval := min_request_interval r; calls := calls r |}.

Definition with_cache_hits (n : nat) (r : Researcher) : Researcher :=
  {| username := username r; max_workers := max_workers r;
     cache_ttl_hours := cache_ttl_hours r; cache := cache r;
     cache_hits := n; api_calls := api_calls r;
     start_time := start_time r; end_time := end_time r;
     last_request_time := last_request_time r;
     min_request_interval := min_request_interval r; calls := calls r |}.

Definition with_api_calls (n : nat) (r : Researcher) : Researcher :=
  {| username := username r; max_workers := max_workers r;
     cache_ttl_hours := cache_ttl_hours r; cache := cache r;
     cache_hits := cache_hits r; api_calls := n;
     start_time := start_time r; end_time := end_time r;
     last_request_time := last_request_time r;
     min_request_interval := min_request_interval r; calls := calls r |}.

Definition with_times (s e : option Q) (r : Researcher) : Researcher :=
  {| username := username r; max_workers := max_workers r;
     cache_ttl_hours := cache_ttl_hours r; cache := cache r;
     cache_hits := cache_hits r; api_calls := api_calls r;
     start_time := s; end_time := e;
     last_request_time := last_request_time r;
     min_request_interval := min_request_interval r; calls := calls r |}.

Definition with_last_request_time (t : Q) (r : Researcher) : Researcher :=
  {| username := username r; max_workers := max_workers r;
     cache_ttl_hours := cache_ttl_hours r; cache := cache r;
     cache_hits := cache_hits r; api_calls := api_calls r;
     start_time := start_time r; end_time := end_time r;
     last_request_time := t;
     min_request_interval := min_request_interval r; calls := calls r |}.

Definition record_call (e : Event) (r : Researcher) : Researcher :=
  {| username := username r; max_workers := max_workers r;
     cache_ttl_hours := cache_ttl_hours r; cache := cache r;
     cache_hits := cache_hits r; api_calls := api_calls r;
     start_time := start_time r; end_time := end_time r;
     last_request_time := last_request_time r;
     min_request_interval := min_request_interval r; calls := calls r ++ [e] |}.



(** The clock readings of [datetime.min] and [datetime.max], that is
    of 0001-01-01 00:00:00 and 9999-12-31 23:59:59.999999. *)
Definition datetime_min : Q := (- 62135596800)%Q.

Definition datetime_max : Q := (253402300800 - (1 # 1000000))%Q.

(** [now + timedelta(hours=hours)]: [None] where Python raises
    [OverflowError], because the [timedelta] has more than 999999999
    days or the sum leaves the years 1 to 9999. *)
Definition add_hours (now : Q) (hours : Z) : option Q :=
  let expires_at := (now + inject_Z (hours * 3600))%Q in
  if (- 999999999 <=? hours / 24)%Z && (hours / 24 <=? 999999999)%Z
     && Qle_bool datetime_min expires_at && Qle_bool expires_at datetime_max
  then Some expires_at
  else None.

Section Batch.
Context {World : Type} `{External World}.

(** [get_cache_key]: the hex MD5 of ["{keyword}_{operation}_{username}"]. *)
Definition get_cache_key (r : Researcher) (kw operation : string) : string :=
  md5_hexdigest (kw ++ "_" ++ operation ++ "_" ++ username r).

(** [get_from_cache]: [SELECT value FROM cache WHERE key = ? AND
    expires_at > now]; a hit is counted before the text is parsed, and
    a parse error is swallowed and answered with [None]. *)
Definition get_from_cache {V} `{Json V} (cache_key : string)
    (r : Researcher) (w : World) : option V * Researcher * World :=
  let '(now, w) := time_time w in
  match cache r !! cache_key with
  | Some (value, expires_at) =>
      if negb (Qle_bool expires_at now) then
        let r := with_cache_hits (cache_hits r + 1) r in
        (json_loads value, r, w)
      else (None, r, w)
  | None => (None, r, w)
  end.

(** [save_to_cache]: [INSERT OR REPLACE] with
    [expires_at = now + cache_ttl_hours].  The whole body is in a
    [try] whose handler only logs: nothing is written when the expiry
    date overflows, when the database operations fail or when the data
    cannot be serialized. *)
Definition save_to_cache {V} `{Json V} (cache_key : string) (data : V)
    (r : Researcher) (w : World) : Researcher * World :=
  let '(now, w) := time_time w in
  match add_hours now (cache_ttl_hours r) with
  | None => (r, w)
  | Some expires_at =>
      let '(written, w) := db_write w in
      match json_dumps data with
      | Some text =>
          if written
          then (with_cache (<[cache_key := (text, expires_at)]> (cache r)) r, w)
          else (r, w)
      | None => (r, w)
      end
  end.


(** [rate_limit], the body of [with self.rate_limit_lock]. *)
Definition rate_limit (r : Researcher) (w : World) : Researcher * World :=
  let '(current_time, w) := time_time w in
  let time_since_last := (current_time - last_request_time r)%Q in
  let w := if negb (Qle_bool (min_request_interval r) time_since_last)
           then time_sleep (min_request_interval r - time_since_last) w
           else w in
  let '(t, w) := time_time w in
  (record_call EvRateLimit (with_last_request_time t r), w).

(** The part of [get_cached_or_fetch] after the cache check. *)
Definition fetch_and_store {V} `{Json V} (cache_key : string)
    (fetch_func : M World V) (r : Researcher) (w : World)
  : (Exc + V) * Researcher * World :=
  let '(r, w) := rate_limit r w in
  let '(result, w) := fetch_func w in
  let r := record_call EvFetch r in
  match result with
  | inl e => (inl e, r, w)
  | inr result =>
      if py_bool result then
        let '(r, w) := save_to_cache cache_key result r w in
        (inr result, with_api_calls (api_calls r + 1) r, w)
      else (inr result, r, w)
  end.

(** [get_cached_or_fetch]; the call of [fetch_func] on its arguments
    is the computation [fetch_func]. *)
Definition get_cached_or_fetch {V} `{Json V} (cache_key : string)
    (fetch_func : M World V) (r : Researcher) (w : World)
  : (Exc + V) * Researcher * World :=
  let '(cached_result, r, w) := get_from_cache cache_key r w in
  match cached_result with
  | Some v =>
      if py_bool v then (inr v, r, w)
      else fetch_and_store cache_key fetch_func r w
  | None => fetch_and_store cache_key fetch_func r w
  end.

End Batch.

(** ** [OptimizedBatchKeywordResearcher]: one keyword, and the pool *)

(** One element of the list read from the input CSV. *)
Record KeywordInput := {
  in_row_number : nat;
  in_keyword : string;
  original_row : list (string * string)
}.

(** The four columns written per supporting keyword. *)
Record SupportingColumns := {
  col_keyword : string;
  col_overlap : Q;
  col_volume : Z;
  col_cpc : Q
}.

(** An outcome row.  The [original_...] columns copied from the input
    row play no part below and are left out. *)
Record Row := {
  row_number : nat;
  seed_keyword : string;
  processing_time_seconds : Q;
  original_top_10_urls_count : nat;
  keywords_from_top_3_urls_count : nat;
  supporting_keywords_found : nat;
  research_successful : bool;
  error_message : option string;
  supporting_columns : list SupportingColumns
}.

(** [d.get(key, default)]. *)
Definition get_or {A} (v : option A) (default : A) : A :=
  match v with Some a => a | None => default end.

(** The row built in both [except] handlers. *)
Definition error_result (kw_data : KeywordInput) (e : Exc) : Row :=
  {| row_number := in_row_number kw_data;
     seed_keyword := in_keyword kw_data;
     processing_time_seconds := 0;
     original_top_10_urls_count := 0;
     keywords_from_top_3_urls_count := 0;
     supporting_keywords_found := 0;
     research_successful := false;
     error_message := Some e;
     supporting_columns := [] |}.

Definition supporting_column (sk : SupportingKeyword) : SupportingColumns :=
  {| col_keyword := sk_keyword sk;
     col_overlap := overlap_percentage sk;
     col_volume := or_zero_Z (sk_search_volume sk);
     col_cpc := or_zero_Q (sk_cpc sk) |}.

(** [keywords[:n]] for an integer [n]. *)
Definition py_slice_to {A} (n : Z) (l : list A) : list A :=
  if (0 <=? n)%Z then firstn (Z.to_nat n) l
  else firstn (length l - Z.to_nat (- n)) l.

Section BatchRun.
Context {World : Type} `{External World} `{Json ResearchResult}.

(** The success row; [t1] and [t2] are the two clock readings of
    [time.time() - time.time()], in the order they are taken. *)
Definition result_row (kw_data : KeywordInput) (research_results : ResearchResult)
    (t1 t2 : Q) : Row :=
  let supporting_keywords := get_or (supporting_keywords research_results) [] in
  {| row_number := in_row_number kw_data;
     seed_keyword := in_keyword kw_data;
     processing_time_seconds := py_round (t1 - t2) 2;
     original_top_10_urls_count :=
       length (get_or (original_top_10_urls research_results) []);
     keywords_from_top_3_urls_count :=
       length (get_or (keywords_from_top_3_urls research_results) []);
     supporting_keywords_found :=
       get_or (total_supporting_keywords_found research_results) 0%nat;
     research_successful := true;
     error_message := None;
     supporting_columns := map supporting_column supporting_keywords |}.

Definition finish_row (kw_data : KeywordInput) (research_results : ResearchResult)
    (r : Researcher) (w : World) : Row * Researcher * World :=
  let '(t1, w) := time_time w in
  let '(t2, w) := time_time w in
  (result_row kw_data research_results t1 t2, r, w).

(** The [else] branch of the cache check: research, then cache. *)
Definition research_and_cache (kw_data : KeywordInput) (cache_key : string)
    (r : Researcher) (w : World) : Row * Researcher * World :=
  let '(start_time, w) := time_time w in
  match research_keyword (in_keyword kw_data) w with
  | (inl e, w) => (error_result kw_data e, r, w)
  | (inr research_results, w) =>
      let '(_, w) := time_time w in
      let '(r, w) := save_to_cache cache_key research_results r w in
      finish_row kw_data research_results r w
  end.

(** [process_single_keyword_optimized]. *)
Definition process_single_keyword_optimized (kw_data : KeywordInput)
    (r : Researcher) (w : World) : Row * Researcher * World :=
  let cache_key := get_cache_key r (in_keyword kw_data) "full_research" in
  let '(cached_result, r, w) := get_from_cache cache_key r w in
  match cached_result with
  | Some cached =>
      if py_bool cached then finish_row kw_data cached r w
      else research_and_cache kw_data cache_key r w
  | None => research_and_cache kw_data cache_key r w
  end.

(** What [future.result()] gives for a worker: a row or an exception. *)
Definition Worker : Type :=
  KeywordInput -> Researcher -> World -> (Exc + Row) * Researcher * World.

Definition pool_worker : Worker :=
  fun kw_data r w =>
    let '(row, r, w) := process_single_keyword_optimized kw_data r w in
    (inr row, r, w).

(** The loop [for future in as_completed(future_to_keyword)].  The
    pool is seen through the order in which its futures complete:
    [order] lists the indices of the submitted keywords in that order,
    and each worker runs on the state its predecessor left. *)
Fixpoint collect (worker : Worker) (keywords : list KeywordInput)
    (total_keywords : nat) (order : list nat) (results : list Row)
    (completed : nat) (r : Researcher) (w : World)
  : list Row * Researcher * World :=
  match order with
  | [] => (results, r, w)
  | i :: rest =>
      match keywords !! i with
      | None => collect worker keywords total_keywords rest results completed r w
      | Some kw_data =>
          match worker kw_data r w with
          | (inr result, r, w) =>
              let completed := S completed in
              let w := if (completed mod 5 =? 0)%nat || (completed =? total_keywords)%nat
                       then snd (time_time w) else w in
              collect worker keywords total_keywords rest
                      (results ++ [result]) completed r w
          | (inl e, r, w) =>
              collect worker keywords total_keywords rest
                      (results ++ [error_result kw_data e]) completed r w
          end
      end
  end.

(** The keywords that are submitted to the pool. *)
Definition submitted (keywords : list KeywordInput) (max_keywords : option Z)
  : list KeywordInput :=
  match max_keywords with
  | Some n => if (n =? 0)%Z then keywords else py_slice_to n keywords
  | None => keywords
  end.

(** The body of [process_keywords_parallel] around a worker.
    [ThreadPoolExecutor(max_workers=n)] raises [ValueError] for
    [n <= 0]; nothing catches it, so the method raises after setting
    [start_time] and before any keyword is submitted.  The handler
    around [future.result()] is kept as the source has it, although the
    worker of the source catches every exception itself. *)
Definition process_keywords_with (worker : Worker) (keywords : list KeywordInput)
    (max_keywords : option Z) (order : list nat) (r : Researcher) (w : World)
  : (Exc + list Row) * Researcher * World :=
  let keywords := submitted keywords max_keywords in
  let total_keywords := length keywords in
  let '(t0, w) := time_time w in
  let r := with_times (Some t0) (end_time r) r in
  if (max_workers r <=? 0)%Z
  then (inl "max_workers must be greater than 0", r, w)
  else
    let '(results, r, w) := collect worker keywords total_keywords order [] 0 r w in
    let '(t1, w) := time_time w in
    (inr results, with_times (start_time r) (Some t1) r, w).

(** [process_keywords_parallel]. *)
Definition process_keywords_parallel (keywords : list KeywordInput)
    (max_keywords : option Z) (order : list nat) (r : Researcher) (w : World)
  : (Exc + list Row) * Researcher * World :=
  process_keywords_with pool_worker keywords max_keywords order r w.

(** The state of a run when the futures listed in [done] are done:
    what the start of [process_keywords_parallel] and the loop over
    those futures leave. *)
Definition state_after (keywords : list KeywordInput) (done : list nat)
    (r : Researcher) (w : World) : Researcher * World :=
  let '(t0, w) := time_time w in
  let r := with_times (Some t0) (end_time r) r in
  let '(_, r, w) := collect pool_worker keywords (length keywords) done [] 0 r w in
  (r, w).

End BatchRun.

(** ** Predicates of the statements below *)

(** What stage 2 is meant to keep for the keyword text [k] out of the
    harvested list [l], in the words of the specification: a record [r]
    of [l] with that text whose position is the minimum, and the first
    such record when several share the minimum. *)
Definition kept_for (k : string) (l : list KeywordRecord) (r : KeywordRecord) : Prop :=
  exists l1 l2,
    l = l1 ++ r :: l2
    /\ keyword r = k
    /\ (forall r', In r' l1 -> keyword r' = k -> (position r < position r')%Z)
    /\ (forall r', In r' l2 -> keyword r' = k -> (position r <= position r')%Z).

(** Every entry of the dict is filed under its own keyword text. *)
Definition keyed (d : KeywordDict) : Prop :=
  Forall (fun kv => keyword (snd kv) = fst kv) d.

(** Records that the sort key does not tell apart. *)
Definition same_key (a x : KeywordRecord) : bool :=
  key_eqb (sort_key a) (sort_key x).

(** The two numbers a record is sorted by. *)
Definition volume_and_cpc (x : KeywordRecord) : Z * Q :=
  (or_zero_Z (search_volume x), or_zero_Q (cpc x)).

(** A supporting keyword whose reported overlap is at least 40. *)
Definition accepted (sk : SupportingKeyword) : Prop :=
  (40 <= overlap_percentage sk)%Q.

(** How a row can come out of the pool for the input [kw_data]: the
    worker returned it, or the worker raised and the coordinator built
    the error row. *)
Definition outcome_of {World} (worker : KeywordInput -> Researcher -> World ->
                                        (Exc + Row) * Researcher * World)
    (kw_data : KeywordInput) (row : Row) : Prop :=
  (exists r w r' w', worker kw_data r w = (inr row, r', w'))
  \/ (exists e r w r' w', worker kw_data r w = (inl e, r', w')
                          /\ row = error_result kw_data e).

(** A lookup that does not serve the request: nothing found, or a value
    that Python takes for false. *)
Definition cache_miss {V} `{Json V} (cached : option V) : Prop :=
  match cached with
  | Some v => py_bool v = false
  | None => True
  end.

(** [t1] and [t2] are clock readings taken one right after the other. *)
Definition consecutive_readings {World} `{External World} (t1 t2 : Q) : Prop :=
  exists w wa wb, time_time w = (t1, wa) /\ time_time wa = (t2, wb).

(** The row at a place of the output belongs to the keyword submitted
    under the index [i]. *)
Definition traceable (keywords : list KeywordInput) (i : nat) (row : Row) : Prop :=
  exists kw_data,
    keywords !! i = Some kw_data
    /\ row_number row = in_row_number kw_data
    /\ seed_keyword row = in_keyword kw_data.

(** ** A scripted world, for running the model on concrete inputs *)

(** The clock answers with the readings of [sc_clock] one after the
    other (and with 0 once they are used up); the two HTTP operations
    answer by table; sleeping changes nothing; the digest is replaced by
    an injective stand-in; the database takes every write or none. *)
Record Scripted := {
  sc_clock : list Q;
  sc_serp : string -> Exc + option (list SerpItem);
  sc_ranked : string -> Exc + list KeywordRecord;
  sc_db_ok : bool
}.

Definition scripted_time (w : Scripted) : Q * Scripted :=
  match sc_clock w with
  | [] => (0%Q, w)
  | t :: ts => (t, {| sc_clock := ts; sc_serp := sc_serp w; sc_ranked := sc_ranked w;
                      sc_db_ok := sc_db_ok w |})
  end.

#[export] Instance Scripted_External : External Scripted := {|
  get_serp_data := fun kw w => (sc_serp w kw, w);
  get_ranked_keywords := fun url w => (sc_ranked w url, w);
  time_time := scripted_time;
  time_sleep := fun _ w => w;
  md5_hexdigest := fun s => s;
  db_write := fun w => (sc_db_ok w, w)
|}.

Definition organic (url : string) : SerpItem :=
  {| item_type := "organic"; item_url := url |}.

Definition seed_urls : list string :=
  ["http://s/0"; "http://s/1"; "http://s/2"; "http://s/3"; "http://s/4";
   "http://s/5"; "http://s/6"; "http://s/7"; "http://s/8"; "http://s/9"].

(** The end-to-end scenario of the specification: the seed has 10 URLs,
    the harvest yields [a] (volume 100, CPC 1, position 3) and [b]
    (volume 50, CPC 5, position 1); the SERP of [a] shares 5 of the 10
    seed URLs, the one of [b] shares 2. *)
Definition scenario_serp (kw : string) : Exc + option (list SerpItem) :=
  if String.eqb kw "seed" then inr (Some (map organic seed_urls))
  else if String.eqb kw "a" then
    inr (Some (map organic (firstn 5 seed_urls ++
                            ["http://o/0"; "http://o/1"; "http://o/2"; "http://o/3"; "http://o/4"])))
  else if String.eqb kw "b" then
    inr (Some (map organic (firstn 2 seed_urls ++
                            ["http://o/0"; "http://o/1"; "http://o/2"; "http://o/3"; "http://o/4"])))
  else if String.eqb kw "broken" then inl "TypeError: 'NoneType' object is not subscriptable"
  else inr None.

Definition scenario_ranked (url : string) : Exc + list KeywordRecord :=
  if String.eqb url "http://s/0" then inr [mk_kw "a" 3 100 1; mk_kw "b" 1 50 5]
  else inr [].

Definition scenario (readings : list Q) : Scripted :=
  {| sc_clock := readings; sc_serp := scenario_serp; sc_ranked := scenario_ranked;
     sc_db_ok := true |}.

Definition run_result {World} (out : (Exc + ResearchResult) * World) : option ResearchResult :=
  match fst out with inr r => Some r | inl _ => None end.

Definition failed_result (kw : string) : ResearchResult :=
  {| error := Some "Failed to get top 10 URLs for the keyword";
     input_keyword := kw;
     original_top_10_urls := None;
     keywords_from_top_3_urls := None;
     supporting_keywords := None;
     total_supporting_keywords_found := None;
     processing_time := None |}.

(** A stand-in for the JSON text of a result: it tells apart the results
    used below, and those are the texts it reads back. *)
Definition render_result (r : ResearchResult) : string :=
  match error r with
  | Some e => "error:" ++ e ++ "|" ++ input_keyword r
  | None => "ok|" ++ input_keyword r
  end.

Definition scenario_result : ResearchResult :=
  Eval vm_compute in
    match run_result (research_keyword "seed" (scenario [0%Q; 7%Q])) with
    | Some r => r
    | None => failed_result ""
    end.

Definition known_results : list ResearchResult :=
  [failed_result "nodata"; scenario_result].

#[export] Instance Scripted_Json : Json ResearchResult := {|
  json_dumps := fun r => Some (render_result r);
  json_loads := fun text =>
    List.find (fun r => String.eqb (render_result r) text) known_results;
  py_bool := fun _ => true
|}.

(** A stand-in for the JSON text of a list of URLs: the URLs separated
    by blanks; the empty list is false. *)
Fixpoint words (s : string) : list string :=
  match s with
  | EmptyString => [EmptyString]
  | String a s' =>
      if Ascii.eqb a " " then EmptyString :: words s'
      else match words s' with
           | w :: ws => String a w :: ws
           | [] => [String a EmptyString]
           end
  end.

#[export] Instance Urls_Json : Json (list string) := {|
  json_dumps := fun urls => Some (String.concat " " urls);
  json_loads := fun text =>
    if String.eqb text "" then Some [] else Some (words text);
  py_bool := fun urls => negb (is_empty urls)
|}.

Definition fresh_researcher : Researcher :=
  {| username := "user"; max_workers := 10; cache_ttl_hours := 24; cache := ∅;
     cache_hits := 0; api_calls := 0; start_time := None; end_time := None;
     last_request_time := 0; min_request_interval := 1 # 10; calls := [] |}.

Definition input (n : nat) (kw : string) : KeywordInput :=
  {| in_row_number := n; in_keyword := kw; original_row := [("keyword", kw)] |}.

Definition seconds : list Q := [1000; 1001; 1002; 1003; 1004; 1005; 1006; 1007]%Q.


(** A researcher configured with [--workers 0]. *)
Definition unstaffed_researcher : Researcher :=
  {| username := "user"; max_workers := 0; cache_ttl_hours := 24; cache := ∅;
     cache_hits := 0; api_calls := 0; start_time := None; end_time := None;
     last_request_time := 0; min_request_interval := 1 # 10; calls := [] |}.

Definition locked_scenario (readings : list Q) : Scripted :=
  {| sc_clock := readings; sc_serp := scenario_serp; sc_ranked := scenario_ranked;
     sc_db_ok := false |}.

(** The SERP client as the compute function of the cache. *)
Definition seed_fetch :=
  get_cached_or_fetch "seed_serp_user" (get_keyword_serp_urls "seed")
    fresh_researcher (scenario seconds).

Definition nodata_run :=
  process_single_keyword_optimized (input 1 "nodata") fresh_researcher (scenario seconds).

(** The same keyword against a database that takes no write. *)
Definition locked_run :=
  process_single_keyword_optimized (input 1 "nodata") fresh_researcher
    (locked_scenario seconds).

(** A clock on which 10 ms pass between any two readings. *)
Definition slow_clock : list Q :=
  [1000; 1000 + (1 # 100); 1000 + (2 # 100); 1000 + (3 # 100); 1000 + (4 # 100);
   1000 + (5 # 100); 1000 + (6 # 100); 1000 + (7 # 100); 1000 + (8 # 100)]%Q.

Definition slow_run :=
  process_single_keyword_optimized (input 1 "seed") fresh_researcher (scenario slow_clock).

Definition batch_inputs : list KeywordInput :=
  [input 1 "seed"; input 2 "broken"; input 3 "nodata"; input 4 "seed"].

Definition batch_run :=
  process_keywords_parallel batch_inputs (Some 3%Z) [2; 0; 1]%nat
    fresh_researcher (scenario []).

(** The rows of a run that returned. *)
Definition returned_rows (out : Exc + list Row) : list Row :=
  match out with
  | inr results => results
  | inl _ => []
  end.

Definition batch_rows : list Row := returned_rows (fst (fst batch_run)).

(** * Further parts of the code *)

(** ** Helpers for the statements about [normalize_url] *)

(** The two conditional cuts of [normalize_url], at the first [?] and
    then at the first [#]. *)
Definition cut_query (url : string) : string :=
  let url := if PyStr.contains "?" url then PyStr.split_head "?" url else url in
  if PyStr.contains "#" url then PyStr.split_head "#" url else url.

(** ** Helpers for the statements about the pipeline *)

(** The test [item.get('type') == 'organic']. *)
Definition is_organic (item : SerpItem) : bool :=
  String.eqb (item_type item) "organic".

(** The dict returned when stage 2 finds no keyword. *)
Definition no_candidates_result (kw : string) (urls : list string) (elapsed : Q)
  : ResearchResult :=
  {| error := Some "No ranking keywords found from DataForSEO Labs API";
     input_keyword := kw;
     original_top_10_urls := Some urls;
     keywords_from_top_3_urls := Some [];
     supporting_keywords := Some [];
     total_supporting_keywords_found := Some 0%nat;
     processing_time := Some (py_round elapsed 2) |}.

(** The supporting keyword [sk] reports the candidate [c]. *)
Definition reports (sk : SupportingKeyword) (c : KeywordRecord) : Prop :=
  sk_keyword sk = keyword c
  /\ sk_search_volume sk = search_volume c
  /\ sk_cpc sk = cpc c
  /\ sk_position sk = position c.

(** A world in which every keyword has two organic results and no URL
    ranks for anything. *)
Definition quiet_world (readings : list Q) : Scripted :=
  {| sc_clock := readings;
     sc_serp := fun _ => inr (Some [organic "http://q/0";
                                    {| item_type := "paid"; item_url := "http://ad" |};
                                    organic "http://q/1"]);
     sc_ranked := fun _ => inr [];
     sc_db_ok := true |}.

(** ** Helpers for the statements about the cache and the rate limiter *)

(** At the clock reading [now] the store has no row that
    [get_from_cache] would select for [cache_key]: there is none, or its
    [expires_at] is not after [now]. *)
Definition unserved (cache_key : string) (r : Researcher) (now : Q) : Prop :=
  match cache r !! cache_key with
  | Some (_, expires_at) => (expires_at <= now)%Q
  | None => True
  end.

(** A world with an ideal clock: reading it takes no time, sleeping
    [d] seconds advances it by exactly [d]; there is no network. *)
Record Ideal := { ideal_now : Q }.

#[export] Instance Ideal_External : External Ideal := {|
  get_serp_data := fun _ w => (inr None, w);
  get_ranked_keywords := fun _ w => (inr [], w);
  time_time := fun w => (ideal_now w, w);
  time_sleep := fun d w => {| ideal_now := ideal_now w + d |};
  md5_hexdigest := fun s => s;
  db_write := fun w => (true, w)
|}.

(** A researcher whose store holds one row that expired at 500 and one
    that lives until 5000. *)
Definition stocked_researcher : Researcher :=
  with_cache (<["old" := ("http://a", 500%Q)]> (<["new" := ("http://b", 5000%Q)]> ∅))
    fresh_researcher.

(** ** [save_summary_report] and the closing lines of [main] *)

(** [sum(...)]: from 0, left to right. *)
Definition sum_nat (l : list nat) : nat := fold_left Nat.add l 0%nat.

Definition sum_Q (l : list Q) : Q := fold_left Qplus l 0%Q.

Definition successful_results (results : list Row) : list Row :=
  List.filter research_successful results.

Definition failed_results (results : list Row) : list Row :=
  List.filter (fun r => negb (research_successful r)) results.

(** [end_time - start_time if end_time else 0]: an end time of [None]
    or [0.0] is false; the subtraction raises when [start_time] is
    still [None]. *)
Definition total_time (r : Researcher) : Exc + Q :=
  match end_time r with
  | Some e =>
      if Qeq_bool e 0 then inr 0%Q
      else match start_time r with
           | Some s => inr (e - s)%Q
           | None => inl "unsupported operand type(s) for -: 'float' and 'NoneType'"
           end
  | None => inr 0%Q
  end.

(** [cache_hits / max(api_calls + cache_hits, 1) * 100]. *)
Definition cache_hit_rate (r : Researcher) : Q :=
  (Qnat (cache_hits r) / Qnat (Nat.max (api_calls r + cache_hits r) 1) * 100)%Q.

(** The dict [summary]; the time stamp and the number of workers are
    left out. *)
Record Summary := {
  total_keywords_processed : nat;
  successful_researches : nat;
  failed_researches : nat;
  all_supporting_keywords_found : nat;
  average_processing_time_seconds : Q;
  total_processing_time_seconds : Q;
  keywords_per_minute : Q;
  total_api_calls : nat;
  reported_cache_hits : nat;
  reported_cache_hit_rate : Q;
  reported_cache_ttl_hours : Z;
  successful_keywords : list (string * nat * Q);
  failed_keywords : list (string * option string)
}.

(** [save_summary_report] up to the dict it writes. *)
Definition summary_report (results : list Row) (r : Researcher) : Exc + Summary :=
  let successful_results := successful_results results in
  let failed_results := failed_results results in
  let total_supporting_keywords :=
    sum_nat (map supporting_keywords_found successful_results) in
  let avg_processing_time :=
    if negb (is_empty results)
    then (sum_Q (map processing_time_seconds results) / Qnat (length results))%Q
    else 0%Q in
  match total_time r with
  | inl e => inl e
  | inr total_time =>
      let keywords_per_minute :=
        if negb (Qle_bool total_time 0)
        then (Qnat (length results) / (total_time / 60))%Q
        else 0%Q in
      inr {| total_keywords_processed := length results;
             successful_researches := length successful_results;
             failed_researches := length failed_results;
             all_supporting_keywords_found := total_supporting_keywords;
             average_processing_time_seconds := py_round avg_processing_time 2;
             total_processing_time_seconds := py_round total_time 2;
             keywords_per_minute := py_round keywords_per_minute 2;
             total_api_calls := api_calls r;
             reported_cache_hits := cache_hits r;
             reported_cache_hit_rate := py_round (cache_hit_rate r) 2;
             reported_cache_ttl_hours := cache_ttl_hours r;
             successful_keywords :=
               map (fun r => (seed_keyword r, supporting_keywords_found r,
                              processing_time_seconds r)) successful_results;
             failed_keywords :=
               map (fun r => (seed_keyword r, error_message r)) failed_results |}
  end.

(** [main], line 491: the total printed at the end of a run. *)
Definition printed_total_supporting (results : list Row) : nat :=
  sum_nat (map supporting_keywords_found results).


Definition broken_run :=
  process_single_keyword_optimized (input 2 "broken") fresh_researcher (scenario seconds).

(** ** [research_keyword] over answers that do not change *)

(** The URLs [get_keyword_serp_urls] gives for a keyword when the SERP
    request for it is answered with [serp kw]. *)
Definition serp_urls (serp : string -> option (list SerpItem)) (kw : string)
  : list string :=
  match serp kw with
  | None => []
  | Some items => organic_urls items []
  end.

(** The verdict of step 3 on one candidate: the supporting keyword it
    becomes when its SERP is not empty and shares at least 40 percent
    with the original one. *)
Definition judge (serp : string -> option (list SerpItem))
    (original_top_10_urls : list string) (kw_data : KeywordRecord)
  : option SupportingKeyword :=
  let keyword_urls := serp_urls serp (keyword kw_data) in
  if is_empty keyword_urls then None
  else
    let overlap := calculate_url_overlap original_top_10_urls keyword_urls in
    if Qle_bool 40 overlap then
      Some {| sk_keyword := keyword kw_data;
              overlap_percentage := py_round overlap 1;
              sk_search_volume := search_volume kw_data;
              sk_cpc := cpc kw_data;
              sk_position := position kw_data;
              top_10_urls := firstn 10 keyword_urls |}
    else None.

(** The scenario of the specification without its broken keyword. *)
Definition steady_serp (kw : string) : option (list SerpItem) :=
  match scenario_serp kw with
  | inr answer => answer
  | inl _ => None
  end.

Definition steady_ranked (url : string) : list KeywordRecord :=
  match scenario_ranked url with
  | inr keywords => keywords
  | inl _ => []
  end.

Definition steady_world (readings : list Q) : Scripted :=
  {| sc_clock := readings;
     sc_serp := fun kw => inr (steady_serp kw);
     sc_ranked := fun url => inr (steady_ranked url);
     sc_db_ok := true |}.

Definition steady (w : Scripted) : Prop :=
  sc_serp w = (fun kw => inr (steady_serp kw))
  /\ sc_ranked w = (fun url => inr (steady_ranked url)).

(** ** [read_keywords_from_csv] *)

(** The characters [str.strip()] removes, among the ASCII ones: tab,
    line feed, vertical tab, form feed, carriage return, the four
    separators 28 to 31 and the blank. *)
Definition is_space (a : ascii) : bool :=
  let n := nat_of_ascii a in
  ((9 <=? n) && (n <=? 13) || (28 <=? n) && (n <=? 31) || (n =? 32))%nat.

Fixpoint lstrip (s : string) : string :=
  match s with
  | EmptyString => EmptyString
  | String a s' => if is_space a then lstrip s' else s
  end.

Fixpoint rstrip (s : string) : string :=
  match s with
  | EmptyString => EmptyString
  | String a s' =>
      match rstrip s' with
      | EmptyString => if is_space a then EmptyString else String a EmptyString
      | r => String a r
      end
  end.

(** [s.strip()]. *)
Definition strip (s : string) : string := rstrip (lstrip s).

(** A row as [csv.DictReader] yields it: the header's columns with the
    fields of the line, [None] for a column the line is too short for. *)
Definition CsvRow := list (string * option string).

(** [col in row] and [row[col]] in one: [None] when the column is not
    in the row. *)
Fixpoint row_get (col : string) (row : CsvRow) : option (option string) :=
  match row with
  | [] => None
  | (k, v) :: row' => if String.eqb k col then Some v else row_get col row'
  end.

Definition keyword_columns : list string :=
  ["keyword"; "keywords"; "seed_keyword"; "term"; "query"].

(** The inner loop [for col in [...]]; calling [strip] on [None]
    raises. *)
Fixpoint find_keyword (cols : list string) (row : CsvRow) : Exc + option string :=
  match cols with
  | [] => inr None
  | col :: rest =>
      match row_get col row with
      | None => find_keyword rest row
      | Some None => inl "'NoneType' object has no attribute 'strip'"
      | Some (Some value) =>
          if PyStr.truthy (strip value) then inr (Some (strip value))
          else find_keyword rest row
      end
  end.

(** An element of the list [read_keywords_from_csv] returns, with the
    row as it was read. *)
Record KeywordEntry := {
  entry_row_number : nat;
  entry_keyword : string;
  entry_original_row : CsvRow
}.

(** The loop [for row_num, row in enumerate(reader, 1)]. *)
Fixpoint read_rows (rows : list CsvRow) (row_num : nat) (keywords : list KeywordEntry)
  : Exc + list KeywordEntry :=
  match rows with
  | [] => inr keywords
  | row :: rest =>
      match find_keyword keyword_columns row with
      | inl e => inl e
      | inr (Some kw) =>
          read_rows rest (S row_num)
            (keywords ++ [ {| entry_row_number := row_num;
                              entry_keyword := kw;
                              entry_original_row := row |} ])
      | inr None => read_rows rest (S row_num) keywords
      end
  end.

(** [read_keywords_from_csv]; [file] is what opening and parsing the
    file gives, the rows or the exception, and both [except] clauses
    return the empty list. *)
Definition read_keywords_from_csv (file : Exc + list CsvRow) : list KeywordEntry :=
  match file with
  | inl _ => []
  | inr rows =>
      match read_rows rows 1 [] with
      | inl _ => []
      | inr keywords => keywords
      end
  end.

Definition sample_rows : list CsvRow :=
  [ [("id", Some "7"); ("keyword", Some "  seo tips ")];
    [("id", Some "8"); ("keyword", Some "   ")];
    [("id", Some "9"); ("keyword", Some ""); ("term", Some "guitar")] ].

Definition short_row : CsvRow := [("id", Some "10"); ("keyword", None)].

(** ** [get_ranked_keywords]: from the items of the response to the records *)

(** What a JSON object holds for a key: nothing, [null], or a value. *)
Inductive Field (A : Type) : Type :=
| Missing : Field A
| Null : Field A
| Val : A -> Field A.

Arguments Missing {A}.
Arguments Null {A}.
Arguments Val {A} _.

(** [d.get(key, default)] on an object; [None] is Python's [None]. *)
Definition get_default {A} (field : Field A) (default : A) : option A :=
  match field with
  | Missing => Some default
  | Null => None
  | Val a => Some a
  end.

(** The part of an item of [ranked_keywords/live] that the code reads,
    with the types the API documents: objects for [keyword_data],
    [keyword_info], [ranked_serp_element] and [serp_item], a string for
    [keyword], an integer for [rank_group] and [search_volume], numbers
    for [cpc] and [competition].  Each may be missing or [null]. *)
Record KeywordInfo := {
  info_search_volume : Field Z;
  info_cpc : Field Q;
  info_competition : Field Q
}.

Record KeywordData := {
  data_keyword : Field string;
  data_keyword_info : Field KeywordInfo
}.

Record RankedSerpItem := { rank_group : Field Z }.

Record RankedSerpElement := { serp_item : Field RankedSerpItem }.

Record RankedItem := {
  keyword_data : Field KeywordData;
  ranked_serp_element : Field RankedSerpElement
}.

(** The default [{}] of each [get]. *)
Definition no_keyword_data : KeywordData :=
  {| data_keyword := Missing; data_keyword_info := Missing |}.

Definition no_keyword_info : KeywordInfo :=
  {| info_search_volume := Missing; info_cpc := Missing; info_competition := Missing |}.

Definition no_ranked_element : RankedSerpElement := {| serp_item := Missing |}.

Definition no_serp_item : RankedSerpItem := {| rank_group := Missing |}.

Definition no_attribute_get : Exc := "'NoneType' object has no attribute 'get'".

Definition no_attribute_strip : Exc := "'NoneType' object has no attribute 'strip'".

Definition no_comparison : Exc :=
  "'<=' not supported between instances of 'int' and 'NoneType'".

(** The body of the loop that logs the first three items. *)
Definition log_item (item : RankedItem) : Exc + unit :=
  match get_default (keyword_data item) no_keyword_data with
  | None => inl no_attribute_get
  | Some _ =>
      match get_default (ranked_serp_element item) no_ranked_element with
      | None => inl no_attribute_get
      | Some ranked_element =>
          match get_default (serp_item ranked_element) no_serp_item with
          | None => inl no_attribute_get
          | Some _ => inr tt
          end
      end
  end.

Fixpoint log_items (items : list RankedItem) : Exc + unit :=
  match items with
  | [] => inr tt
  | item :: rest =>
      match log_item item with
      | inl e => inl e
      | inr _ => log_items rest
      end
  end.

(** The body of the loop [for item in results]: the record to append,
    if any. *)
Definition format_item (item : RankedItem) : Exc + option KeywordRecord :=
  match get_default (keyword_data item) no_keyword_data with
  | None => inl no_attribute_get
  | Some keyword_data =>
      match get_default (data_keyword keyword_data) "" with
      | None => inl no_attribute_strip
      | Some text =>
          let keyword_text := strip text in
          match get_default (ranked_serp_element item) no_ranked_element with
          | None => inl no_attribute_get
          | Some ranked_element =>
              match get_default (serp_item ranked_element) no_serp_item with
              | None => inl no_attribute_get
              | Some serp_item =>
                  match get_default (rank_group serp_item) 0%Z with
                  | None => inl no_comparison
                  | Some position =>
                      if (1 <=? position)%Z && (position <=? 10)%Z
                         && PyStr.truthy keyword_text
                      then
                        match get_default (data_keyword_info keyword_data)
                                no_keyword_info with
                        | None => inl no_attribute_get
                        | Some keyword_info =>
                            inr (Some
                              {| keyword := keyword_text;
                                 position := position;
                                 search_volume :=
                                   get_default (info_search_volume keyword_info) 0%Z;
                                 cpc := get_default (info_cpc keyword_info) 0%Q;
                                 competition :=
                                   get_default (info_competition keyword_info) 0%Q |})
                        end
                      else inr None
                  end
              end
          end
      end
  end.

Fixpoint format_items (results : list RankedItem) (keywords : list KeywordRecord)
  : Exc + list KeywordRecord :=
  match results with
  | [] => inr keywords
  | item :: rest =>
      match format_item item with
      | inl e => inl e
      | inr (Some keyword_info) => format_items rest (keywords ++ [keyword_info])
      | inr None => format_items rest keywords
      end
  end.

(** [get_ranked_keywords] from [items = task['result'][0].get('items')]
    on; the exceptions raised here are no [RequestException] and leave
    the method. *)
Definition ranked_keywords_of (items : Field (list RankedItem))
  : Exc + list KeywordRecord :=
  let results := match items with Val l => l | _ => [] end in
  match log_items (firstn 3 results) with
  | inl e => inl e
  | inr _ => format_items results []
  end.

(** The record an item contributes, if it passes the filter. *)
Definition contribution (item : RankedItem) : option KeywordRecord :=
  match format_item item with
  | inr (Some keyword_info) => Some keyword_info
  | _ => None
  end.

Definition ranked_item (text : Field string) (rank : Field Z) (volume : Field Z)
  : RankedItem :=
  {| keyword_data :=
       Val {| data_keyword := text;
              data_keyword_info :=
                Val {| info_search_volume := volume;
                       info_cpc := Null; info_competition := Missing |} |};
     ranked_serp_element := Val {| serp_item := Val {| rank_group := rank |} |} |}.

Definition sample_items : list RankedItem :=
  [ ranked_item (Val " seo tips ") (Val 3%Z) (Val 900%Z);
    ranked_item (Val "seo") (Val 11%Z) (Val 5000%Z);
    ranked_item (Val "  ") (Val 1%Z) Missing;
    ranked_item (Val "seo guide") (Val 10%Z) Null;
    ranked_item Missing (Val 2%Z) (Val 10%Z);
    ranked_item (Val "unranked") Missing (Val 10%Z) ].

(** ** Threads at the rate limiter *)




(** * Properties *)

(** ** The model on small inputs *)

Example normalize_url_ex1 :
  normalize_url "HTTP://Example.com/Path/" = "http://example.com/path".
Proof. reflexivity. Qed.

Example normalize_url_ex2 :
  normalize_url "http://a.b/c?x=1#y" = "http://a.b/c".
Proof. reflexivity. Qed.

Example overlap_ex1 :
  calculate_url_overlap ["http://a/"; "http://b"; "http://c"; "http://d"; "http://e"]
                        ["http://A"; "http://b?q"; "http://z"] = (2 / 5 * 100)%Q.
Proof. vm_compute. reflexivity. Qed.

Example dedup_ex :
  deduplicate [mk_kw "x" 5 1 1; mk_kw "y" 3 1 1; mk_kw "x" 2 7 1]
  = [("x", mk_kw "x" 2 7 1); ("y", mk_kw "y" 3 1 1)].
Proof. reflexivity. Qed.

Example sorted_ex :
  map keyword (py_sorted [mk_kw "a" 1 10 1; mk_kw "b" 1 10 2; mk_kw "c" 1 5 3])
  = ["b"; "a"; "c"].
Proof. reflexivity. Qed.

Example py_round_ex : py_round (1234 # 100) 1 = (123 # 10)%Q /\ py_round (125 # 100) 1 = (12 # 10)%Q.
Proof. split; vm_compute; reflexivity. Qed.

(** ** The overlap scorer *)

Lemma url_set_nonempty (u : string) (us : list string) :
  (0 < size (url_set (u :: us)))%nat.
Proof.
  unfold url_set. cbn [map list_to_set].
  enough (Hne : size ({[normalize_url u]} ∪ list_to_set (map normalize_url us) : gset string) <> 0%nat) by lia.
  apply size_non_empty_iff. intros Hempty.
  apply (not_elem_of_empty (C := gset string) (normalize_url u)).
  rewrite <- Hempty. apply elem_of_union_l, elem_of_singleton. reflexivity.
Qed.

Lemma Qnat_nonneg (n : nat) : (0 <= Qnat n)%Q.
Proof. unfold Qnat. rewrite <- (Zle_Qle 0). lia. Qed.

Lemma Qnat_pos (n : nat) : (0 < n)%nat -> (0 < Qnat n)%Q.
Proof. intros Hn. unfold Qnat. rewrite <- (Zlt_Qlt 0). lia. Qed.

Lemma Qnat_le (a b : nat) : (a <= b)%nat -> (Qnat a <= Qnat b)%Q.
Proof. intros Hab. unfold Qnat. rewrite <- Zle_Qle. lia. Qed.

Lemma percentage_bounds (a b : nat) :
  (a <= b)%nat -> (0 < b)%nat -> (0 <= Qnat a / Qnat b * 100 <= 100)%Q.
Proof.
  intros Hab Hb.
  pose proof (Qnat_pos b Hb) as Hb'.
  pose proof (Qnat_nonneg a) as Ha'.
  pose proof (Qnat_le a b Hab) as Hab'.
  split.
  - apply Qmult_le_0_compat; [|discriminate].
    apply Qle_shift_div_l; [assumption|]. rewrite Qmult_0_l. assumption.
  - apply Qle_trans with (1 * 100)%Q; [|discriminate].
    apply Qmult_le_compat_r; [|discriminate].
    apply Qle_shift_div_r; [assumption|]. rewrite Qmult_1_l. assumption.
Qed.

Lemma percentage_full (b : nat) : (0 < b)%nat -> (Qnat b / Qnat b * 100 == 100)%Q.
Proof.
  intros Hb. pose proof (Qnat_pos b Hb) as Hb'.
  field. intros Hz. rewrite Hz in Hb'. discriminate.
Qed.

Lemma calculate_url_overlap_cons (u : string) (us : list string) (c : string) (cs : list string) :
  calculate_url_overlap (u :: us) (c :: cs) =
  (Qnat (size (url_set (u :: us) ∩ url_set (c :: cs)))
     / Qnat (size (url_set (u :: us))) * 100)%Q.
Proof.
  unfold calculate_url_overlap. cbn [is_empty orb].
  pose proof (url_set_nonempty u us) as Hpos.
  apply Nat.ltb_lt in Hpos. rewrite Hpos. reflexivity.
Qed.

Lemma calculate_url_overlap_range (original candidate : list string) :
  (0 <= calculate_url_overlap original candidate <= 100)%Q.
Proof.
  destruct original as [|u us]; [split; discriminate|].
  destruct candidate as [|c cs]; [split; discriminate|].
  rewrite calculate_url_overlap_cons. apply percentage_bounds.
  - apply subseteq_size, intersection_subseteq_l.
  - apply url_set_nonempty.
Qed.

(** C1. [calculate_url_overlap] is the reference overlap: 0 when either
    list is empty, otherwise the size of the intersection of the two
    normalized URL sets over the size of the normalized original set,
    times 100.  Hence it lies between 0 and 100 and is 100 when both
    arguments are the same non-empty list. *)
Theorem calculate_url_overlap_spec (original candidate : list string) :
  calculate_url_overlap original candidate = overlap_reference original candidate
  /\ (0 <= calculate_url_overlap original candidate <= 100)%Q
  /\ calculate_url_overlap [] candidate = 0%Q
  /\ calculate_url_overlap original [] = 0%Q
  /\ (forall u us, calculate_url_overlap (u :: us) (u :: us) == 100)%Q.
Proof.
  split; [|split; [|split; [|split]]].
  - destruct original as [|u us]; [reflexivity|].
    destruct candidate as [|c cs]; [reflexivity|].
    apply calculate_url_overlap_cons.
  - apply calculate_url_overlap_range.
  - reflexivity.
  - destruct original; reflexivity.
  - intros u us. rewrite calculate_url_overlap_cons.
    rewrite (intersection_idemp_L (url_set (u :: us))).
    apply percentage_full, url_set_nonempty.
Qed.

(** ** Stage 2: deduplication *)

Lemma dict_get_set_eq (k : string) (v : KeywordRecord) (d : KeywordDict) :
  dict_get k (dict_set k v d) = Some v.
Proof.
  induction d as [|[k' v'] d IH]; cbn.
  - rewrite String.eqb_refl. reflexivity.
  - destruct (String.eqb k' k) eqn:E; cbn; rewrite E; [reflexivity|assumption].
Qed.

Lemma dict_get_set_ne (k k0 : string) (v : KeywordRecord) (d : KeywordDict) :
  k <> k0 -> dict_get k0 (dict_set k v d) = dict_get k0 d.
Proof.
  intros Hne. induction d as [|[k' v'] d IH]; cbn.
  - destruct (String.eqb k k0) eqn:E; [|reflexivity].
    apply String.eqb_eq in E. contradiction.
  - destruct (String.eqb k' k) eqn:E; cbn.
    + apply String.eqb_eq in E. subst k'.
      destruct (String.eqb k k0) eqn:E0; [|reflexivity].
      apply String.eqb_eq in E0. contradiction.
    + rewrite IH. reflexivity.
Qed.

Lemma dict_get_None_keys (k : string) (d : KeywordDict) :
  dict_get k d = None <-> existsb (String.eqb k) (dict_keys d) = false.
Proof.
  unfold dict_keys.
  induction d as [|[k' v'] d IH]; cbn; [tauto|].
  rewrite (String.eqb_sym k k').
  destruct (String.eqb k' k); cbn; [split; discriminate|assumption].
Qed.

Lemma dict_keys_set (k : string) (v : KeywordRecord) (d : KeywordDict) :
  dict_keys (dict_set k v d) =
  if existsb (String.eqb k) (dict_keys d) then dict_keys d else dict_keys d ++ [k].
Proof.
  unfold dict_keys.
  induction d as [|[k' v'] d IH]; [reflexivity|].
  cbn [dict_set map fst existsb]. rewrite (String.eqb_sym k k').
  destruct (String.eqb k' k); cbn [orb map fst]; [reflexivity|].
  rewrite IH. destruct (existsb (String.eqb k) (map fst d)); reflexivity.
Qed.

Lemma deduplicate_snoc (l : list KeywordRecord) (x : KeywordRecord) :
  deduplicate (l ++ [x]) = dedup_step (deduplicate l) x.
Proof. unfold deduplicate. rewrite fold_left_app. reflexivity. Qed.

Lemma dict_keys_dedup_step (d : KeywordDict) (x : KeywordRecord) :
  dict_keys (dedup_step d x) =
  if existsb (String.eqb (keyword x)) (dict_keys d) then dict_keys d
  else dict_keys d ++ [keyword x].
Proof.
  unfold dedup_step.
  destruct (dict_get (keyword x) d) as [kept|] eqn:Hget.
  - assert (Hex : existsb (String.eqb (keyword x)) (dict_keys d) = true).
    { destruct (existsb (String.eqb (keyword x)) (dict_keys d)) eqn:E; [reflexivity|].
      apply dict_get_None_keys in E. congruence. }
    destruct (position x <? position kept)%Z.
    + rewrite dict_keys_set, Hex. reflexivity.
    + rewrite Hex. reflexivity.
  - rewrite dict_keys_set. reflexivity.
Qed.

Lemma dict_keys_deduplicate (l : list KeywordRecord) :
  dict_keys (deduplicate l) = first_seen (map keyword l).
Proof.
  induction l as [|x l IH] using rev_ind; [reflexivity|].
  rewrite deduplicate_snoc, dict_keys_dedup_step, IH.
  unfold first_seen. rewrite map_app, fold_left_app. reflexivity.
Qed.

Lemma existsb_eqb_In (k : string) (ks : list string) :
  existsb (String.eqb k) ks = true <-> In k ks.
Proof.
  rewrite existsb_exists. split.
  - intros [y [Hy E]]. apply String.eqb_eq in E. subst. assumption.
  - intros Hin. exists k. split; [assumption|apply String.eqb_refl].
Qed.

Lemma first_seen_snoc (ks : list string) (k : string) :
  first_seen (ks ++ [k]) =
  if existsb (String.eqb k) (first_seen ks) then first_seen ks else first_seen ks ++ [k].
Proof. unfold first_seen. rewrite fold_left_app. reflexivity. Qed.

Lemma first_seen_In (ks : list string) (k : string) :
  In k (first_seen ks) <-> In k ks.
Proof.
  induction ks as [|x ks IH] using rev_ind; [reflexivity|].
  rewrite first_seen_snoc.
  destruct (existsb (String.eqb x) (first_seen ks)) eqn:E.
  - apply existsb_eqb_In in E. rewrite in_app_iff, IH. cbn.
    split; [tauto|]. intros [Hin|[Heq|[]]]; [assumption|].
    subst. apply IH. assumption.
  - rewrite !in_app_iff, IH. reflexivity.
Qed.

Lemma first_seen_NoDup (ks : list string) : NoDup (first_seen ks).
Proof.
  induction ks as [|x ks IH] using rev_ind; [constructor|].
  rewrite first_seen_snoc.
  destruct (existsb (String.eqb x) (first_seen ks)) eqn:E; [assumption|].
  apply NoDup_app. split; [assumption|]. split; [|apply NoDup_singleton].
  intros y Hy Hx. apply list_elem_of_In in Hy, Hx.
  destruct Hx as [Heq|[]]. subst y.
  apply existsb_eqb_In in Hy. congruence.
Qed.

Lemma dict_set_keyed (v : KeywordRecord) (d : KeywordDict) :
  keyed d -> keyed (dict_set (keyword v) v d).
Proof.
  unfold keyed. induction 1 as [|[k' v'] d Hkv Hd IH]; cbn.
  - repeat constructor.
  - destruct (String.eqb k' (keyword v)) eqn:E.
    + apply String.eqb_eq in E. constructor; [cbn; congruence|assumption].
    + constructor; assumption.
Qed.

Lemma deduplicate_keyed (l : list KeywordRecord) : keyed (deduplicate l).
Proof.
  induction l as [|x l IH] using rev_ind; [constructor|].
  rewrite deduplicate_snoc. unfold dedup_step.
  destruct (dict_get (keyword x) (deduplicate l)) as [kept|].
  - destruct (position x <? position kept)%Z; [apply dict_set_keyed|]; assumption.
  - apply dict_set_keyed. assumption.
Qed.

Lemma keyed_values (d : KeywordDict) :
  keyed d -> map keyword (dict_values d) = dict_keys d.
Proof.
  unfold dict_values, dict_keys.
  induction 1 as [|[k v] d Hkv Hd IH]; cbn in *; congruence.
Qed.

Lemma dict_get_In (k : string) (v : KeywordRecord) (d : KeywordDict) :
  NoDup (dict_keys d) -> In (k, v) d -> dict_get k d = Some v.
Proof.
  unfold dict_keys. induction d as [|[k' v'] d IH]; cbn; [tauto|].
  intros Hnd [Heq|Hin].
  - inversion Heq; subst. rewrite String.eqb_refl. reflexivity.
  - apply NoDup_cons in Hnd as [Hnotin Hnd].
    destruct (String.eqb k' k) eqn:E; [|auto].
    apply String.eqb_eq in E. subst k'. exfalso. apply Hnotin.
    apply list_elem_of_In, in_map_iff. exists (k, v). split; [reflexivity|assumption].
Qed.

(** The loop invariant of the deduplication: after the records of [l]
    the dict maps every keyword text to the record [kept_for] it. *)
Lemma deduplicate_invariant (l : list KeywordRecord) (k : string) :
  match dict_get k (deduplicate l) with
  | Some r => kept_for k l r
  | None => forall r, In r l -> keyword r <> k
  end.
Proof.
  induction l as [|x l IH] using rev_ind; [intros r []|].
  rewrite deduplicate_snoc. unfold dedup_step.
  destruct (String.eqb (keyword x) k) eqn:Ek.
  - apply String.eqb_eq in Ek. rewrite Ek.
    destruct (dict_get k (deduplicate l)) as [kept|] eqn:Hget.
    + destruct IH as (l1 & l2 & Hl & Hk & Hbefore & Hafter).
      destruct (position x <? position kept)%Z eqn:Hpos.
      * apply Z.ltb_lt in Hpos. rewrite dict_get_set_eq.
        exists l, []. repeat split; [assumption| |intros r' []].
        intros r' Hin Hr'. subst l. apply in_app_or in Hin as [Hin|[Heq|Hin]].
        -- specialize (Hbefore r' Hin Hr'). lia.
        -- subst r'. assumption.
        -- specialize (Hafter r' Hin Hr'). lia.
      * apply Z.ltb_ge in Hpos. rewrite Hget.
        exists l1, (l2 ++ [x]). subst l. rewrite <- app_assoc.
        repeat split; [assumption|assumption|].
        intros r' Hin Hr'. apply in_app_or in Hin as [Hin|[Heq|[]]]; [auto|].
        subst r'. assumption.
    + rewrite dict_get_set_eq.
      exists l, []. repeat split; [assumption| |intros r' []].
      intros r' Hin Hr'. exfalso. exact (IH r' Hin Hr').
  - apply String.eqb_neq in Ek.
    assert (Hsame : dict_get k
              match dict_get (keyword x) (deduplicate l) with
              | Some kept =>
                  if (position x <? position kept)%Z
                  then dict_set (keyword x) x (deduplicate l)
                  else deduplicate l
              | None => dict_set (keyword x) x (deduplicate l)
              end = dict_get k (deduplicate l)).
    { destruct (dict_get (keyword x) (deduplicate l)) as [kept|].
      - destruct (position x <? position kept)%Z;
          [apply dict_get_set_ne; assumption|reflexivity].
      - apply dict_get_set_ne. assumption. }
    rewrite Hsame.
    destruct (dict_get k (deduplicate l)) as [r|].
    + destruct IH as (l1 & l2 & Hl & Hk & Hbefore & Hafter).
      exists l1, (l2 ++ [x]). subst l. rewrite <- app_assoc.
      repeat split; [assumption|assumption|].
      intros r' Hin Hr'. apply in_app_or in Hin as [Hin|[Heq|[]]]; [auto|].
      subst r'. contradiction.
    + intros r Hin. apply in_app_or in Hin as [Hin|[Heq|[]]]; [auto|].
      subst r. assumption.
Qed.

(** C6. Deduplication keeps one record per keyword text, every keyword
    text of the harvest survives, and the record kept for a text is the
    one with the minimum position among the records with that text, the
    first such record on a tie. *)
Theorem deduplicate_keeps_min_position (all_keywords : list KeywordRecord) :
  let kept := dict_values (deduplicate all_keywords) in
  List.NoDup (map keyword kept)
  /\ (forall r, In r all_keywords -> exists r', In r' kept /\ keyword r' = keyword r)
  /\ (forall r, In r kept -> kept_for (keyword r) all_keywords r).
Proof.
  intros kept. subst kept.
  pose proof (deduplicate_keyed all_keywords) as Hkeyed.
  pose proof (keyed_values _ Hkeyed) as Hvals.
  assert (Hnd : NoDup (dict_keys (deduplicate all_keywords))).
  { rewrite dict_keys_deduplicate. apply first_seen_NoDup. }
  split; [rewrite Hvals; apply NoDup_ListNoDup; assumption|]. split.
  - intros r Hin.
    assert (Hk : In (keyword r) (map keyword (dict_values (deduplicate all_keywords)))).
    { rewrite Hvals, dict_keys_deduplicate. apply first_seen_In.
      apply in_map. assumption. }
    apply in_map_iff in Hk as (r' & Hr' & Hin'). exists r'. split; assumption.
  - intros r Hin. unfold dict_values in Hin.
    apply in_map_iff in Hin as ([k v] & Hv & Hin). cbn in Hv. subst v.
    assert (Hk : keyword r = k).
    { unfold keyed in Hkeyed. rewrite List.Forall_forall in Hkeyed.
      exact (Hkeyed _ Hin). }
    pose proof (deduplicate_invariant all_keywords k) as Hinv.
    rewrite (dict_get_In k r _ Hnd Hin) in Hinv. rewrite Hk. assumption.
Qed.

Lemma deduplicate_keeps_min_position_witness :
  In (mk_kw "x" 2 7 1) (dict_values (deduplicate [mk_kw "x" 5 1 1; mk_kw "x" 2 7 1]))
  /\ kept_for "x" [mk_kw "x" 5 1 1; mk_kw "x" 2 7 1] (mk_kw "x" 2 7 1).
Proof.
  assert (Hin : In (mk_kw "x" 2 7 1)
                  (dict_values (deduplicate [mk_kw "x" 5 1 1; mk_kw "x" 2 7 1]))).
  { simpl. left. reflexivity. }
  split; [exact Hin|].
  exact (proj2 (proj2 (deduplicate_keeps_min_position
                         [mk_kw "x" 5 1 1; mk_kw "x" 2 7 1])) _ Hin).
Defined.

(** ** Stage 2: the sort *)

Lemma key_lt_false_desc (x y : KeywordRecord) :
  key_lt (sort_key y) (sort_key x) = false -> volume_cpc_desc x y.
Proof.
  unfold key_lt, sort_key, volume_cpc_desc. cbn [fst snd]. intros Hlt.
  destruct (- or_zero_Z (search_volume y) =? - or_zero_Z (search_volume x))%Z eqn:Ev.
  - apply Z.eqb_eq in Ev. right. split; [lia|].
    apply negb_false_iff, Qle_bool_iff in Hlt.
    apply Qopp_le_compat in Hlt. rewrite !Qopp_involutive in Hlt. assumption.
  - apply Z.eqb_neq in Ev. apply Z.ltb_ge in Hlt. left. lia.
Qed.

Lemma key_lt_true_desc (x y : KeywordRecord) :
  key_lt (sort_key y) (sort_key x) = true -> volume_cpc_desc y x.
Proof.
  unfold key_lt, sort_key, volume_cpc_desc. cbn [fst snd]. intros Hlt.
  destruct (- or_zero_Z (search_volume y) =? - or_zero_Z (search_volume x))%Z eqn:Ev.
  - apply Z.eqb_eq in Ev. right. split; [lia|].
    apply negb_true_iff in Hlt.
    destruct (Qlt_le_dec (or_zero_Q (cpc y)) (or_zero_Q (cpc x))) as [Hc|Hc]; [|assumption].
    exfalso. apply Qlt_le_weak, Qopp_le_compat, Qle_bool_iff in Hc. congruence.
  - apply Z.ltb_lt in Hlt. left. lia.
Qed.

Lemma volume_cpc_desc_trans (a b c : KeywordRecord) :
  volume_cpc_desc a b -> volume_cpc_desc b c -> volume_cpc_desc a c.
Proof.
  unfold volume_cpc_desc. intros [Hab|[Hab Hab']] [Hbc|[Hbc Hbc']].
  - left. lia.
  - left. lia.
  - left. lia.
  - right. split; [lia|]. eapply Qle_trans; eassumption.
Qed.

Lemma sorted_insert_Forall (P : KeywordRecord -> Prop) (x : KeywordRecord)
    (l : list KeywordRecord) :
  P x -> List.Forall P l -> List.Forall P (sorted_insert x l).
Proof.
  intros Hx Hl. induction Hl as [|y l Hy Hl IH]; cbn.
  - repeat constructor. assumption.
  - destruct (key_lt (sort_key y) (sort_key x)); repeat constructor; assumption.
Qed.

Lemma sorted_insert_sorted (x : KeywordRecord) (l : list KeywordRecord) :
  StronglySorted volume_cpc_desc l ->
  StronglySorted volume_cpc_desc (sorted_insert x l).
Proof.
  induction 1 as [|y l Hsorted IH Hy]; cbn.
  - repeat constructor.
  - destruct (key_lt (sort_key y) (sort_key x)) eqn:Hlt.
    + constructor; [assumption|].
      apply sorted_insert_Forall; [|assumption].
      apply key_lt_true_desc. assumption.
    + apply key_lt_false_desc in Hlt.
      constructor; [constructor; assumption|].
      constructor; [assumption|].
      rewrite List.Forall_forall in Hy |- *. intros z Hz.
      eapply volume_cpc_desc_trans; [eassumption|]. apply Hy. assumption.
Qed.

Lemma py_sorted_sorted (l : list KeywordRecord) :
  StronglySorted volume_cpc_desc (py_sorted l).
Proof.
  induction l as [|x l IH]; cbn; [constructor|].
  apply sorted_insert_sorted. assumption.
Qed.

Lemma sorted_insert_perm (x : KeywordRecord) (l : list KeywordRecord) :
  Permutation (x :: l) (sorted_insert x l).
Proof.
  induction l as [|y l IH]; cbn; [reflexivity|].
  destruct (key_lt (sort_key y) (sort_key x)); [|reflexivity].
  rewrite perm_swap. apply perm_skip. assumption.
Qed.

Lemma py_sorted_perm (l : list KeywordRecord) : Permutation l (py_sorted l).
Proof.
  induction l as [|x l IH]; cbn; [reflexivity|].
  rewrite <- sorted_insert_perm. apply perm_skip. assumption.
Qed.

Lemma same_key_not_lt (a x y : KeywordRecord) :
  same_key a x = true -> same_key a y = true ->
  key_lt (sort_key y) (sort_key x) = false.
Proof.
  unfold same_key, key_eqb, key_lt. intros Hx Hy.
  apply andb_true_iff in Hx as [Hx1 Hx2]. apply andb_true_iff in Hy as [Hy1 Hy2].
  apply Z.eqb_eq in Hx1, Hy1. apply Qeq_bool_iff in Hx2, Hy2.
  assert (E : (fst (sort_key y) =? fst (sort_key x))%Z = true)
    by (apply Z.eqb_eq; congruence).
  rewrite E. apply negb_false_iff, Qle_bool_iff.
  rewrite <- Hx2, <- Hy2. apply Qle_refl.
Qed.

Lemma sorted_insert_filter (a x : KeywordRecord) (l : list KeywordRecord) :
  List.filter (same_key a) (sorted_insert x l) =
  if same_key a x then x :: List.filter (same_key a) l
  else List.filter (same_key a) l.
Proof.
  induction l as [|y l IH]; cbn [sorted_insert List.filter]; [reflexivity|].
  destruct (key_lt (sort_key y) (sort_key x)) eqn:Hlt; cbn [List.filter].
  - rewrite IH. destruct (same_key a x) eqn:Hx; [|reflexivity].
    destruct (same_key a y) eqn:Hy; [|reflexivity].
    rewrite (same_key_not_lt a x y Hx Hy) in Hlt. discriminate.
  - reflexivity.
Qed.

Lemma py_sorted_stable (a : KeywordRecord) (l : list KeywordRecord) :
  List.filter (same_key a) (py_sorted l) = List.filter (same_key a) l.
Proof.
  induction l as [|x l IH]; cbn [py_sorted List.filter]; [reflexivity|].
  rewrite sorted_insert_filter, IH. reflexivity.
Qed.

(** C7. The candidates handed to stage 3 are the deduplicated records,
    which stand in first-seen order, rearranged so that search volume
    descends and, among equal volumes, CPC descends (a null counting as
    0), records with equal sort keys keeping their first-seen order.
    Volumes [10,10,5] with CPCs [1,2,3] come out as (10,2), (10,1),
    (5,3). *)
Theorem sorted_keywords_order (all_keywords : list KeywordRecord) :
  let candidates := dict_values (deduplicate all_keywords) in
  let result := sorted_keywords all_keywords in
  map keyword candidates = first_seen (map keyword all_keywords)
  /\ Permutation candidates result
  /\ StronglySorted volume_cpc_desc result
  /\ (forall a, List.filter (same_key a) result = List.filter (same_key a) candidates)
  /\ map volume_and_cpc
       (sorted_keywords [mk_kw "k1" 1 10 1; mk_kw "k2" 1 10 2; mk_kw "k3" 1 5 3])
     = [(10%Z, 2%Q); (10%Z, 1%Q); (5%Z, 3%Q)]
  /\ map keyword
       (sorted_keywords [ {| keyword := "n"; position := 1; search_volume := None;
                             cpc := None; competition := None |};
                          mk_kw "z" 1 0 0; mk_kw "p" 1 0 1 ])
     = ["p"; "n"; "z"].
Proof.
  intros candidates result. subst candidates result. unfold sorted_keywords.
  split; [|split; [|split; [|split; [|split]]]].
  - rewrite (keyed_values _ (deduplicate_keyed all_keywords)).
    apply dict_keys_deduplicate.
  - apply py_sorted_perm.
  - apply py_sorted_sorted.
  - intros a. apply py_sorted_stable.
  - reflexivity.
  - reflexivity.
Qed.

(** ** The URL normalizer *)

(** C5. [normalize_url] is not idempotent.  The trailing slashes are
    stripped before the query string and the fragment are cut off, so a
    slash that stands right before the [?] or the [#] survives the first
    pass and is only removed by a second one. *)
Theorem normalize_url_second_pass_differs :
  normalize_url "http://example.com/?q=1" = "http://example.com/"
  /\ normalize_url (normalize_url "http://example.com/?q=1") = "http://example.com"
  /\ normalize_url (normalize_url "http://example.com/?q=1")
     <> normalize_url "http://example.com/?q=1"
  /\ normalize_url (normalize_url "http://example.com/page/#top")
     <> normalize_url "http://example.com/page/#top".
Proof. repeat split; try reflexivity; vm_compute; discriminate. Qed.

(** ** Stage 3: selection of the supporting keywords *)

Lemma bind_inr {World A B} (m : M World A) (k : A -> M World B)
    (w w' : World) (b : B) :
  bind m k w = (inr b, w') ->
  exists a w1, m w = (inr a, w1) /\ k a w1 = (inr b, w').
Proof.
  unfold bind. destruct (m w) as [[e|a] w1]; [discriminate|].
  intros Hk. exists a, w1. split; [reflexivity|assumption].
Qed.

Lemma round_half_even_floor (x : Q) : (Qfloor x <= round_half_even x)%Z.
Proof.
  unfold round_half_even.
  destruct (Qcompare (x - inject_Z (Qfloor x)) (1 # 2)); [|lia|lia].
  destruct (Z.even (Qfloor x)); lia.
Qed.

Lemma py_round_1_ge_40 (x : Q) : (40 <= x)%Q -> (40 <= py_round x 1)%Q.
Proof.
  intros Hx. unfold py_round.
  change (inject_Z (10 ^ Z.of_nat 1)) with (inject_Z 10).
  apply Qle_shift_div_l; [reflexivity|].
  change (40 * inject_Z 10)%Q with (inject_Z 400).
  rewrite <- Zle_Qle.
  etransitivity; [|apply round_half_even_floor].
  change 400%Z with (Qfloor (inject_Z 400)).
  apply Qfloor_resp_le.
  change (inject_Z 400) with (40 * inject_Z 10)%Q.
  apply Qmult_le_compat_r; [assumption|discriminate].
Qed.

Section Selection.
Context {World : Type} `{External World}.

Lemma select_supporting_bound (original : list string) (candidates : list KeywordRecord) :
  forall (acc : list SupportingKeyword) (w w' : World) (found : list SupportingKeyword),
    select_supporting original candidates acc w = (inr found, w') ->
    (length acc <= 4)%nat -> List.Forall accepted acc ->
    (length found <= 4)%nat /\ List.Forall accepted found.
Proof.
  induction candidates as [|kw_data rest IH]; intros acc w w' found Hrun Hlen Hacc.
  - cbn in Hrun. inversion Hrun; subst. split; assumption.
  - cbn [select_supporting] in Hrun.
    destruct (4 <=? length acc)%nat eqn:Hfull.
    + inversion Hrun; subst. split; assumption.
    + apply Nat.leb_gt in Hfull.
      apply bind_inr in Hrun as (keyword_urls & w1 & _ & Hrun).
      apply bind_inr in Hrun as (u & w2 & _ & Hrun).
      apply IH in Hrun; [assumption| |].
      * destruct (negb (is_empty keyword_urls)); [|lia].
        destruct (Qle_bool 40 (calculate_url_overlap original keyword_urls)); [|lia].
        rewrite length_app. cbn. lia.
      * destruct (negb (is_empty keyword_urls)); [|assumption].
        destruct (Qle_bool 40 (calculate_url_overlap original keyword_urls)) eqn:Hov;
          [|assumption].
        apply List.Forall_app. split; [assumption|].
        constructor; [|constructor].
        unfold accepted. cbn. apply py_round_1_ge_40, Qle_bool_iff. assumption.
Qed.

(** C2. A run of [research_keyword] that gets as far as stage 3 (its
    result carries no error) reports at most 4 supporting keywords, and
    the overlap percentage reported for each is at least 40. *)
Theorem research_keyword_supporting_bound (kw : string) (w w' : World)
    (result : ResearchResult) :
  research_keyword kw w = (inr result, w') ->
  error result = None ->
  exists found,
    supporting_keywords result = Some found
    /\ (length found <= 4)%nat
    /\ List.Forall (fun sk => (40 <= overlap_percentage sk)%Q) found.
Proof.
  unfold research_keyword. intros Hrun Herr.
  apply bind_inr in Hrun as (t0 & w1 & _ & Hrun).
  apply bind_inr in Hrun as (urls & w2 & _ & Hrun).
  destruct (is_empty urls).
  { inversion Hrun; subst. discriminate. }
  apply bind_inr in Hrun as (all_keywords & w3 & _ & Hrun).
  destruct (length (sorted_keywords all_keywords) =? 0)%nat.
  { apply bind_inr in Hrun as (t1 & w4 & _ & Hrun).
    inversion Hrun; subst. discriminate. }
  apply bind_inr in Hrun as (found & w4 & Hsel & Hrun).
  apply bind_inr in Hrun as (t1 & w5 & _ & Hrun).
  inversion Hrun; subst. cbn.
  exists found. split; [reflexivity|].
  apply (select_supporting_bound _ _ [] _ _ _ Hsel); [cbn; lia|constructor].
Qed.

End Selection.

Example scenario_supporting :
  option_map (map sk_keyword) (supporting_keywords scenario_result) = Some ["a"]
  /\ total_supporting_keywords_found scenario_result = Some 1%nat
  /\ option_map (map overlap_percentage) (supporting_keywords scenario_result)
     = Some [(500 # 10)%Q].
Proof. repeat split. Qed.

Lemma research_keyword_supporting_bound_witness :
  exists found,
    supporting_keywords scenario_result = Some found
    /\ (length found <= 4)%nat
    /\ List.Forall (fun sk => (40 <= overlap_percentage sk)%Q) found.
Proof.
  apply (research_keyword_supporting_bound "seed" (scenario [0%Q; 7%Q])
           (scenario []) scenario_result).
  - vm_compute. reflexivity.
  - reflexivity.
Defined.

(** ** The cache *)

Lemma add_hours_Some (now : Q) (hours : Z) (expires_at : Q) :
  add_hours now hours = Some expires_at ->
  expires_at = (now + inject_Z (hours * 3600))%Q.
Proof.
  unfold add_hours. destruct (_ && _); [|discriminate].
  intros Heq. inversion Heq. reflexivity.
Qed.

Section CacheFacts.
Context {World : Type} `{External World} {V : Type} `{Json V}.


Lemma get_from_cache_found (cache_key : string) (r r1 : Researcher) (w w1 : World)
    (cached : option V) :
  get_from_cache cache_key r w = (cached, r1, w1) ->
  cache r1 = cache r /\ calls r1 = calls r
  /\ (forall v, cached = Some v ->
        exists text expires_at,
          cache r !! cache_key = Some (text, expires_at) /\ json_loads text = Some v
          /\ (fst (time_time w) < expires_at)%Q).
Proof.
  unfold get_from_cache. destruct (time_time w) as [now w0]. cbn [fst].
  destruct (cache r !! cache_key) as [[text expires_at]|] eqn:Hentry.
  - destruct (Qle_bool expires_at now) eqn:Hle; cbn [negb];
      intros Heq; inversion Heq; subst.
    + repeat split. intros v Hv. discriminate.
    + repeat split. intros v Hv. exists text, expires_at.
      split; [reflexivity|]. split; [assumption|].
      apply Qnot_le_lt. intros Hc. apply Qle_bool_iff in Hc. congruence.
  - intros Heq; inversion Heq; subst. repeat split. intros v Hv. discriminate.
Qed.

Lemma get_from_cache_settings (cache_key : string) (r : Researcher) (w : World) :
  cache_ttl_hours (snd (fst (get_from_cache (V := V) cache_key r w))) = cache_ttl_hours r.
Proof.
  unfold get_from_cache. destruct (time_time w) as [now w0].
  destruct (cache r !! cache_key) as [[text expires_at]|];
    [destruct (negb (Qle_bool expires_at now))|]; reflexivity.
Qed.



(** A write that fails, for any of the three reasons. *)
Lemma save_to_cache_failed (cache_key : string) (v : V) (r : Researcher) (w : World) :
  json_dumps v = None
  \/ add_hours (fst (time_time w)) (cache_ttl_hours r) = None
  \/ fst (db_write (snd (time_time w))) = false ->
  fst (save_to_cache cache_key v r w) = r.
Proof.
  unfold save_to_cache. destruct (time_time w) as [now w1]. cbn [fst snd].
  destruct (add_hours now (cache_ttl_hours r)) as [expires_at|]; [|reflexivity].
  destruct (db_write w1) as [written w2]. cbn [fst].
  destruct (json_dumps v) as [text|]; [|reflexivity].
  destruct written; [|reflexivity].
  intros [Hd|[Hadd|Hok]]; discriminate.
Qed.


End CacheFacts.



(** ** One keyword of the batch *)

Lemma round_half_even_zero (y : Q) :
  (- (1 # 2) <= y <= 1 # 2)%Q -> round_half_even y = 0%Z.
Proof.
  intros [Hlo Hhi]. unfold round_half_even.
  pose proof (Qfloor_le y) as Hfl. pose proof (Qlt_floor y) as Hfu.
  assert (Hf : (Qfloor y = -1 \/ Qfloor y = 0)%Z).
  { assert (H1 : (inject_Z (Qfloor y) < inject_Z 1)%Q).
    { change (inject_Z 1) with 1%Q. lra. }
    assert (H2 : (inject_Z (-2) < inject_Z (Qfloor y))%Q).
    { rewrite inject_Z_plus in Hfu. change (inject_Z 1) with 1%Q in Hfu.
      change (inject_Z (-2)) with (-2)%Q. lra. }
    rewrite <- Zlt_Qlt in H1, H2. lia. }
  destruct Hf as [Hf|Hf]; rewrite Hf in *.
  - destruct (Qcompare_spec (y - inject_Z (-1)) (1 # 2)) as [Heq|Hlt|Hgt]; [reflexivity| |reflexivity].
    change (inject_Z (-1)) with (-1)%Q in Hlt. lra.
  - destruct (Qcompare_spec (y - inject_Z 0) (1 # 2)) as [Heq|Hlt|Hgt]; [reflexivity|reflexivity|].
    change (inject_Z 0) with 0%Q in Hgt. lra.
Qed.

Lemma round_half_even_nonpos (y : Q) : (y <= 0)%Q -> (round_half_even y <= 0)%Z.
Proof.
  intros Hy. unfold round_half_even.
  pose proof (Qfloor_le y) as Hfl.
  assert (Hf : (Qfloor y <= 0)%Z).
  { rewrite Zle_Qle. change (inject_Z 0) with 0%Q. lra. }
  destruct (Z.eq_dec (Qfloor y) 0%Z) as [Hz|Hz].
  - rewrite Hz in *. change (inject_Z 0) with 0%Q in *.
    destruct (Qcompare_spec (y - 0) (1 # 2)) as [Heq|Hlt|Hgt]; [reflexivity|reflexivity|lra].
  - destruct (Qcompare (y - inject_Z (Qfloor y)) (1 # 2)); [|lia|lia].
    destruct (Z.even (Qfloor y)); lia.
Qed.

Lemma py_round_2_zero (x : Q) :
  (- (1 # 200) <= x <= 1 # 200)%Q -> (py_round x 2 == 0)%Q.
Proof.
  intros Hx. unfold py_round.
  change (inject_Z (10 ^ Z.of_nat 2)) with (inject_Z 100).
  rewrite round_half_even_zero; [reflexivity|].
  change (inject_Z 100) with 100%Q. lra.
Qed.

Lemma py_round_2_nonpos (x : Q) : (x <= 0)%Q -> (py_round x 2 <= 0)%Q.
Proof.
  intros Hx. unfold py_round.
  change (inject_Z (10 ^ Z.of_nat 2)) with (inject_Z 100).
  assert (Hr : (round_half_even (x * inject_Z 100) <= 0)%Z).
  { apply round_half_even_nonpos. change (inject_Z 100) with 100%Q. lra. }
  rewrite Zle_Qle in Hr. change (inject_Z 0) with 0%Q in Hr.
  apply Qle_shift_div_r; [reflexivity|]. lra.
Qed.

Section SingleFacts.
Context {World : Type} `{External World} `{Json ResearchResult}.

Lemma finish_row_spec (kw_data : KeywordInput) (result : ResearchResult)
    (r : Researcher) (w : World) :
  exists t1 t2 w',
    finish_row kw_data result r w = (result_row kw_data result t1 t2, r, w')
    /\ consecutive_readings t1 t2.
Proof.
  unfold finish_row.
  destruct (time_time w) as [t1 wa] eqn:H1.
  destruct (time_time wa) as [t2 wb] eqn:H2.
  exists t1, t2, wb. split; [reflexivity|].
  exists w, wa, wb. split; assumption.
Qed.

(** What [process_single_keyword_optimized] does to the store, and the
    row it returns, by what the lookup and the research gave. *)
Lemma process_single_cases (kw_data : KeywordInput) (r : Researcher) (w : World) :
  let cache_key := get_cache_key r (in_keyword kw_data) "full_research" in
  forall cached r1 w1,
    get_from_cache cache_key r w = (cached, r1, w1) ->
    forall row r' w',
      process_single_keyword_optimized kw_data r w = (row, r', w') ->
      (exists c, cached = Some c /\ py_bool c = true
                 /\ cache r' = cache r
                 /\ exists t1 t2, row = result_row kw_data c t1 t2
                                  /\ consecutive_readings t1 t2)
      \/ (cache_miss cached
          /\ exists e w2,
               research_keyword (in_keyword kw_data) (snd (time_time w1)) = (inl e, w2)
               /\ cache r' = cache r /\ row = error_result kw_data e)
      \/ (cache_miss cached
          /\ exists result w2,
               research_keyword (in_keyword kw_data) (snd (time_time w1)) = (inr result, w2)
               /\ (let saved_at := snd (time_time w2) in
                   match json_dumps result,
                         add_hours (fst (time_time saved_at)) (cache_ttl_hours r) with
                   | Some text, Some expires_at =>
                       if fst (db_write (snd (time_time saved_at)))
                       then cache r' = <[cache_key := (text, expires_at)]> (cache r)
                       else cache r' = cache r
                   | _, _ => cache r' = cache r
                   end)
               /\ exists t1 t2, row = result_row kw_data result t1 t2
                                /\ consecutive_readings t1 t2).
Proof.
  intros cache_key cached r1 w1 Hget row r' w' Hrun.
  unfold process_single_keyword_optimized in Hrun. fold cache_key in Hrun.
  rewrite Hget in Hrun.
  pose proof (get_from_cache_settings (V := ResearchResult) cache_key r w) as Httl.
  rewrite Hget in Httl. cbn [fst snd] in Httl.
  apply get_from_cache_found in Hget as (Hcache & _ & _).
  assert (Hmiss : research_and_cache kw_data cache_key r1 w1 = (row, r', w') ->
    (exists e w2,
        research_keyword (in_keyword kw_data) (snd (time_time w1)) = (inl e, w2)
        /\ cache r' = cache r /\ row = error_result kw_data e)
    \/ (exists result w2,
           research_keyword (in_keyword kw_data) (snd (time_time w1)) = (inr result, w2)
           /\ (let saved_at := snd (time_time w2) in
               match json_dumps result,
                     add_hours (fst (time_time saved_at)) (cache_ttl_hours r) with
               | Some text, Some expires_at =>
                   if fst (db_write (snd (time_time saved_at)))
                   then cache r' = <[cache_key := (text, expires_at)]> (cache r)
                   else cache r' = cache r
               | _, _ => cache r' = cache r
               end)
           /\ exists t1 t2, row = result_row kw_data result t1 t2
                            /\ consecutive_readings t1 t2)).
  { unfold research_and_cache. destruct (time_time w1) as [t0 wa]. cbn [snd].
    destruct (research_keyword (in_keyword kw_data) wa) as [[e|result] w2].
    - intros Heq. inversion Heq; subst. left. exists e, w'. auto.
    - destruct (time_time w2) as [t3 wb] eqn:Hread. cbn [snd].
      unfold save_to_cache. destruct (time_time wb) as [now wc] eqn:Hnow.
      rewrite Httl.
      intros Heq. right. exists result, w2. split; [reflexivity|].
      cbv zeta. rewrite Hread. cbn [snd]. rewrite Hnow. cbn [fst snd].
      destruct (add_hours now (cache_ttl_hours r)) as [expires_at|].
      + destruct (db_write wc) as [written wd]. cbn [fst].
        destruct (json_dumps result) as [text|]; [destruct written|].
        * destruct (finish_row_spec kw_data result
                      (with_cache (<[cache_key:=(text, expires_at)]> (cache r1)) r1) wd)
            as (t1 & t2 & we & Hfin & Hcons).
          rewrite Hfin in Heq. inversion Heq; subst. cbn [cache with_cache].
          split; [rewrite Hcache; reflexivity|].
          exists t1, t2. split; [reflexivity|assumption].
        * destruct (finish_row_spec kw_data result r1 wd)
            as (t1 & t2 & we & Hfin & Hcons).
          rewrite Hfin in Heq. inversion Heq; subst.
          split; [assumption|]. exists t1, t2. split; [reflexivity|assumption].
        * destruct (finish_row_spec kw_data result r1 wd)
            as (t1 & t2 & we & Hfin & Hcons).
          rewrite Hfin in Heq. inversion Heq; subst.
          split; [assumption|]. exists t1, t2. split; [reflexivity|assumption].
      + destruct (finish_row_spec kw_data result r1 wc)
          as (t1 & t2 & we & Hfin & Hcons).
        rewrite Hfin in Heq. inversion Heq; subst.
        split; [destruct (json_dumps result); assumption|].
        exists t1, t2. split; [reflexivity|assumption]. }
  destruct cached as [c|].
  - destruct (py_bool c) eqn:Hb.
    + left. exists c. split; [reflexivity|]. split; [assumption|].
      destruct (finish_row_spec kw_data c r1 w1) as (t1 & t2 & wd & Hfin & Hcons).
      rewrite Hfin in Hrun. inversion Hrun; subst.
      split; [assumption|]. exists t1, t2. split; [reflexivity|assumption].
    + destruct (Hmiss Hrun) as [Hraise|Hret]; [right; left|right; right];
        (split; [exact Hb|assumption]).
  - destruct (Hmiss Hrun) as [Hraise|Hret]; [right; left|right; right];
      (split; [exact I|assumption]).
Qed.

End SingleFacts.

Section SingleClaims.
Context {World : Type} `{External World} `{Json ResearchResult}.

(** C8, as the code has it.  When the lookup for a keyword misses,
    whether [process_single_keyword_optimized] stores the result that
    [research_keyword] returns does not depend on that result carrying
    an error: the result is stored, to expire [cache_ttl_hours] hours
    after the clock reading of the write, exactly when the write goes
    through, that is when the result can be serialized, the expiry date
    does not overflow and the database takes the row.  Nothing is
    stored when the write fails or when [research_keyword] raises. *)
Theorem process_single_stores_every_result (kw_data : KeywordInput)
    (r r1 r' : Researcher) (w w1 w2 w' : World)
    (cached : option ResearchResult) (out : Exc + ResearchResult) (row : Row) :
  let cache_key := get_cache_key r (in_keyword kw_data) "full_research" in
  get_from_cache cache_key r w = (cached, r1, w1) ->
  cache_miss cached ->
  research_keyword (in_keyword kw_data) (snd (time_time w1)) = (out, w2) ->
  process_single_keyword_optimized kw_data r w = (row, r', w') ->
  match out with
  | inr result =>
      let saved_at := snd (time_time w2) in
      match json_dumps result,
            add_hours (fst (time_time saved_at)) (cache_ttl_hours r) with
      | Some text, Some expires_at =>
          if fst (db_write (snd (time_time saved_at)))
          then cache r' = <[cache_key := (text, expires_at)]> (cache r)
               /\ expires_at
                  = (fst (time_time saved_at) + inject_Z (cache_ttl_hours r * 3600))%Q
          else cache r' = cache r
      | _, _ => cache r' = cache r
      end
  | inl e => cache r' = cache r
  end.
Proof.
  intros cache_key Hget Hmiss Hres Hrun.
  destruct (process_single_cases kw_data r w cached r1 w1 Hget row r' w' Hrun)
    as [(c & Hc & Hb & _)|[(_ & e & w3 & Hres' & Hcache & _)
                          |(_ & result & w3 & Hres' & Hstore & _)]].
  - subst cached. cbn in Hmiss. congruence.
  - rewrite Hres in Hres'. inversion Hres'; subst. assumption.
  - rewrite Hres in Hres'. inversion Hres'; subst. cbv zeta in Hstore |- *.
    fold cache_key in Hstore.
    destruct (json_dumps result) as [text|]; [|assumption].
    destruct (add_hours _ (cache_ttl_hours r)) as [expires_at|] eqn:Hadd; [|assumption].
    destruct (fst (db_write _)); [|assumption].
    split; [assumption|]. apply add_hours_Some in Hadd. exact Hadd.
Qed.

(** C10, as the code has it. A failure row reports a processing time
    of exactly 0.  A success row reports [round(t1 - t2, 2)] for two
    clock readings taken one right after the other once the research
    is over: this is 0 whenever the readings lie at most 5 ms apart,
    it is never positive while the clock does not run backwards, and
    it is not the time the research took. *)
Theorem processing_time_not_measured (kw_data : KeywordInput)
    (r r' : Researcher) (w w' : World) (row : Row) :
  process_single_keyword_optimized kw_data r w = (row, r', w') ->
  (research_successful row = false /\ processing_time_seconds row = 0%Q)
  \/ (research_successful row = true
      /\ exists t1 t2,
           consecutive_readings t1 t2
           /\ processing_time_seconds row = py_round (t1 - t2) 2
           /\ ((- (1 # 200) <= t1 - t2 <= 1 # 200)%Q ->
               (processing_time_seconds row == 0)%Q)
           /\ ((t1 <= t2)%Q -> (processing_time_seconds row <= 0)%Q)).
Proof.
  intros Hrun.
  destruct (get_from_cache (get_cache_key r (in_keyword kw_data) "full_research") r w)
    as [[cached r1] w1] eqn:Hget.
  assert (Hsuccess : forall result t1 t2,
    row = result_row kw_data result t1 t2 -> consecutive_readings t1 t2 ->
    research_successful row = true
    /\ exists t1 t2,
         consecutive_readings t1 t2
         /\ processing_time_seconds row = py_round (t1 - t2) 2
         /\ ((- (1 # 200) <= t1 - t2 <= 1 # 200)%Q ->
             (processing_time_seconds row == 0)%Q)
         /\ ((t1 <= t2)%Q -> (processing_time_seconds row <= 0)%Q)).
  { intros result t1 t2 Hrow Hcons. subst row. split; [reflexivity|].
    exists t1, t2. split; [assumption|]. split; [reflexivity|]. cbn. split.
    - apply py_round_2_zero.
    - intros Hle. apply py_round_2_nonpos. lra. }
  destruct (process_single_cases kw_data r w cached r1 w1 Hget row r' w' Hrun)
    as [(c & _ & _ & _ & t1 & t2 & Hrow & Hcons)
       |[(_ & e & w3 & _ & _ & Hrow)
        |(_ & result & w3 & _ & _ & t1 & t2 & Hrow & Hcons)]].
  - right. eapply Hsuccess; eassumption.
  - left. subst row. split; reflexivity.
  - right. eapply Hsuccess; eassumption.
Qed.

End SingleClaims.

Lemma process_single_stores_every_result_witness :
  cache (snd (fst nodata_run))
  = <["nodata_full_research_user" :=
        (render_result (failed_result "nodata"), (1004 + inject_Z (24 * 3600))%Q)]> ∅
  /\ cache (snd (fst broken_run)) = ∅
  /\ cache (snd (fst locked_run)) = ∅.
Proof.
  split; [|split].
  - pose proof (process_single_stores_every_result (input 1 "nodata")
                  fresh_researcher fresh_researcher (snd (fst nodata_run))
                  (scenario seconds) (scenario (tl seconds))
                  (scenario (tl (tl (tl seconds))))
                  (snd nodata_run) None
                  (inr (failed_result "nodata")) (fst (fst nodata_run))) as Hwit.
    cbv zeta in Hwit.
    destruct Hwit as [Hstore Hexp].
    + vm_compute. reflexivity.
    + exact I.
    + vm_compute. reflexivity.
    + vm_compute. reflexivity.
    + rewrite Hstore. reflexivity.
  - refine (process_single_stores_every_result (input 2 "broken")
              fresh_researcher fresh_researcher (snd (fst broken_run))
              (scenario seconds) (scenario (tl seconds))
              (scenario (tl (tl (tl seconds))))
              (snd broken_run) None
              (inl "TypeError: 'NoneType' object is not subscriptable")
              (fst (fst broken_run)) _ I _ _); vm_compute; reflexivity.
  - refine (process_single_stores_every_result (input 1 "nodata")
              fresh_researcher fresh_researcher (snd (fst locked_run))
              (locked_scenario seconds) (locked_scenario (tl seconds))
              (locked_scenario (tl (tl (tl seconds))))
              (snd locked_run) None
              (inr (failed_result "nodata")) (fst (fst locked_run)) _ I _ _);
      vm_compute; reflexivity.
Defined.

(** C8 as stated fails: a seed keyword without SERP data makes
    [research_keyword] return a result that carries an error, and that
    result is written to the store and read back from it. *)
Lemma failed_result_is_persisted :
  run_result (research_keyword "nodata" (scenario (tl (tl seconds))))
  = Some (failed_result "nodata")
  /\ error (failed_result "nodata") = Some "Failed to get top 10 URLs for the keyword"
  /\ option_map fst (cache (snd (fst nodata_run)) !! "nodata_full_research_user")
     = json_dumps (failed_result "nodata")
  /\ (option_map fst (cache (snd (fst nodata_run)) !! "nodata_full_research_user")
        ≫= json_loads) = Some (failed_result "nodata").
Proof. vm_compute. repeat split. Qed.

Lemma processing_time_not_measured_witness :
  (research_successful (fst (fst slow_run)) = false
   /\ processing_time_seconds (fst (fst slow_run)) = 0%Q)
  \/ (research_successful (fst (fst slow_run)) = true
      /\ exists t1 t2,
           consecutive_readings (World := Scripted) t1 t2
           /\ processing_time_seconds (fst (fst slow_run)) = py_round (t1 - t2) 2
           /\ ((- (1 # 200) <= t1 - t2 <= 1 # 200)%Q ->
               (processing_time_seconds (fst (fst slow_run)) == 0)%Q)
           /\ ((t1 <= t2)%Q -> (processing_time_seconds (fst (fst slow_run)) <= 0)%Q)).
Proof.
  apply (processing_time_not_measured (input 1 "seed") fresh_researcher
           (snd (fst slow_run)) (scenario slow_clock) (snd slow_run)).
  vm_compute. reflexivity.
Defined.

(** C10 as stated fails when the worker thread is held up between the
    two readings of the clock: with 10 ms between them the success row
    reports -0.01 seconds. *)
Lemma processing_time_can_be_negative :
  research_successful (fst (fst slow_run)) = true
  /\ (processing_time_seconds (fst (fst slow_run)) == - (1 # 100))%Q
  /\ ~ (processing_time_seconds (fst (fst slow_run)) == 0)%Q.
Proof. vm_compute. repeat split; discriminate. Qed.

(** ** The batch coordinator *)

Section PoolFacts.
Context {World : Type} `{External World} `{Json ResearchResult}.

Lemma process_single_row_number (kw_data : KeywordInput) (r r' : Researcher)
    (w w' : World) (row : Row) :
  process_single_keyword_optimized kw_data r w = (row, r', w') ->
  row_number row = in_row_number kw_data /\ seed_keyword row = in_keyword kw_data.
Proof.
  intros Hrun.
  destruct (get_from_cache (get_cache_key r (in_keyword kw_data) "full_research") r w)
    as [[cached r1] w1] eqn:Hget.
  destruct (process_single_cases kw_data r w cached r1 w1 Hget row r' w' Hrun)
    as [(c & _ & _ & _ & t1 & t2 & Hrow & _)
       |[(_ & e & w3 & _ & _ & Hrow)
        |(_ & result & w3 & _ & _ & t1 & t2 & Hrow & _)]];
    subst row; split; reflexivity.
Qed.

Lemma process_single_raise (kw_data : KeywordInput) (r r1 : Researcher)
    (w w1 w2 : World) (cached : option ResearchResult) (e : Exc) :
  get_from_cache (get_cache_key r (in_keyword kw_data) "full_research") r w
    = (cached, r1, w1) ->
  cache_miss cached ->
  research_keyword (in_keyword kw_data) (snd (time_time w1)) = (inl e, w2) ->
  fst (fst (process_single_keyword_optimized kw_data r w)) = error_result kw_data e.
Proof.
  intros Hget Hmiss Hres.
  destruct (process_single_keyword_optimized kw_data r w) as [[row r'] w'] eqn:Hrun.
  destruct (process_single_cases kw_data r w cached r1 w1 Hget row r' w' Hrun)
    as [(c & Hc & Hb & _)
       |[(_ & e' & w3 & Hres' & _ & Hrow)
        |(_ & result & w3 & Hres' & _)]].
  - subst cached. cbn in Hmiss. congruence.
  - rewrite Hres in Hres'. inversion Hres'; subst. reflexivity.
  - rewrite Hres in Hres'. discriminate.
Qed.

(** The collecting loop adds one row per completed future, in the
    order of completion; the row is the one the worker returned, or
    the error row for the keyword when the worker raised. *)
Lemma collect_outcomes (worker : Worker) (keywords : list KeywordInput)
    (total_keywords : nat) (order : list nat) :
  forall (results : list Row) (completed : nat) (r : Researcher) (w : World)
         (results' : list Row) (r' : Researcher) (w' : World),
    List.Forall (fun i => (i < length keywords)%nat) order ->
    collect worker keywords total_keywords order results completed r w
      = (results', r', w') ->
    exists new,
      results' = results ++ new
      /\ Forall2 (fun i row => exists kw_data,
                      keywords !! i = Some kw_data /\ outcome_of worker kw_data row)
                 order new.
Proof.
  induction order as [|i rest IH]; intros results completed r w results' r' w' Hin Hrun.
  - cbn in Hrun. inversion Hrun; subst. exists []. split; [|constructor].
    symmetry. apply app_nil_r.
  - inversion Hin as [|? ? Hi Hrest]; subst.
    cbn [collect] in Hrun.
    destruct (keywords !! i) as [kw_data|] eqn:Hkw.
    2: { apply lookup_ge_None in Hkw. lia. }
    destruct (worker kw_data r w) as [[[e|row] r1] w1] eqn:Hwork.
    + apply IH in Hrun as (new & Hres & Hall); [|assumption].
      exists (error_result kw_data e :: new). split.
      * rewrite Hres, <- app_assoc. reflexivity.
      * constructor; [|assumption]. exists kw_data. split; [assumption|].
        right. exists e, r, w, r1, w1. split; [assumption|reflexivity].
    + apply IH in Hrun as (new & Hres & Hall); [|assumption].
      exists (row :: new). split.
      * rewrite Hres, <- app_assoc. reflexivity.
      * constructor; [|assumption]. exists kw_data. split; [assumption|].
        left. exists r, w, r1, w1. assumption.
Qed.

Lemma pool_worker_outcome (kw_data : KeywordInput) (row : Row) :
  outcome_of pool_worker kw_data row ->
  row_number row = in_row_number kw_data /\ seed_keyword row = in_keyword kw_data.
Proof.
  unfold pool_worker.
  intros [(r & w & r' & w' & Hrun)|(e & r & w & r' & w' & Hrun & Hrow)].
  - destruct (process_single_keyword_optimized kw_data r w) as [[row0 r0] w0] eqn:Hsingle.
    inversion Hrun; subst. eapply process_single_row_number. eassumption.
  - subst row. split; reflexivity.
Qed.

End PoolFacts.

Lemma map_lookup_seq {A B} (f : option A -> B) (l : list A) :
  map (fun i => f (l !! i)) (seq 0 (length l)) = map (fun a => f (Some a)) l.
Proof.
  induction l as [|a l IH]; [reflexivity|].
  cbn [length seq map]. f_equal.
  rewrite <- seq_shift, map_map. exact IH.
Qed.

Section PoolClaims.
Context {World : Type} `{External World} `{Json ResearchResult}.

Lemma traceable_row_numbers (keywords : list KeywordInput) (order : list nat)
    (results : list Row) :
  Forall2 (traceable keywords) order results ->
  map row_number results
  = map (fun i => match keywords !! i with
                  | Some kw_data => in_row_number kw_data
                  | None => 0%nat
                  end) order.
Proof.
  induction 1 as [|i row order results (kw_data & Hkw & Hrow & _) Hrest IH];
    [reflexivity|].
  cbn [map]. rewrite Hkw, Hrow, IH. reflexivity.
Qed.

(** The loop over the futures, cut in two. *)
Lemma collect_pool_app (keywords : list KeywordInput) (total_keywords : nat)
    (done rest : list nat) :
  forall (results : list Row) (completed : nat) (r : Researcher) (w : World),
    List.Forall (fun i => (i < length keywords)%nat) done ->
    collect pool_worker keywords total_keywords (done ++ rest) results completed r w
    = let '(results1, r1, w1) :=
        collect pool_worker keywords total_keywords done results completed r w in
      collect pool_worker keywords total_keywords rest results1
        (completed + length done) r1 w1.
Proof.
  induction done as [|i done IH]; intros results completed r w Hin.
  - cbn. rewrite Nat.add_0_r. reflexivity.
  - inversion Hin as [|? ? Hi Hdone]; subst.
    cbn [app collect length].
    destruct (keywords !! i) as [kw_data|] eqn:Hkw.
    2: { apply lookup_ge_None in Hkw. lia. }
    destruct (pool_worker kw_data r w) as [[[e|row] r1] w1] eqn:Hwork.
    { unfold pool_worker in Hwork.
      destruct (process_single_keyword_optimized kw_data r w) as [[row0 r0] w0].
      discriminate. }
    rewrite IH by assumption.
    replace (S completed + length done)%nat with (completed + S (length done))%nat by lia.
    reflexivity.
Qed.

Lemma collect_pool_length (keywords : list KeywordInput) (total_keywords : nat)
    (order : list nat) :
  forall (results : list Row) (completed : nat) (r : Researcher) (w : World),
    List.Forall (fun i => (i < length keywords)%nat) order ->
    exists new,
      fst (fst (collect pool_worker keywords total_keywords order results completed r w))
      = results ++ new
      /\ length new = length order.
Proof.
  intros results completed r w Hin.
  destruct (collect pool_worker keywords total_keywords order results completed r w)
    as [[results' r'] w'] eqn:Hrun.
  apply collect_outcomes in Hrun as (new & Hnew & Hall); [|assumption].
  exists new. split; [assumption|]. symmetry. exact (Forall2_length _ _ _ Hall).
Qed.

(** The row at place [j] of the output is the one the worker returns in
    the state reached when the [j] futures before it are done. *)
Lemma collect_pool_nth (keywords : list KeywordInput) (total_keywords : nat)
    (order : list nat) (r : Researcher) (w : World) (j i : nat)
    (kw_data : KeywordInput) :
  List.Forall (fun i => (i < length keywords)%nat) order ->
  order !! j = Some i ->
  keywords !! i = Some kw_data ->
  let '(_, r_j, w_j) :=
    collect pool_worker keywords total_keywords (firstn j order) [] 0 r w in
  fst (fst (collect pool_worker keywords total_keywords order [] 0 r w)) !! j
  = Some (fst (fst (process_single_keyword_optimized kw_data r_j w_j))).
Proof.
  intros Hin Hj Hkw.
  assert (Hsplit : order = firstn j order ++ i :: skipn (S j) order).
  { rewrite <- (take_drop_middle order j i Hj) at 1. reflexivity. }
  assert (Hin1 : List.Forall (fun i => (i < length keywords)%nat) (firstn j order)).
  { rewrite List.Forall_forall in *. intros x Hx. apply Hin.
    rewrite <- (firstn_skipn j order). apply in_or_app. left. exact Hx. }
  assert (Hin2 : List.Forall (fun i => (i < length keywords)%nat) (skipn (S j) order)).
  { rewrite List.Forall_forall in *. intros x Hx. apply Hin.
    rewrite <- (firstn_skipn (S j) order). apply in_or_app. right. exact Hx. }
  assert (Hlen1 : length (firstn j order) = j).
  { rewrite length_firstn. apply lookup_lt_Some in Hj. lia. }
  revert Hsplit Hin1 Hin2 Hlen1.
  generalize (firstn j order) as done. generalize (skipn (S j) order) as rest.
  intros rest done Hsplit Hin1 Hin2 Hlen1. subst order.
  destruct (collect_pool_length keywords total_keywords done [] 0 r w Hin1)
    as (rows_j & Hrows & Hlen).
  rewrite (collect_pool_app _ _ _ _ _ _ _ _ Hin1).
  destruct (collect pool_worker keywords total_keywords done [] 0 r w)
    as [[results1 r_j] w_j].
  cbn [fst app] in Hrows. subst results1.
  cbn [collect]. rewrite Hkw.
  destruct (pool_worker kw_data r_j w_j) as [[[e|row] r1] w1] eqn:Hwork;
    unfold pool_worker in Hwork;
    destruct (process_single_keyword_optimized kw_data r_j w_j) as [[row0 r0] w0];
    inversion Hwork; subst row0 r0 w0; clear Hwork.
  cbn [fst].
  match goal with
  | |- fst (fst (collect _ _ _ _ ?rs ?c ?r0 ?w0)) !! j = _ =>
      destruct (collect_pool_length keywords total_keywords rest
                  rs c r0 w0 Hin2) as (new & Hnew & _); rewrite Hnew
  end.
  rewrite <- app_assoc. cbn [app].
  rewrite lookup_app_r by lia.
  replace (j - length rows_j)%nat with 0%nat by lia. reflexivity.
Qed.

(** C3, as the code has it.  Provided [max_workers] is positive, so
    that the pool can be created, for the [K] keywords that are
    submitted (the input after the optional truncation) and any order
    in which the workers finish, [process_keywords_parallel] returns,
    and returns exactly [K] rows.  The row at each place carries the
    row number and the keyword of the input whose future completed at
    that place, so that the row numbers of the output are those of the
    input, and it is the row that [process_single_keyword_optimized]
    yields for that keyword in the state the run has reached by then;
    when the research of that keyword raises there, the row is the
    failure row with the exception's message, and the other places are
    filled all the same. *)
Theorem process_keywords_parallel_outcomes (keywords : list KeywordInput)
    (max_keywords : option Z) (order : list nat) (r : Researcher) (w : World) :
  let submitted_keywords := submitted keywords max_keywords in
  (0 < max_workers r)%Z ->
  Permutation order (seq 0 (length submitted_keywords)) ->
  exists results r' w',
    process_keywords_parallel keywords max_keywords order r w = (inr results, r', w')
    /\ length results = length submitted_keywords
    /\ Forall2 (traceable submitted_keywords) order results
    /\ Permutation (map row_number results) (map in_row_number submitted_keywords)
    /\ forall j i kw_data,
         order !! j = Some i ->
         submitted_keywords !! i = Some kw_data ->
         let '(r_j, w_j) := state_after submitted_keywords (firstn j order) r w in
         results !! j
         = Some (fst (fst (process_single_keyword_optimized kw_data r_j w_j)))
         /\ forall cached r1 w1 e w2,
              get_from_cache (get_cache_key r_j (in_keyword kw_data) "full_research")
                r_j w_j = (cached, r1, w1) ->
              cache_miss cached ->
              research_keyword (in_keyword kw_data) (snd (time_time w1)) = (inl e, w2) ->
              results !! j = Some (error_result kw_data e)
              /\ research_successful (error_result kw_data e) = false
              /\ error_message (error_result kw_data e) = Some e.
Proof.
  intros submitted_keywords Hworkers Hperm.
  assert (Hin : List.Forall (fun i => (i < length submitted_keywords)%nat) order).
  { rewrite List.Forall_forall. intros i Hi.
    apply (Permutation_in _ Hperm), in_seq in Hi. lia. }
  unfold process_keywords_parallel, process_keywords_with, state_after.
  fold submitted_keywords.
  destruct (time_time w) as [t0 w0].
  replace (max_workers (with_times (Some t0) (end_time r) r) <=? 0)%Z with false
    by (symmetry; apply Z.leb_gt; exact Hworkers).
  set (r0 := with_times (Some t0) (end_time r) r).
  pose proof (fun j i kw_data =>
                collect_pool_nth submitted_keywords (length submitted_keywords)
                  order r0 w0 j i kw_data Hin) as Hnth.
  destruct (collect pool_worker submitted_keywords (length submitted_keywords)
              order [] 0 r0 w0)
    as [[collected r1] w1] eqn:Hcollect.
  destruct (time_time w1) as [t1 w2].
  exists collected, (with_times (start_time r1) (Some t1) r1), w2.
  split; [reflexivity|].
  apply collect_outcomes in Hcollect as (new & Hnew & Hall); [|assumption].
  cbn [app] in Hnew. subst new.
  assert (Htrace : Forall2 (traceable submitted_keywords) order collected).
  { eapply Forall2_impl; [exact Hall|].
    intros i row (kw_data & Hkw & Hout). exists kw_data. split; [assumption|].
    apply pool_worker_outcome. assumption. }
  split; [|split; [assumption|split]].
  - rewrite <- (Forall2_length _ _ _ Htrace), (Permutation_length Hperm).
    apply length_seq.
  - rewrite (traceable_row_numbers _ _ _ Htrace).
    rewrite (Permutation_map _ Hperm).
    rewrite (map_lookup_seq (fun o => match o with
                                      | Some kw_data => in_row_number kw_data
                                      | None => 0%nat
                                      end) submitted_keywords).
    reflexivity.
  - intros j i kw_data Hj Hkw. specialize (Hnth j i kw_data Hj Hkw).
    destruct (collect pool_worker submitted_keywords (length submitted_keywords)
                (firstn j order) [] 0 r0 w0) as [[rows_j r_j] w_j].
    cbn [fst] in Hnth. split; [exact Hnth|].
    intros cached ra wa e wb Hget Hmiss Hres.
    rewrite Hnth, (process_single_raise kw_data r_j ra w_j wa wb cached e Hget Hmiss Hres).
    repeat split.
Qed.

End PoolClaims.

Example batch_run_rows :
  map (fun row => (row_number row, research_successful row, supporting_keywords_found row))
      batch_rows
  = [(3, true, 0); (1, true, 1); (2, false, 0)]%nat
  /\ map error_message batch_rows
     = [None; None; Some "TypeError: 'NoneType' object is not subscriptable"].
Proof. vm_compute. split; reflexivity. Qed.

Lemma process_keywords_parallel_outcomes_witness :
  exists results r' w',
    batch_run = (inr results, r', w')
    /\ length results = length (submitted batch_inputs (Some 3%Z))
    /\ Permutation (map row_number results)
                   (map in_row_number (submitted batch_inputs (Some 3%Z)))
    /\ (let '(r_j, w_j) :=
          state_after (submitted batch_inputs (Some 3%Z)) (firstn 2 [2; 0; 1]%nat)
            fresh_researcher (scenario []) in
        results !! 2%nat
        = Some (fst (fst (process_single_keyword_optimized (input 2 "broken") r_j w_j))))
    /\ results !! 2%nat
       = Some (error_result (input 2 "broken")
                 "TypeError: 'NoneType' object is not subscriptable").
Proof.
  destruct (process_keywords_parallel_outcomes (World := Scripted)
              batch_inputs (Some 3%Z) [2; 0; 1]%nat fresh_researcher (scenario []))
    as (results & r' & w' & Hrun & Hlen & _ & Hperm & Hrows).
  - reflexivity.
  - apply (bool_decide_unpack _). vm_compute. exact I.
  - exists results, r', w'. split; [exact Hrun|]. split; [exact Hlen|].
    split; [exact Hperm|].
    specialize (Hrows 2%nat 1%nat (input 2 "broken") eq_refl eq_refl).
    destruct (state_after (submitted batch_inputs (Some 3%Z)) (firstn 2 [2; 0; 1]%nat)
                fresh_researcher (scenario [])) as [r_j w_j] eqn:Hstate.
    destruct Hrows as [Hrow Hraise]. split; [exact Hrow|].
    assert (Hr : r_j = fst (state_after (submitted batch_inputs (Some 3%Z))
                              (firstn 2 [2; 0; 1]%nat) fresh_researcher (scenario [])))
      by (rewrite Hstate; reflexivity).
    assert (Hw : w_j = snd (state_after (submitted batch_inputs (Some 3%Z))
                              (firstn 2 [2; 0; 1]%nat) fresh_researcher (scenario [])))
      by (rewrite Hstate; reflexivity).
    refine (proj1 (Hraise None (with_cache_hits (cache_hits r_j) r_j)
                     (snd (time_time w_j))
                     "TypeError: 'NoneType' object is not subscriptable"
                     (snd (time_time (snd (time_time w_j)))) _ I _));
      subst r_j w_j; vm_compute; reflexivity.
Defined.

(** C3 as stated fails for a researcher configured with no worker:
    the pool cannot be created, the call raises and no row is
    returned, whatever the keywords. *)
Lemma process_keywords_parallel_needs_workers :
  fst (fst (process_keywords_parallel batch_inputs None [0; 1; 2; 3]%nat
              unstaffed_researcher (scenario [])))
  = inl "max_workers must be greater than 0"
  /\ length (returned_rows
               (fst (fst (process_keywords_parallel batch_inputs None [0; 1; 2; 3]%nat
                            unstaffed_researcher (scenario [])))))
     <> length (submitted batch_inputs None).
Proof. vm_compute. split; [reflexivity|discriminate]. Qed.

(** ** The rate limiter under concurrent callers *)

Section RateLimiter.
Context {World : Type} `{External World}.
Hypothesis clock_forward : forall w : World,
  (fst (time_time w) <= fst (time_time (snd (time_time w))))%Q.
Hypothesis sleep_lasts : forall (d : Q) (w : World),
  (0 < d)%Q ->
  (fst (time_time w) + d <= fst (time_time (time_sleep d (snd (time_time w)))))%Q.




End RateLimiter.


(** * Further properties of the code *)

(** ** The URL normalizer, continued *)

Lemma lower_char_idem (a : ascii) : PyStr.lower_char (PyStr.lower_char a) = PyStr.lower_char a.
Proof. destruct a as [[] [] [] [] [] [] [] []]; reflexivity. Qed.

Lemma lower_char_slash (a : ascii) : Ascii.eqb (PyStr.lower_char a) "/" = Ascii.eqb a "/".
Proof. destruct a as [[] [] [] [] [] [] [] []]; reflexivity. Qed.

Lemma lower_char_question (a : ascii) : Ascii.eqb (PyStr.lower_char a) "?" = Ascii.eqb a "?".
Proof. destruct a as [[] [] [] [] [] [] [] []]; reflexivity. Qed.

Lemma lower_char_hash (a : ascii) : Ascii.eqb (PyStr.lower_char a) "#" = Ascii.eqb a "#".
Proof. destruct a as [[] [] [] [] [] [] [] []]; reflexivity. Qed.

Lemma lower_idem (s : string) : PyStr.lower (PyStr.lower s) = PyStr.lower s.
Proof. induction s as [|a s IH]; cbn; [reflexivity|]. rewrite lower_char_idem, IH. reflexivity. Qed.

Lemma truthy_lower (s : string) : PyStr.truthy (PyStr.lower s) = PyStr.truthy s.
Proof. destruct s; reflexivity. Qed.

Section LowerCommutes.
Variable c : ascii.
Hypothesis lower_char_c : forall a, Ascii.eqb (PyStr.lower_char a) c = Ascii.eqb a c.

Lemma contains_lower (s : string) : PyStr.contains c (PyStr.lower s) = PyStr.contains c s.
Proof.
  induction s as [|a s IH]; cbn; [reflexivity|].
  rewrite lower_char_c, IH. reflexivity.
Qed.

Lemma split_head_lower (s : string) :
  PyStr.split_head c (PyStr.lower s) = PyStr.lower (PyStr.split_head c s).
Proof.
  induction s as [|a s IH]; cbn; [reflexivity|].
  rewrite lower_char_c. destruct (Ascii.eqb a c); cbn; [reflexivity|].
  rewrite IH. reflexivity.
Qed.

Lemma rstrip_lower (s : string) :
  PyStr.rstrip c (PyStr.lower s) = PyStr.lower (PyStr.rstrip c s).
Proof.
  induction s as [|a s IH]; cbn; [reflexivity|].
  rewrite IH, lower_char_c.
  destruct (PyStr.rstrip c s) as [|b t]; cbn; [|reflexivity].
  destruct (Ascii.eqb a c); reflexivity.
Qed.

End LowerCommutes.

Lemma contains_split_head_same (c : ascii) (s : string) :
  PyStr.contains c (PyStr.split_head c s) = false.
Proof.
  induction s as [|a s IH]; cbn; [reflexivity|].
  destruct (Ascii.eqb a c) eqn:E; cbn; [reflexivity|]. rewrite E. assumption.
Qed.

Lemma contains_split_head_other (c d : ascii) (s : string) :
  PyStr.contains c s = false -> PyStr.contains c (PyStr.split_head d s) = false.
Proof.
  induction s as [|a s IH]; cbn; [reflexivity|].
  destruct (Ascii.eqb a c) eqn:E; [discriminate|]. intros Hs.
  destruct (Ascii.eqb a d); cbn; [reflexivity|]. rewrite E. auto.
Qed.

Lemma contains_rstrip (c d : ascii) (s : string) :
  PyStr.contains c s = false -> PyStr.contains c (PyStr.rstrip d s) = false.
Proof.
  induction s as [|a s IH]; cbn; [reflexivity|].
  destruct (Ascii.eqb a c) eqn:E; [discriminate|]. intros Hs.
  specialize (IH Hs).
  destruct (PyStr.rstrip d s) as [|b t].
  - destruct (Ascii.eqb a d); cbn; [reflexivity|]. rewrite E. reflexivity.
  - cbn [PyStr.contains]. rewrite E. exact IH.
Qed.

Lemma rstrip_idem (c : ascii) (s : string) :
  PyStr.rstrip c (PyStr.rstrip c s) = PyStr.rstrip c s.
Proof.
  induction s as [|a s IH]; cbn; [reflexivity|].
  destruct (PyStr.rstrip c s) as [|b t] eqn:Hr.
  - destruct (Ascii.eqb a c) eqn:E; cbn; [reflexivity|]. rewrite E. reflexivity.
  - cbn [PyStr.rstrip]. cbn [PyStr.rstrip] in IH. rewrite IH. reflexivity.
Qed.


Lemma normalize_url_eq (url : string) :
  normalize_url url = PyStr.lower (cut_query (PyStr.rstrip "/" url)).
Proof. destruct url; reflexivity. Qed.

Lemma cut_query_lower (s : string) : cut_query (PyStr.lower s) = PyStr.lower (cut_query s).
Proof.
  unfold cut_query.
  rewrite (contains_lower "?" lower_char_question).
  destruct (PyStr.contains "?" s).
  - rewrite (split_head_lower "?" lower_char_question).
    rewrite (contains_lower "#" lower_char_hash).
    destruct (PyStr.contains "#" (PyStr.split_head "?" s)); [|reflexivity].
    apply (split_head_lower "#" lower_char_hash).
  - rewrite (contains_lower "#" lower_char_hash).
    destruct (PyStr.contains "#" s); [|reflexivity].
    apply (split_head_lower "#" lower_char_hash).
Qed.

Lemma cut_query_clean (s : string) :
  PyStr.contains "?" (cut_query s) = false /\ PyStr.contains "#" (cut_query s) = false.
Proof.
  unfold cut_query.
  assert (Hq : PyStr.contains "?"
                 (if PyStr.contains "?" s then PyStr.split_head "?" s else s) = false).
  { destruct (PyStr.contains "?" s) eqn:E; [apply contains_split_head_same|assumption]. }
  destruct (PyStr.contains "#" (if PyStr.contains "?" s then PyStr.split_head "?" s else s)) eqn:Eh.
  - split; [apply contains_split_head_other; assumption|apply contains_split_head_same].
  - split; assumption.
Qed.

Lemma cut_query_plain (s : string) :
  PyStr.contains "?" s = false -> PyStr.contains "#" s = false -> cut_query s = s.
Proof. unfold cut_query. intros Hq Hh. rewrite Hq, Hh. reflexivity. Qed.

(** X1. Whatever the input, the normalized URL contains neither a [?]
    nor a [#]: the query string and the fragment are gone. *)
Theorem normalize_url_drops_query (url : string) :
  PyStr.contains "?" (normalize_url url) = false
  /\ PyStr.contains "#" (normalize_url url) = false.
Proof.
  rewrite normalize_url_eq.
  rewrite (contains_lower "?" lower_char_question), (contains_lower "#" lower_char_hash).
  apply cut_query_clean.
Qed.

(** X2. The normalized URL is in lower case, and URLs that differ only
    in the case of their letters have the same normal form. *)
Theorem normalize_url_ignores_case (url : string) :
  PyStr.lower (normalize_url url) = normalize_url url
  /\ normalize_url (PyStr.lower url) = normalize_url url.
Proof.
  rewrite !normalize_url_eq. split; [apply lower_idem|].
  rewrite (rstrip_lower "/" lower_char_slash), cut_query_lower. apply lower_idem.
Qed.

(** X3. On a URL without query string and fragment a second pass of
    [normalize_url] changes nothing. *)
Theorem normalize_url_idempotent_plain (url : string) :
  PyStr.contains "?" url = false ->
  PyStr.contains "#" url = false ->
  normalize_url (normalize_url url) = normalize_url url.
Proof.
  intros Hq Hh.
  assert (Hq' : PyStr.contains "?" (PyStr.rstrip "/" url) = false)
    by (apply contains_rstrip; assumption).
  assert (Hh' : PyStr.contains "#" (PyStr.rstrip "/" url) = false)
    by (apply contains_rstrip; assumption).
  rewrite (normalize_url_eq url), (cut_query_plain _ Hq' Hh').
  rewrite normalize_url_eq.
  rewrite (rstrip_lower "/" lower_char_slash), rstrip_idem, cut_query_lower.
  rewrite (cut_query_plain _ Hq' Hh'). apply lower_idem.
Qed.

Lemma normalize_url_idempotent_plain_witness :
  normalize_url (normalize_url "HTTP://Example.com/Path//")
  = normalize_url "HTTP://Example.com/Path//".
Proof. apply normalize_url_idempotent_plain; reflexivity. Defined.

(** ** The overlap scorer, continued *)

Lemma url_set_In (u : string) (urls : list string) :
  u ∈ url_set urls <-> exists x, In x urls /\ normalize_url x = u.
Proof.
  unfold url_set. rewrite elem_of_list_to_set, list_elem_of_In, in_map_iff.
  split; intros (x & H1 & H2); exists x; tauto.
Qed.

Lemma url_set_same_elements (a a' : list string) :
  (forall u, In u a <-> In u a') -> url_set a = url_set a'.
Proof.
  intros Hsame. apply set_eq. intros u. rewrite !url_set_In.
  split; intros (x & Hx & Hu); exists x; split; try assumption; apply Hsame; assumption.
Qed.

Lemma is_empty_same_elements {A} (a a' : list A) :
  (forall u, In u a <-> In u a') -> is_empty a = is_empty a'.
Proof.
  intros Hsame. destruct a as [|x a], a' as [|y a']; try reflexivity.
  - destruct (proj2 (Hsame y) (or_introl eq_refl)).
  - destruct (proj1 (Hsame x) (or_introl eq_refl)).
Qed.

(** X4. The overlap depends on which URLs the two lists hold, not on
    their order nor on repetitions. *)
Theorem calculate_url_overlap_same_elements (a a' b b' : list string) :
  (forall u, In u a <-> In u a') ->
  (forall u, In u b <-> In u b') ->
  calculate_url_overlap a b = calculate_url_overlap a' b'.
Proof.
  intros Ha Hb. unfold calculate_url_overlap.
  rewrite (is_empty_same_elements a a' Ha), (is_empty_same_elements b b' Hb).
  rewrite (url_set_same_elements a a' Ha), (url_set_same_elements b b' Hb).
  reflexivity.
Qed.

Lemma calculate_url_overlap_same_elements_witness :
  calculate_url_overlap ["http://a"; "http://b"; "http://a"] ["http://b"; "http://c"]
  = calculate_url_overlap ["http://b"; "http://a"] ["http://c"; "http://b"; "http://b"].
Proof.
  apply calculate_url_overlap_same_elements; intros u; cbn; tauto.
Defined.

Lemma percentage_100_iff (n m : nat) :
  (0 < m)%nat -> ((Qnat n / Qnat m * 100 == 100)%Q <-> n = m).
Proof.
  intros Hm. pose proof (Qnat_pos m Hm) as Hm'.
  assert (Hne : ~ (Qnat m == 0)%Q) by (intros Hz; rewrite Hz in Hm'; discriminate).
  split.
  - intros Heq.
    assert (Hnm : (Qnat n == Qnat m)%Q).
    { assert (Hd : (Qnat n / Qnat m == 1)%Q) by lra.
      rewrite <- (Qmult_1_l (Qnat m)), <- Hd. field. assumption. }
    unfold Qnat in Hnm. apply (proj1 (inject_Z_injective _ _)) in Hnm. lia.
  - intros ->. field. assumption.
Qed.

Lemma percentage_0_iff (n m : nat) :
  (0 < m)%nat -> ((Qnat n / Qnat m * 100 == 0)%Q <-> n = 0%nat).
Proof.
  intros Hm. pose proof (Qnat_pos m Hm) as Hm'.
  assert (Hne : ~ (Qnat m == 0)%Q) by (intros Hz; rewrite Hz in Hm'; discriminate).
  split.
  - intros Heq.
    assert (Hn : (Qnat n == 0)%Q).
    { assert (Hd : (Qnat n / Qnat m == 0)%Q) by lra.
      transitivity (Qnat n / Qnat m * Qnat m)%Q; [field; assumption|].
      rewrite Hd. ring. }
    unfold Qnat in Hn. change 0%Q with (inject_Z 0) in Hn.
    apply (proj1 (inject_Z_injective _ _)) in Hn. lia.
  - intros ->. unfold Qnat. cbn. field. assumption.
Qed.

(** X5. For non-empty lists the overlap is 100 exactly when every
    normalized original URL occurs among the normalized candidate URLs,
    and 0 exactly when none does. *)
Theorem calculate_url_overlap_extremes (u : string) (us : list string)
    (c : string) (cs : list string) :
  ((calculate_url_overlap (u :: us) (c :: cs) == 100)%Q
     <-> url_set (u :: us) ⊆ url_set (c :: cs))
  /\ ((calculate_url_overlap (u :: us) (c :: cs) == 0)%Q
        <-> url_set (u :: us) ∩ url_set (c :: cs) = ∅).
Proof.
  rewrite calculate_url_overlap_cons.
  pose proof (url_set_nonempty u us) as Hpos. split.
  - rewrite (percentage_100_iff _ _ Hpos). split.
    + intros Hsize. apply subseteq_intersection_2.
      apply set_subseteq_size_equiv; [apply intersection_subseteq_l|lia].
    + intros Hsub. rewrite (subseteq_intersection_1_L _ _ Hsub). reflexivity.
  - rewrite (percentage_0_iff _ _ Hpos). split.
    + intros Hsize. apply leibniz_equiv, size_empty_inv. assumption.
    + intros ->. apply size_empty.
Qed.

(** ** The SERP client and the pipeline, continued *)

Lemma organic_urls_acc (items : list SerpItem) :
  forall urls,
    organic_urls items urls
    = urls ++ firstn (10 - length urls) (map item_url (List.filter is_organic items)).
Proof.
  induction items as [|item rest IH]; intros urls; cbn [organic_urls List.filter map].
  - rewrite firstn_nil, app_nil_r. reflexivity.
  - fold (is_organic item). destruct (is_organic item) eqn:Ho; cbn [andb map].
    + destruct (length urls <? 10)%nat eqn:Hlen.
      * apply Nat.ltb_lt in Hlen. rewrite IH, length_app. cbn [length].
        replace (10 - length urls)%nat with (S (10 - (length urls + 1)))%nat by lia.
        cbn [firstn]. rewrite <- app_assoc. reflexivity.
      * apply Nat.ltb_ge in Hlen. rewrite IH.
        replace (10 - length urls)%nat with 0%nat by lia. reflexivity.
    + apply IH.
Qed.

Lemma get_keyword_serp_urls_length {World} `{External World} (kw : string)
    (w w' : World) (urls : list string) :
  get_keyword_serp_urls kw w = (inr urls, w') -> (length urls <= 10)%nat.
Proof.
  intros Hrun. unfold get_keyword_serp_urls in Hrun.
  apply bind_inr in Hrun as (serp_data & w1 & _ & Hret).
  destruct serp_data as [items|]; inversion Hret; subst.
  - rewrite organic_urls_acc. cbn [app length]. rewrite length_firstn. lia.
  - cbn. lia.
Qed.

(** X6. The SERP client returns the URLs of the organic items of the
    response, in the order of the response, cut off after the tenth; it
    returns no URL when the request gave no data, and an exception of
    the request leaves it unchanged.  In particular it never returns
    more than 10 URLs. *)
Theorem get_keyword_serp_urls_top_10 {World} `{External World} (kw : string) (w : World) :
  get_keyword_serp_urls kw w
  = match get_serp_data kw w with
    | (inr (Some items), w') =>
        (inr (firstn 10 (map item_url (List.filter is_organic items))), w')
    | (inr None, w') => (inr [], w')
    | (inl e, w') => (inl e, w')
    end
  /\ forall urls w',
       get_keyword_serp_urls kw w = (inr urls, w') -> (length urls <= 10)%nat.
Proof.
  split.
  - unfold get_keyword_serp_urls, bind.
    destruct (get_serp_data kw w) as [[e|[items|]] w']; [reflexivity| |reflexivity].
    unfold ret. rewrite organic_urls_acc. reflexivity.
  - intros urls w'. apply get_keyword_serp_urls_length.
Qed.

Lemma get_keyword_serp_urls_top_10_witness :
  get_keyword_serp_urls "any" (quiet_world []) = (inr ["http://q/0"; "http://q/1"], quiet_world [])
  /\ (length ["http://q/0"; "http://q/1"] <= 10)%nat.
Proof.
  split.
  - rewrite (proj1 (get_keyword_serp_urls_top_10 "any" (quiet_world []))). reflexivity.
  - apply (proj2 (get_keyword_serp_urls_top_10 (World := Scripted) "any" (quiet_world []))
             ["http://q/0"; "http://q/1"] (quiet_world [])).
    reflexivity.
Defined.

Section PipelineFacts.
Context {World : Type} `{External World}.

(** X7. When the SERP of the seed keyword gives no URL, the pipeline
    stops at once: it returns the error result that holds nothing but
    the keyword, and the world is left as the one clock reading and the
    one SERP request left it, so that no ranked-keyword request and no
    pause follows. *)
Theorem research_keyword_no_seed_data (kw : string) (w w1 : World) :
  get_keyword_serp_urls kw (snd (time_time w)) = (inr [], w1) ->
  research_keyword kw w = (inr (failed_result kw), w1).
Proof.
  intros Hserp. unfold research_keyword, bind, clock.
  destruct (time_time w) as [t0 w0]. cbn [snd] in Hserp. rewrite Hserp. reflexivity.
Qed.

(** X8. When the seed has URLs but the harvest over its first three
    URLs brings no record, the pipeline stops after stage 2: the result
    carries the error, keeps the seed URLs and has empty lists, and no
    SERP request is made for any candidate. *)
Theorem research_keyword_no_candidates (kw : string) (w w1 w2 : World)
    (urls : list string) :
  get_keyword_serp_urls kw (snd (time_time w)) = (inr urls, w1) ->
  urls <> [] ->
  harvest (firstn 3 urls) [] w1 = (inr [], w2) ->
  research_keyword kw w
  = (inr (no_candidates_result kw urls (fst (time_time w2) - fst (time_time w))),
     snd (time_time w2)).
Proof.
  intros Hserp Hne Hharvest. unfold research_keyword, bind, clock.
  destruct (time_time w) as [t0 w0]. cbn [fst snd] in *. rewrite Hserp.
  destruct urls as [|u urls]; [contradiction|]. cbn [is_empty].
  rewrite Hharvest. cbn. destruct (time_time w2) as [t1 w3]. reflexivity.
Qed.

End PipelineFacts.

Lemma research_keyword_no_seed_data_witness :
  research_keyword "nodata" (scenario seconds)
  = (inr (failed_result "nodata"), scenario (tl seconds)).
Proof. apply research_keyword_no_seed_data. reflexivity. Defined.

Lemma research_keyword_no_candidates_witness :
  research_keyword "quiet" (quiet_world [5; 9]%Q)
  = (inr (no_candidates_result "quiet" ["http://q/0"; "http://q/1"] (9 - 5)),
     quiet_world []).
Proof.
  refine (research_keyword_no_candidates "quiet" (quiet_world [5; 9]%Q)
            (quiet_world [9%Q]) (quiet_world [9%Q]) ["http://q/0"; "http://q/1"]
            _ _ _).
  - reflexivity.
  - discriminate.
  - reflexivity.
Defined.

Section SelectionFacts.
Context {World : Type} `{External World}.

Lemma select_supporting_from (original : list string) (candidates : list KeywordRecord) :
  forall (acc : list SupportingKeyword) (w w' : World) (found : list SupportingKeyword),
    select_supporting original candidates acc w = (inr found, w') ->
    exists new,
      found = acc ++ new
      /\ map sk_keyword new `sublist_of` map keyword candidates
      /\ List.Forall (fun sk => (exists c, In c candidates /\ reports sk c)
                                /\ top_10_urls sk <> []
                                /\ (length (top_10_urls sk) <= 10)%nat) new.
Proof.
  induction candidates as [|kw_data rest IH]; intros acc w w' found Hrun.
  - cbn in Hrun. inversion Hrun; subst. exists []. rewrite app_nil_r.
    repeat split; constructor.
  - cbn [select_supporting] in Hrun.
    destruct (4 <=? length acc)%nat.
    + inversion Hrun; subst. exists []. rewrite app_nil_r.
      split; [reflexivity|]. split; [apply sublist_nil_l|constructor].
    + apply bind_inr in Hrun as (keyword_urls & w1 & Hserp & Hrun).
      apply bind_inr in Hrun as (u & w2 & _ & Hrun).
      apply IH in Hrun as (new & Hfound & Hsub & Hall).
      assert (Hweaken : List.Forall
                (fun sk => (exists c, In c (kw_data :: rest) /\ reports sk c)
                           /\ top_10_urls sk <> []
                           /\ (length (top_10_urls sk) <= 10)%nat) new).
      { eapply List.Forall_impl; [|exact Hall].
        intros sk ((c & Hc & Hrep) & Hne & Hlen).
        split; [exists c; split; [right; assumption|assumption]|split; assumption]. }
      destruct keyword_urls as [|url urls].
      * cbn in Hfound. exists new. split; [assumption|].
        split; [apply sublist_cons; assumption|assumption].
      * cbn [is_empty negb] in Hfound.
        destruct (Qle_bool 40 (calculate_url_overlap original (url :: urls))).
        -- eexists (_ :: new). split; [rewrite Hfound, <- app_assoc; reflexivity|].
           split; [cbn; apply sublist_skip; assumption|].
           constructor; [|assumption]. cbn. split; [|split].
           ++ exists kw_data. split; [left; reflexivity|repeat split].
           ++ discriminate.
           ++ destruct urls; cbn; [lia|]. rewrite length_firstn. lia.
        -- exists new. split; [assumption|].
           split; [apply sublist_cons; assumption|assumption].
Qed.

Lemma sorted_keywords_NoDup (all_keywords : list KeywordRecord) :
  NoDup (map keyword (sorted_keywords all_keywords)).
Proof.
  unfold sorted_keywords.
  rewrite <- (Permutation_map keyword (py_sorted_perm (dict_values (deduplicate all_keywords)))).
  rewrite (keyed_values _ (deduplicate_keyed all_keywords)), dict_keys_deduplicate.
  apply first_seen_NoDup.
Qed.

(** X9. In a result of a run that reached stage 3 the supporting
    keywords are candidates of stage 2, listed in the order of the
    sorted candidate list and each at most once; each reports the
    volume, CPC and position of its candidate together with between 1
    and 10 URLs of its own SERP.  The result lists the first 20 sorted
    candidates. *)
Theorem supporting_keywords_from_candidates (kw : string) (w w' : World)
    (result : ResearchResult) :
  research_keyword kw w = (inr result, w') ->
  error result = None ->
  exists all_keywords found,
    keywords_from_top_3_urls result = Some (firstn 20 (sorted_keywords all_keywords))
    /\ supporting_keywords result = Some found
    /\ map sk_keyword found `sublist_of` map keyword (sorted_keywords all_keywords)
    /\ List.NoDup (map sk_keyword found)
    /\ List.Forall (fun sk => (exists c, In c (sorted_keywords all_keywords) /\ reports sk c)
                              /\ top_10_urls sk <> []
                              /\ (length (top_10_urls sk) <= 10)%nat) found.
Proof.
  unfold research_keyword. intros Hrun Herr.
  apply bind_inr in Hrun as (t0 & w1 & _ & Hrun).
  apply bind_inr in Hrun as (urls & w2 & _ & Hrun).
  destruct (is_empty urls).
  { inversion Hrun; subst. discriminate. }
  apply bind_inr in Hrun as (all_keywords & w3 & _ & Hrun).
  destruct (length (sorted_keywords all_keywords) =? 0)%nat.
  { apply bind_inr in Hrun as (t1 & w4 & _ & Hrun).
    inversion Hrun; subst. discriminate. }
  apply bind_inr in Hrun as (found & w4 & Hsel & Hrun).
  apply bind_inr in Hrun as (t1 & w5 & _ & Hrun).
  inversion Hrun; subst. cbn.
  apply select_supporting_from in Hsel as (new & Hfound & Hsub & Hall).
  cbn [app] in Hfound. subst new.
  exists all_keywords, found. repeat split; try assumption.
  apply NoDup_ListNoDup.
  exact (sublist_NoDup _ _ (sorted_keywords_NoDup all_keywords) Hsub).
Qed.

(** X10. Whatever result the pipeline returns, the count it reports is
    the length of its list of supporting keywords, it lists at most 20
    candidates, and the seed URLs it lists are between 1 and 10. *)
Theorem research_keyword_result_shape (kw : string) (w w' : World)
    (result : ResearchResult) :
  research_keyword kw w = (inr result, w') ->
  total_supporting_keywords_found result
    = option_map (@length SupportingKeyword) (supporting_keywords result)
  /\ (forall ks, keywords_from_top_3_urls result = Some ks -> (length ks <= 20)%nat)
  /\ (forall urls, original_top_10_urls result = Some urls ->
        urls <> [] /\ (length urls <= 10)%nat)
  /\ input_keyword result = kw.
Proof.
  unfold research_keyword. intros Hrun.
  apply bind_inr in Hrun as (t0 & w1 & _ & Hrun).
  apply bind_inr in Hrun as (urls & w2 & Hserp & Hrun).
  pose proof (get_keyword_serp_urls_length kw _ _ _ Hserp) as Hlen.
  destruct urls as [|u urls]; cbn [is_empty] in Hrun.
  { inversion Hrun; subst. cbn.
    split; [reflexivity|]. split; [discriminate|]. split; [discriminate|reflexivity]. }
  apply bind_inr in Hrun as (all_keywords & w3 & _ & Hrun).
  destruct (length (sorted_keywords all_keywords) =? 0)%nat.
  { apply bind_inr in Hrun as (t1 & w4 & _ & Hrun).
    inversion Hrun; subst. cbn.
    split; [reflexivity|]. split; [|split; [|reflexivity]].
    - intros ks Hks. inversion Hks; subst. cbn. lia.
    - intros urls' Hu. inversion Hu; subst. split; [discriminate|assumption]. }
  apply bind_inr in Hrun as (found & w4 & Hsel & Hrun).
  apply bind_inr in Hrun as (t1 & w5 & _ & Hrun).
  inversion Hrun; subst. cbn.
  split; [reflexivity|]. split; [|split; [|reflexivity]].
  - intros ks Hks. inversion Hks; subst. rewrite length_firstn. lia.
  - intros urls' Hu. inversion Hu; subst. split; [discriminate|assumption].
Qed.

End SelectionFacts.

Lemma supporting_keywords_from_candidates_witness :
  exists all_keywords found,
    keywords_from_top_3_urls scenario_result
      = Some (firstn 20 (sorted_keywords all_keywords))
    /\ supporting_keywords scenario_result = Some found
    /\ map sk_keyword found `sublist_of` map keyword (sorted_keywords all_keywords)
    /\ List.NoDup (map sk_keyword found)
    /\ List.Forall (fun sk => (exists c, In c (sorted_keywords all_keywords) /\ reports sk c)
                              /\ top_10_urls sk <> []
                              /\ (length (top_10_urls sk) <= 10)%nat) found.
Proof.
  apply (supporting_keywords_from_candidates "seed" (scenario [0%Q; 7%Q])
           (scenario []) scenario_result).
  - vm_compute. reflexivity.
  - reflexivity.
Defined.

Lemma research_keyword_result_shape_witness :
  total_supporting_keywords_found scenario_result
    = option_map (@length SupportingKeyword) (supporting_keywords scenario_result)
  /\ (forall ks, keywords_from_top_3_urls scenario_result = Some ks -> (length ks <= 20)%nat)
  /\ (forall urls, original_top_10_urls scenario_result = Some urls ->
        urls <> [] /\ (length urls <= 10)%nat)
  /\ input_keyword scenario_result = "seed".
Proof.
  apply (research_keyword_result_shape "seed" (scenario [0%Q; 7%Q])
           (scenario []) scenario_result).
  vm_compute. reflexivity.
Defined.

(** ** The cache, continued *)

Section CacheMore.
Context {World : Type} `{External World} {V : Type} `{Json V}.

(** X11. [get_from_cache] serves no expired row: when the store has no
    row for the key, or one whose [expires_at] is not after the clock
    reading of the lookup, the answer is [None], no hit is counted and
    the store is untouched. *)
Theorem get_from_cache_unserved (cache_key : string) (r : Researcher) (w : World) :
  unserved cache_key r (fst (time_time w)) ->
  get_from_cache (V := V) cache_key r w = (None, r, snd (time_time w)).
Proof.
  unfold unserved, get_from_cache. destruct (time_time w) as [now w1]. cbn [fst snd].
  destruct (cache r !! cache_key) as [[text expires_at]|]; [|reflexivity].
  intros Hexp. apply Qle_bool_iff in Hexp. rewrite Hexp. reflexivity.
Qed.


(** X13. Writing one key does not disturb the others: after a
    [save_to_cache] a lookup of a different key gives the answer and the
    hit count it would have given before.  A value that cannot be
    serialized is not written at all. *)
Theorem save_to_cache_other_keys (cache_key other : string) (v : V)
    (r : Researcher) (w w2 : World) :
  let r1 := fst (save_to_cache cache_key v r w) in
  (cache_key <> other ->
     fst (fst (get_from_cache (V := V) other r1 w2))
       = fst (fst (get_from_cache (V := V) other r w2))
     /\ cache_hits (snd (fst (get_from_cache (V := V) other r1 w2)))
        = cache_hits (snd (fst (get_from_cache (V := V) other r w2))))
  /\ (json_dumps v = None -> r1 = r).
Proof.
  intros r1. subst r1. split.
  - intros Hne. unfold save_to_cache. destruct (time_time w) as [now w1].
    destruct (add_hours now (cache_ttl_hours r)) as [expires_at|];
      [|split; reflexivity].
    destruct (db_write w1) as [written w3].
    destruct (json_dumps v) as [text|]; [destruct written|]; try (split; reflexivity).
    cbn [fst].
    unfold get_from_cache. destruct (time_time w2) as [now2 w4].
    cbn [cache with_cache]. rewrite (lookup_insert_ne _ _ _ _ Hne).
    destruct (cache r !! other) as [[text' expires_at']|]; [|split; reflexivity].
    destruct (negb (Qle_bool expires_at' now2)); split; reflexivity.
  - intros Hd. apply save_to_cache_failed. left. exact Hd.
Qed.

End CacheMore.

Lemma get_from_cache_unserved_witness :
  get_from_cache (V := list string) "old" stocked_researcher (scenario seconds)
  = (None, stocked_researcher, snd (time_time (scenario seconds))).
Proof.
  apply (get_from_cache_unserved "old" stocked_researcher (scenario seconds)).
  vm_compute. discriminate.
Defined.


Lemma save_to_cache_other_keys_witness :
  let r1 := fst (save_to_cache "old" ["http://c"] stocked_researcher (scenario seconds)) in
  ("old" <> "new" ->
     fst (fst (get_from_cache (V := list string) "new" r1 (scenario seconds)))
       = fst (fst (get_from_cache (V := list string) "new" stocked_researcher
                     (scenario seconds)))
     /\ cache_hits (snd (fst (get_from_cache (V := list string) "new" r1 (scenario seconds))))
        = cache_hits (snd (fst (get_from_cache (V := list string) "new" stocked_researcher
                                  (scenario seconds)))))
  /\ (json_dumps ["http://c"] = None -> r1 = stocked_researcher).
Proof.
  apply (save_to_cache_other_keys "old" "new" ["http://c"] stocked_researcher
           (scenario seconds) (scenario seconds)).
Defined.

Section CacheCleanup.
Context {World : Type} `{External World} {V : Type} `{Json V}.



(** X15. When the lookup misses, [get_cached_or_fetch] runs the rate
    limiter once and then the compute function once, and hands back
    what the compute function returned or raised.  [api_calls] goes up
    by one exactly for a non-empty result; an exception or an empty
    result leaves the counter and the store as they were. *)
Theorem get_cached_or_fetch_miss (cache_key : string) (fetch_func : M World V)
    (r r0 r' : Researcher) (w w0 w' : World) (cached : option V) (out : Exc + V) :
  get_from_cache cache_key r w = (cached, r0, w0) ->
  cache_miss cached ->
  get_cached_or_fetch cache_key fetch_func r w = (out, r', w') ->
  calls r' = calls r ++ [EvRateLimit; EvFetch]
  /\ out = fst (fetch_func (snd (rate_limit r0 w0)))
  /\ match out with
     | inr v =>
         if py_bool v then api_calls r' = S (api_calls r)
         else api_calls r' = api_calls r /\ cache r' = cache r
     | inl _ => api_calls r' = api_calls r /\ cache r' = cache r
     end.
Proof.
  intros Hget Hmiss Hrun.
  assert (Hfs : fetch_and_store cache_key fetch_func r0 w0 = (out, r', w')).
  { unfold get_cached_or_fetch in Hrun. rewrite Hget in Hrun.
    destruct cached as [v|]; [|exact Hrun].
    cbn in Hmiss. rewrite Hmiss in Hrun. exact Hrun. }
  assert (Hr0 : cache r0 = cache r /\ calls r0 = calls r /\ api_calls r0 = api_calls r).
  { unfold get_from_cache in Hget. destruct (time_time w) as [now w1].
    destruct (cache r !! cache_key) as [[text expires_at]|];
      [destruct (negb (Qle_bool expires_at now))|];
      inversion Hget; subst; auto. }
  destruct Hr0 as (Hc0 & Hl0 & Ha0).
  unfold fetch_and_store in Hfs.
  assert (Hrl : cache (fst (rate_limit r0 w0)) = cache r0
                /\ calls (fst (rate_limit r0 w0)) = calls r0 ++ [EvRateLimit]
                /\ api_calls (fst (rate_limit r0 w0)) = api_calls r0).
  { unfold rate_limit. destruct (time_time w0) as [t w1].
    destruct (time_time _) as [t' w2]. auto. }
  destruct Hrl as (Hc1 & Hl1 & Ha1).
  destruct (rate_limit r0 w0) as [r1 w1]. cbn [fst snd] in *.
  destruct (fetch_func w1) as [[e|result] w2]; cbn [fst].
  - inversion Hfs; subst. cbn. rewrite Hl1, Hl0, <- app_assoc.
    split; [reflexivity|]. split; [reflexivity|]. split; congruence.
  - destruct (py_bool result) eqn:Hb.
    + unfold save_to_cache in Hfs. destruct (time_time w2) as [now w3].
      destruct (add_hours now (cache_ttl_hours (record_call EvFetch r1)))
        as [expires_at|];
        [destruct (db_write w3) as [written w4];
         destruct (json_dumps result) as [text|]; [destruct written|]|];
        inversion Hfs; subst;
        cbn; rewrite Hl1, Hl0, <- app_assoc, Hb;
        (split; [reflexivity|]); (split; [reflexivity|]); lia.
    + inversion Hfs; subst. cbn. rewrite Hl1, Hl0, <- app_assoc, Hb.
      split; [reflexivity|]. split; [reflexivity|]. split; congruence.
Qed.

(** X16. [rate_limit] keeps requests apart: provided the clock does not
    run backwards and a sleep of [d] seconds moves it on by at least
    [d], the new [last_request_time] is at least [min_request_interval]
    after the previous one.  When that much time has already passed it
    does not sleep. *)
Theorem rate_limit_spacing (r : Researcher) (w : World) :
  (forall d, (0 < d)%Q ->
     (fst (time_time w) + d <= fst (time_time (time_sleep d (snd (time_time w)))))%Q) ->
  (fst (time_time w) <= fst (time_time (snd (time_time w))))%Q ->
  (last_request_time r + min_request_interval r
     <= last_request_time (fst (rate_limit r w)))%Q
  /\ ((last_request_time r + min_request_interval r <= fst (time_time w))%Q ->
      snd (rate_limit r w) = snd (time_time (snd (time_time w)))).
Proof.
  unfold rate_limit. destruct (time_time w) as [t0 w1]. cbn [fst snd].
  intros Hsleep Hmono.
  destruct (Qle_bool (min_request_interval r) (t0 - last_request_time r)) eqn:Hle;
    cbn [negb].
  - apply Qle_bool_iff in Hle.
    destruct (time_time w1) as [t w2]. cbn in *. split; [lra|reflexivity].
  - assert (Hlt : (t0 - last_request_time r < min_request_interval r)%Q).
    { apply Qnot_le_lt. intros Hc. apply Qle_bool_iff in Hc. congruence. }
    specialize (Hsleep (min_request_interval r - (t0 - last_request_time r))%Q).
    destruct (time_time (time_sleep _ w1)) as [t w2]. cbn in *. split.
    + assert (Hpos : (0 < min_request_interval r - (t0 - last_request_time r))%Q) by lra.
      specialize (Hsleep Hpos). lra.
    + intros Hc. exfalso. lra.
Qed.

End CacheCleanup.


Lemma get_cached_or_fetch_miss_witness :
  calls (snd (fst seed_fetch)) = calls fresh_researcher ++ [EvRateLimit; EvFetch]
  /\ fst (fst seed_fetch)
     = fst (get_keyword_serp_urls "seed"
              (snd (rate_limit fresh_researcher (scenario (tl seconds)))))
  /\ match fst (fst seed_fetch) with
     | inr v =>
         if py_bool v then api_calls (snd (fst seed_fetch)) = S (api_calls fresh_researcher)
         else api_calls (snd (fst seed_fetch)) = api_calls fresh_researcher
              /\ cache (snd (fst seed_fetch)) = cache fresh_researcher
     | inl _ => api_calls (snd (fst seed_fetch)) = api_calls fresh_researcher
                /\ cache (snd (fst seed_fetch)) = cache fresh_researcher
     end.
Proof.
  refine (get_cached_or_fetch_miss "seed_serp_user" (get_keyword_serp_urls "seed")
            fresh_researcher fresh_researcher (snd (fst seed_fetch))
            (scenario seconds) (scenario (tl seconds)) (snd seed_fetch)
            None (fst (fst seed_fetch)) _ I _).
  - vm_compute. reflexivity.
  - vm_compute. reflexivity.
Defined.

Lemma rate_limit_spacing_witness :
  (last_request_time fresh_researcher + min_request_interval fresh_researcher
     <= last_request_time (fst (rate_limit fresh_researcher {| ideal_now := 1 # 20 |})))%Q
  /\ ((last_request_time fresh_researcher + min_request_interval fresh_researcher
         <= fst (time_time {| ideal_now := 1 # 20 |}))%Q ->
      snd (rate_limit fresh_researcher {| ideal_now := 1 # 20 |})
      = snd (time_time (snd (time_time {| ideal_now := 1 # 20 |})))).
Proof.
  apply (rate_limit_spacing fresh_researcher {| ideal_now := 1 # 20 |}).
  - intros d Hd. simpl. apply Qle_refl.
  - simpl. apply Qle_refl.
Defined.

(** ** One keyword of the batch, continued *)

Section SingleMore.
Context {World : Type} `{External World} `{Json ResearchResult}.


(** X18. [research_successful] is false exactly when the lookup missed
    and [research_keyword] raised; whatever [research_keyword] returns,
    also a result that reports an error, gives a row marked successful,
    and a row is marked successful exactly when it carries no error
    message. *)
Theorem research_successful_iff_no_exception (kw_data : KeywordInput)
    (r r1 r' : Researcher) (w w1 w' : World)
    (cached : option ResearchResult) (row : Row) :
  get_from_cache (get_cache_key r (in_keyword kw_data) "full_research") r w
    = (cached, r1, w1) ->
  process_single_keyword_optimized kw_data r w = (row, r', w') ->
  (research_successful row = false
   <-> cache_miss cached
       /\ exists e w2,
            research_keyword (in_keyword kw_data) (snd (time_time w1)) = (inl e, w2))
  /\ (research_successful row = true <-> error_message row = None).
Proof.
  intros Hget Hrun.
  destruct (process_single_cases kw_data r w cached r1 w1 Hget row r' w' Hrun)
    as [(c & Hc & Hb & _ & t1 & t2 & Hrow & _)
       |[(Hmiss & e & w3 & Hres & _ & Hrow)
        |(Hmiss & result & w3 & Hres & _ & t1 & t2 & Hrow & _)]];
    subst row; cbn [research_successful error_message result_row error_result].
  - split; [split|split; reflexivity].
    + discriminate.
    + intros [Hmiss _]. subst cached. cbn in Hmiss. congruence.
  - split; [split|split; discriminate].
    + intros _. split; [assumption|]. exists e, w3. assumption.
    + reflexivity.
  - split; [split|split; reflexivity].
    + discriminate.
    + intros [_ (e & w4 & Hres')]. rewrite Hres in Hres'. discriminate.
Qed.

Lemma process_single_settings (kw_data : KeywordInput) (r : Researcher) (w : World) :
  let r' := snd (fst (process_single_keyword_optimized kw_data r w)) in
  username r' = username r /\ cache_ttl_hours r' = cache_ttl_hours r
  /\ api_calls r' = api_calls r /\ calls r' = calls r
  /\ last_request_time r' = last_request_time r
  /\ start_time r' = start_time r /\ end_time r' = end_time r
  /\ (cache_hits r <= cache_hits r' <= cache_hits r + 1)%nat.
Proof.
  unfold process_single_keyword_optimized, get_from_cache, research_and_cache,
    save_to_cache, finish_row.
  destruct (time_time w) as [now w1].
  destruct (cache r !! _) as [[text expires_at]|];
    [destruct (negb (Qle_bool expires_at now)); [destruct (json_loads text) as [c|];
       [destruct (py_bool c)|]|]|];
    repeat match goal with
           | |- context [time_time ?x] => destruct (time_time x) as [? ?]
           | |- context [research_keyword ?k ?x] =>
               destruct (research_keyword k x) as [[?|?] ?]
           | |- context [add_hours ?t ?h] => destruct (add_hours t h)
           | |- context [db_write ?x] => destruct (db_write x) as [[|] ?]
           | |- context [json_dumps ?x] => destruct (json_dumps x)
           end;
    cbn; repeat split; lia.
Qed.

Lemma process_single_failed_row (kw_data : KeywordInput) (r : Researcher) (w : World) :
  let row := fst (fst (process_single_keyword_optimized kw_data r w)) in
  research_successful row = false ->
  supporting_keywords_found row = 0%nat /\ exists e, error_message row = Some e.
Proof.
  destruct (process_single_keyword_optimized kw_data r w) as [[row r'] w'] eqn:Hrun.
  destruct (get_from_cache (get_cache_key r (in_keyword kw_data) "full_research") r w)
    as [[cached r1] w1] eqn:Hget.
  destruct (process_single_cases kw_data r w cached r1 w1 Hget row r' w' Hrun)
    as [(c & _ & _ & _ & t1 & t2 & Hrow & _)
       |[(_ & e & w3 & _ & _ & Hrow)
        |(_ & result & w3 & _ & _ & t1 & t2 & Hrow & _)]];
    cbn [fst]; subst row; cbn; intros Hf; try discriminate.
  split; [reflexivity|]. exists e. reflexivity.
Qed.

End SingleMore.


Lemma research_successful_iff_no_exception_witness :
  (research_successful (fst (fst broken_run)) = false
   <-> cache_miss (V := ResearchResult) None
       /\ exists e w2,
            research_keyword "broken" (snd (time_time (scenario (tl seconds)))) = (inl e, w2))
  /\ (research_successful (fst (fst broken_run)) = true
      <-> error_message (fst (fst broken_run)) = None).
Proof.
  refine (research_successful_iff_no_exception (input 2 "broken")
            fresh_researcher fresh_researcher (snd (fst broken_run))
            (scenario seconds) (scenario (tl seconds)) (snd broken_run)
            None (fst (fst broken_run)) _ _).
  - vm_compute. reflexivity.
  - vm_compute. reflexivity.
Defined.

(** ** The batch coordinator, continued *)

Lemma py_slice_to_prefix {A} (n : Z) (l : list A) : py_slice_to n l `prefix_of` l.
Proof.
  unfold py_slice_to. destruct (0 <=? n)%Z; eexists; symmetry; apply firstn_skipn.
Qed.

(** X19. The keywords submitted to the pool are a prefix of the input:
    all of it when [max_keywords] is absent or 0, the first [n] (or
    all, if there are fewer) for a positive [n], and all but the last
    [-n] for a negative one. *)
Theorem submitted_prefix (keywords : list KeywordInput) (max_keywords : option Z) :
  submitted keywords max_keywords `prefix_of` keywords
  /\ (max_keywords = None \/ max_keywords = Some 0%Z ->
      submitted keywords max_keywords = keywords)
  /\ (forall n, max_keywords = Some n -> (0 < n)%Z ->
        length (submitted keywords max_keywords)
        = Nat.min (Z.to_nat n) (length keywords))
  /\ (forall n, max_keywords = Some n -> (n < 0)%Z ->
        length (submitted keywords max_keywords)
        = (length keywords - Z.to_nat (- n))%nat).
Proof.
  split; [|split; [|split]].
  - unfold submitted. destruct max_keywords as [n|]; [|reflexivity].
    destruct (n =? 0)%Z; [reflexivity|apply py_slice_to_prefix].
  - intros [->| ->]; reflexivity.
  - intros n -> Hn. unfold submitted, py_slice_to.
    destruct (Z.eqb_spec n 0); [lia|]. destruct (Z.leb_spec 0 n); [|lia].
    apply length_firstn.
  - intros n -> Hn. unfold submitted, py_slice_to.
    destruct (Z.eqb_spec n 0); [lia|]. destruct (Z.leb_spec 0 n); [lia|].
    rewrite length_firstn. lia.
Qed.

Section PoolMore.
Context {World : Type} `{External World} `{Json ResearchResult}.

(** What the collecting loop over the pool's futures keeps and adds. *)
Lemma collect_pool (keywords : list KeywordInput) (total_keywords : nat)
    (order : list nat) :
  forall (results : list Row) (completed : nat) (r : Researcher) (w : World),
    let out := collect pool_worker keywords total_keywords order results completed r w in
    let r' := snd (fst out) in
    api_calls r' = api_calls r /\ calls r' = calls r
    /\ last_request_time r' = last_request_time r
    /\ start_time r' = start_time r /\ end_time r' = end_time r
    /\ exists new,
         fst (fst out) = results ++ new
         /\ (cache_hits r <= cache_hits r' <= cache_hits r + length new)%nat
         /\ List.Forall (fun row => research_successful row = false ->
                           supporting_keywords_found row = 0%nat
                           /\ exists e, error_message row = Some e) new.
Proof.
  induction order as [|i rest IH]; intros results completed r w; cbn [collect].
  - cbn. repeat split. exists []. rewrite app_nil_r. cbn.
    split; [reflexivity|]. split; [lia|constructor].
  - destruct (keywords !! i) as [kw_data|]; [|apply IH].
    pose proof (process_single_settings kw_data r w) as Hset.
    pose proof (process_single_failed_row kw_data r w) as Hrow.
    cbv zeta in Hset, Hrow |- *.
    destruct (pool_worker kw_data r w) as [[[e|row] r1] w1] eqn:Hwork;
      unfold pool_worker in Hwork;
      destruct (process_single_keyword_optimized kw_data r w) as [[row0 r0] w0];
      inversion Hwork; subst row0 r0 w0; clear Hwork.
    cbn [fst snd] in Hset, Hrow.
    destruct Hset as (_ & _ & Ha & Hc & Hl & Hs & He & Hh).
    match goal with
    | |- context [collect _ _ _ rest ?rs ?c r1 ?x] =>
        specialize (IH rs c r1 x); cbv zeta in IH;
        destruct (collect pool_worker keywords total_keywords rest rs c r1 x)
          as [[results' r'] w']
    end.
    cbn [fst snd] in *.
    destruct IH as (Ha' & Hc' & Hl' & Hs' & He' & new & Hnew & Hh' & Hall).
    repeat (split; [congruence|]).
    exists (row :: new). split; [rewrite Hnew, <- app_assoc; reflexivity|].
    split; [cbn [length]; lia|]. constructor; assumption.
Qed.

Lemma process_keywords_parallel_frame (keywords : list KeywordInput)
    (max_keywords : option Z) (order : list nat)
    (r r' : Researcher) (w w' : World) (results : list Row) :
  process_keywords_parallel keywords max_keywords order r w = (inr results, r', w') ->
  api_calls r' = api_calls r
  /\ calls r' = calls r
  /\ last_request_time r' = last_request_time r
  /\ start_time r' = Some (fst (time_time w))
  /\ (exists t, end_time r' = Some t)
  /\ (cache_hits r <= cache_hits r' <= cache_hits r + length results)%nat
  /\ List.Forall (fun row => research_successful row = false ->
                     supporting_keywords_found row = 0%nat
                     /\ exists e, error_message row = Some e) results.
Proof.
  unfold process_keywords_parallel, process_keywords_with.
  destruct (time_time w) as [t0 w0]. cbn [fst].
  destruct (max_workers _ <=? 0)%Z; [discriminate|].
  pose proof (collect_pool (submitted keywords max_keywords)
                (length (submitted keywords max_keywords)) order [] 0
                (with_times (Some t0) (end_time r) r) w0) as Hcol.
  destruct (collect pool_worker _ _ order [] 0 _ w0) as [[collected r1] w1].
  cbn [fst snd] in Hcol.
  destruct Hcol as (Ha & Hc & Hl & Hs & _ & new & Hnew & Hh & Hall).
  cbn [app] in Hnew. subst new.
  destruct (time_time w1) as [t1 w2]. intros Hrun. inversion Hrun; subst. cbn in *.
  repeat (split; [congruence|]). split; [exists t1; reflexivity|]. split; [lia|assumption].
Qed.

(** X20. A batch run never goes through the rate limiter and never
    counts an API call: [process_keywords_parallel] leaves [api_calls],
    [last_request_time] and the record of rate-limited fetches as they
    were, for any order of completion.  It sets [start_time] to the
    clock reading taken before the first keyword is submitted and
    [end_time] to a reading, and counts at most one cache hit per row. *)
Theorem process_keywords_parallel_counters (keywords : list KeywordInput)
    (max_keywords : option Z) (order : list nat)
    (r r' : Researcher) (w w' : World) (results : list Row) :
  process_keywords_parallel keywords max_keywords order r w = (inr results, r', w') ->
  api_calls r' = api_calls r
  /\ calls r' = calls r
  /\ last_request_time r' = last_request_time r
  /\ start_time r' = Some (fst (time_time w))
  /\ (exists t, end_time r' = Some t)
  /\ (cache_hits r <= cache_hits r' <= cache_hits r + length results)%nat.
Proof.
  intros Hrun.
  destruct (process_keywords_parallel_frame _ _ _ _ _ _ _ _ Hrun)
    as (Ha & Hc & Hl & Hs & He & Hh & _).
  auto 10.
Qed.

Lemma sum_nat_acc (l : list nat) (a : nat) : fold_left Nat.add l a = (a + sum_nat l)%nat.
Proof.
  unfold sum_nat. revert a. induction l as [|x l IH]; intros a; cbn [fold_left].
  - lia.
  - rewrite (IH (a + x)%nat), (IH (0 + x)%nat). lia.
Qed.

Lemma sum_nat_cons (x : nat) (l : list nat) : sum_nat (x :: l) = (x + sum_nat l)%nat.
Proof. unfold sum_nat at 1. cbn [fold_left]. rewrite sum_nat_acc. lia. Qed.

Lemma partition_lengths (results : list Row) :
  (length (successful_results results) + length (failed_results results))%nat
  = length results.
Proof.
  unfold successful_results, failed_results.
  induction results as [|row results IH]; [reflexivity|].
  cbn [List.filter]. destruct (research_successful row); cbn [negb length]; lia.
Qed.

Lemma py_round_compat (x y : Q) (n : nat) : (x == y)%Q -> py_round x n = py_round y n.
Proof.
  intros Hxy. unfold py_round, round_half_even.
  assert (Hs : (x * inject_Z (10 ^ Z.of_nat n) == y * inject_Z (10 ^ Z.of_nat n))%Q)
    by (rewrite Hxy; reflexivity).
  rewrite (Qfloor_comp _ _ Hs).
  assert (Hc : Qcompare (x * inject_Z (10 ^ Z.of_nat n)
                         - inject_Z (Qfloor (y * inject_Z (10 ^ Z.of_nat n)))) (1 # 2)
               = Qcompare (y * inject_Z (10 ^ Z.of_nat n)
                           - inject_Z (Qfloor (y * inject_Z (10 ^ Z.of_nat n)))) (1 # 2)).
  { apply Qcompare_comp; [rewrite Hs; reflexivity|reflexivity]. }
  rewrite Hc. reflexivity.
Qed.

(** X21. The summary written after a batch run: computing it does not
    fail, the successful and the failed rows add up to the rows
    returned, each failed keyword is listed with its error message, the
    supporting keywords counted over the successful rows are the total
    that [main] prints over all rows, and, the counters starting from
    zero API calls as [__init__] leaves them, the reported cache hit
    rate is 100 when any row came from the cache and 0 otherwise. *)
Theorem summary_report_after_batch (keywords : list KeywordInput)
    (max_keywords : option Z) (order : list nat)
    (r r' : Researcher) (w w' : World) (results : list Row) :
  process_keywords_parallel keywords max_keywords order r w = (inr results, r', w') ->
  exists summary,
    summary_report results r' = inr summary
    /\ (successful_researches summary + failed_researches summary)%nat = length results
    /\ total_keywords_processed summary = length results
    /\ List.Forall (fun entry => exists e, snd entry = Some e) (failed_keywords summary)
    /\ all_supporting_keywords_found summary = printed_total_supporting results
    /\ (api_calls r = 0%nat ->
        (reported_cache_hit_rate summary
         == if (cache_hits r' =? 0)%nat then 0 else 100)%Q).
Proof.
  intros Hrun.
  destruct (process_keywords_parallel_frame _ _ _ _ _ _ _ _ Hrun)
    as (Ha & _ & _ & Hs & (t1 & He) & _ & Hall).
  unfold summary_report.
  assert (Htot : exists total, total_time r' = inr total).
  { unfold total_time. rewrite He, Hs. destruct (Qeq_bool t1 0); eexists; reflexivity. }
  destruct Htot as [total Htot]. rewrite Htot.
  eexists. split; [reflexivity|]. cbn.
  split; [apply partition_lengths|]. split; [reflexivity|]. split; [|split].
  - clear - Hall. unfold failed_results. induction Hall as [|row rows Hrow _ IH]; [constructor|].
    cbn [List.filter]. destruct (research_successful row) eqn:Hb; cbn [negb map]; [exact IH|].
    constructor; [|exact IH]. cbn. apply Hrow. reflexivity.
  - clear - Hall. unfold printed_total_supporting, successful_results.
    induction Hall as [|row rows Hrow _ IH]; [reflexivity|].
    cbn [List.filter map]. rewrite sum_nat_cons.
    destruct (research_successful row) eqn:Hb.
    + cbn [map]. rewrite sum_nat_cons, IH. reflexivity.
    + rewrite IH. destruct (Hrow eq_refl) as [-> _]. reflexivity.
  - intros Hzero. unfold cache_hit_rate. rewrite Ha, Hzero. cbn [Nat.add].
    destruct (Nat.eqb_spec (cache_hits r') 0) as [->|Hne].
    + rewrite (py_round_compat _ 0 2); reflexivity.
    + rewrite (py_round_compat _ 100 2); [reflexivity|].
      replace (Nat.max (cache_hits r') 1) with (cache_hits r') by lia.
      apply percentage_full. lia.
Qed.

End PoolMore.

Lemma submitted_prefix_witness :
  submitted batch_inputs (Some (-1)%Z) `prefix_of` batch_inputs
  /\ (Some (-1)%Z = None \/ Some (-1)%Z = Some 0%Z ->
      submitted batch_inputs (Some (-1)%Z) = batch_inputs)
  /\ (forall n, Some (-1)%Z = Some n -> (0 < n)%Z ->
        length (submitted batch_inputs (Some (-1)%Z))
        = Nat.min (Z.to_nat n) (length batch_inputs))
  /\ (forall n, Some (-1)%Z = Some n -> (n < 0)%Z ->
        length (submitted batch_inputs (Some (-1)%Z))
        = (length batch_inputs - Z.to_nat (- n))%nat).
Proof.
  apply (submitted_prefix batch_inputs (Some (-1)%Z)).
Defined.

Lemma process_keywords_parallel_counters_witness :
  api_calls (snd (fst batch_run)) = api_calls fresh_researcher
  /\ calls (snd (fst batch_run)) = calls fresh_researcher
  /\ last_request_time (snd (fst batch_run)) = last_request_time fresh_researcher
  /\ start_time (snd (fst batch_run)) = Some (fst (time_time (scenario [])))
  /\ (exists t, end_time (snd (fst batch_run)) = Some t)
  /\ (cache_hits fresh_researcher <= cache_hits (snd (fst batch_run))
      <= cache_hits fresh_researcher + length batch_rows)%nat.
Proof.
  apply (process_keywords_parallel_counters (World := Scripted)
           batch_inputs (Some 3%Z) [2; 0; 1]%nat fresh_researcher
           (snd (fst batch_run)) (scenario []) (snd batch_run) batch_rows).
  vm_compute. reflexivity.
Defined.

Lemma summary_report_after_batch_witness :
  exists summary,
    summary_report batch_rows (snd (fst batch_run)) = inr summary
    /\ (successful_researches summary + failed_researches summary)%nat
       = length batch_rows
    /\ total_keywords_processed summary = length batch_rows
    /\ List.Forall (fun entry => exists e, snd entry = Some e) (failed_keywords summary)
    /\ all_supporting_keywords_found summary = printed_total_supporting batch_rows
    /\ (api_calls fresh_researcher = 0%nat ->
        (reported_cache_hit_rate summary
         == if (cache_hits (snd (fst batch_run)) =? 0)%nat then 0 else 100)%Q).
Proof.
  apply (summary_report_after_batch (World := Scripted)
           batch_inputs (Some 3%Z) [2; 0; 1]%nat fresh_researcher
           (snd (fst batch_run)) (scenario []) (snd batch_run) batch_rows).
  vm_compute. reflexivity.
Defined.

(** ** The pipeline over answers that do not change *)

Section Steady.
Context {World : Type} `{External World}.
Variable Inv : World -> Prop.
Variable serp : string -> option (list SerpItem).
Variable ranked : string -> list KeywordRecord.
Hypothesis serp_steady : forall kw w, Inv w ->
  fst (get_serp_data kw w) = inr (serp kw) /\ Inv (snd (get_serp_data kw w)).
Hypothesis ranked_steady : forall url w, Inv w ->
  fst (get_ranked_keywords url w) = inr (ranked url)
  /\ Inv (snd (get_ranked_keywords url w)).
Hypothesis sleep_steady : forall d w, Inv w -> Inv (time_sleep d w).
Hypothesis clock_steady : forall w, Inv w -> Inv (snd (time_time w)).

Lemma get_keyword_serp_urls_steady (kw : string) (w : World) :
  Inv w ->
  exists w', get_keyword_serp_urls kw w = (inr (serp_urls serp kw), w') /\ Inv w'.
Proof.
  intros Hw. unfold get_keyword_serp_urls, bind, serp_urls.
  destruct (serp_steady kw w Hw) as [Hans Hinv].
  destruct (get_serp_data kw w) as [answer w1]. cbn [fst snd] in *. subst answer.
  exists w1. destruct (serp kw); split; auto.
Qed.

Lemma harvest_steady (urls : list string) :
  forall (all_keywords : list KeywordRecord) (w : World),
    Inv w ->
    exists w', harvest urls all_keywords w
               = (inr (all_keywords ++ flat_map ranked urls), w') /\ Inv w'.
Proof.
  induction urls as [|url rest IH]; intros all_keywords w Hw; cbn [harvest flat_map].
  - exists w. rewrite app_nil_r. split; [reflexivity|assumption].
  - unfold bind at 1. destruct (ranked_steady url w Hw) as [Hans Hinv].
    destruct (get_ranked_keywords url w) as [answer w1]. cbn [fst snd] in *. subst answer.
    unfold bind at 1, sleep at 1.
    destruct (IH (all_keywords ++ ranked url) (time_sleep 1 w1)
                (sleep_steady _ _ Hinv)) as (w' & Hrun & Hw').
    exists w'. rewrite Hrun, <- app_assoc. split; [reflexivity|assumption].
Qed.

Lemma select_supporting_steady (original : list string) (candidates : list KeywordRecord) :
  forall (found : list SupportingKeyword) (w : World),
    Inv w -> (length found <= 4)%nat ->
    exists w', select_supporting original candidates found w
               = (inr (firstn 4 (found ++ omap (judge serp original) candidates)), w')
               /\ Inv w'.
Proof.
  induction candidates as [|kw_data rest IH]; intros found w Hw Hlen;
    cbn [select_supporting].
  - exists w. cbn [omap list_omap]. rewrite app_nil_r, firstn_all2 by lia.
    split; [reflexivity|assumption].
  - destruct (Nat.leb_spec 4 (length found)) as [Hfull|Hroom].
    + exists w. split; [|assumption]. unfold ret. f_equal. f_equal.
      rewrite firstn_app. replace (4 - length found)%nat with 0%nat by lia.
      rewrite firstn_all2 by lia. cbn. symmetry. apply app_nil_r.
    + unfold bind at 1.
      destruct (get_keyword_serp_urls_steady (keyword kw_data) w Hw) as (w1 & Hurls & Hw1).
      rewrite Hurls. unfold bind at 1, sleep at 1.
      change (omap (judge serp original) (kw_data :: rest))
        with (match judge serp original kw_data with
              | Some sk => sk :: omap (judge serp original) rest
              | None => omap (judge serp original) rest
              end).
      set (others := omap (judge serp original) rest) in *.
      unfold judge.
      destruct (is_empty (serp_urls serp (keyword kw_data))); cbn [negb].
      * apply IH; [apply sleep_steady; assumption|assumption].
      * destruct (Qle_bool 40 _).
        -- match goal with
           | |- context [select_supporting _ _ (found ++ [?sk]) _] =>
               destruct (IH (found ++ [sk]) (time_sleep 1 w1)
                           (sleep_steady _ _ Hw1)) as (w' & Hrun & Hw');
                 [rewrite length_app; cbn; lia|]
           end.
           exists w'. rewrite Hrun, <- app_assoc. split; [reflexivity|assumption].
        -- apply IH; [apply sleep_steady; assumption|assumption].
Qed.

(** X22. When the two lookups answer the same way throughout a run and
    never fail, [research_keyword] returns, and its result is a function
    of those answers: the candidates are the sorted, deduplicated
    keywords of the first three seed URLs, and the supporting keywords
    are the first four candidates, in that order, whose own SERP is not
    empty and shares at least 40 percent with the seed's. *)
Theorem research_keyword_steady (kw : string) (w : World) :
  Inv w ->
  let urls := serp_urls serp kw in
  let candidates := sorted_keywords (flat_map ranked (firstn 3 urls)) in
  exists result w',
    research_keyword kw w = (inr result, w') /\ Inv w'
    /\ input_keyword result = kw
    /\ match urls, candidates with
       | [], _ =>
           error result = Some "Failed to get top 10 URLs for the keyword"
           /\ supporting_keywords result = None
       | _ :: _, [] =>
           error result = Some "No ranking keywords found from DataForSEO Labs API"
           /\ original_top_10_urls result = Some urls
           /\ supporting_keywords result = Some []
       | _ :: _, _ :: _ =>
           error result = None
           /\ original_top_10_urls result = Some urls
           /\ keywords_from_top_3_urls result = Some (firstn 20 candidates)
           /\ supporting_keywords result
              = Some (firstn 4 (omap (judge serp urls) candidates))
       end.
Proof.
  intros Hw urls candidates. unfold research_keyword.
  unfold bind at 1, clock at 1.
  pose proof (clock_steady w Hw) as Hw0.
  destruct (time_time w) as [start_time w0]. cbn [snd] in Hw0.
  unfold bind at 1.
  destruct (get_keyword_serp_urls_steady kw w0 Hw0) as (w1 & Hurls & Hw1).
  rewrite Hurls. fold urls.
  destruct urls as [|u us] eqn:Hu; cbn [is_empty].
  - eexists _, w1. split; [reflexivity|]. split; [assumption|].
    cbn. auto.
  - unfold bind at 1.
    destruct (harvest_steady (firstn 3 (u :: us)) [] w1 Hw1) as (w2 & Hharvest & Hw2).
    rewrite Hharvest. cbn [app]. fold candidates.
    destruct candidates as [|c cs] eqn:Hc; cbn [length Nat.eqb].
    + unfold bind at 1, clock at 1.
      pose proof (clock_steady w2 Hw2) as Hw3.
      destruct (time_time w2) as [now w3]. cbn [snd] in Hw3.
      eexists _, w3. split; [reflexivity|]. split; [assumption|]. cbn. auto.
    + unfold bind at 1.
      destruct (select_supporting_steady (u :: us) (c :: cs) [] w2 Hw2) as (w3 & Hsel & Hw3);
        [cbn; lia|].
      rewrite Hsel. cbn [app].
      unfold bind at 1, clock at 1.
      pose proof (clock_steady w3 Hw3) as Hw4.
      destruct (time_time w3) as [now w4]. cbn [snd] in Hw4.
      eexists _, w4. split; [reflexivity|]. split; [assumption|]. cbn. auto.
Qed.

End Steady.

Lemma research_keyword_steady_witness :
  exists result w',
    research_keyword "seed" (steady_world [0; 7]%Q) = (inr result, w') /\ steady w'
    /\ input_keyword result = "seed"
    /\ error result = None
    /\ original_top_10_urls result = Some seed_urls
    /\ keywords_from_top_3_urls result
       = Some [mk_kw "a" 3 100 1; mk_kw "b" 1 50 5]
    /\ option_map (map sk_keyword) (supporting_keywords result) = Some ["a"].
Proof.
  destruct (research_keyword_steady steady steady_serp steady_ranked) with
    (kw := "seed"%string) (w := steady_world [0; 7]%Q)
    as (result & w' & Hrun & Hw' & Hkw & Herr & Hurls & Hcands & Hsup).
  - intros kw w [Hs Hr]. simpl. rewrite Hs. split; [reflexivity|split; assumption].
  - intros url w [Hs Hr]. simpl. rewrite Hr. split; [reflexivity|split; assumption].
  - intros d w Hw. exact Hw.
  - intros w [Hs Hr]. simpl. unfold scripted_time.
    destruct (sc_clock w); split; assumption.
  - split; reflexivity.
  - exists result, w'. rewrite Hsup.
    repeat (split; [assumption|]). reflexivity.
Defined.

(** ** Reading the keywords *)

Example read_keywords_from_csv_sample :
  map (fun e => (entry_row_number e, entry_keyword e))
      (read_keywords_from_csv (inr sample_rows))
  = [(1%nat, "seo tips"); (3%nat, "guitar")]
  /\ read_keywords_from_csv (inr (sample_rows ++ [short_row])) = [].
Proof. vm_compute. split; reflexivity. Qed.

Lemma rstrip_keep (a : ascii) (s : string) :
  is_space a = false -> rstrip (String a s) = String a (rstrip s).
Proof.
  intros Ha. cbn [rstrip]. destruct (rstrip s); [rewrite Ha|]; reflexivity.
Qed.

Lemma rstrip_space_idem (s : string) : rstrip (rstrip s) = rstrip s.
Proof.
  induction s as [|a s IH]; cbn [rstrip]; [reflexivity|].
  destruct (rstrip s) as [|b t] eqn:Hr.
  - destruct (is_space a) eqn:E; cbn [rstrip]; [reflexivity|]. rewrite E. reflexivity.
  - cbn [rstrip]. cbn [rstrip] in IH. rewrite IH. reflexivity.
Qed.

Lemma lstrip_head (s : string) :
  lstrip s = EmptyString
  \/ exists a t, lstrip s = String a t /\ is_space a = false.
Proof.
  induction s as [|a s IH]; cbn [lstrip]; [left; reflexivity|].
  destruct (is_space a) eqn:E; [exact IH|].
  right. exists a, s. split; [reflexivity|assumption].
Qed.

Lemma strip_idem (s : string) : strip (strip s) = strip s.
Proof.
  unfold strip. destruct (lstrip_head s) as [->|(a & t & -> & Ha)]; [reflexivity|].
  rewrite (rstrip_keep a t Ha). cbn [lstrip]. rewrite Ha.
  rewrite (rstrip_keep a _ Ha), rstrip_space_idem. reflexivity.
Qed.

Lemma find_keyword_found (cols : list string) (row : CsvRow) (kw : string) :
  find_keyword cols row = inr (Some kw) ->
  PyStr.truthy kw = true /\ strip kw = kw
  /\ exists col value,
       In col cols /\ row_get col row = Some (Some value) /\ kw = strip value.
Proof.
  induction cols as [|col rest IH]; cbn [find_keyword]; [discriminate|].
  assert (Hrest : find_keyword rest row = inr (Some kw) ->
            PyStr.truthy kw = true /\ strip kw = kw
            /\ exists col' value,
                 In col' (col :: rest) /\ row_get col' row = Some (Some value)
                 /\ kw = strip value).
  { intros Hf. destruct (IH Hf) as (Ht & Hs & col' & value & Hin & Hget & Hkw).
    split; [assumption|]. split; [assumption|].
    exists col', value. split; [right; assumption|]. split; assumption. }
  destruct (row_get col row) as [[value|]|] eqn:Hget; [|discriminate|exact Hrest].
  destruct (PyStr.truthy (strip value)) eqn:Ht; [|exact Hrest].
  intros Hf. inversion Hf; subst kw. split; [assumption|]. split; [apply strip_idem|].
  exists col, value. split; [left; reflexivity|]. split; [assumption|reflexivity].
Qed.

(** What the loop over the rows appends, for rows numbered from [n]. *)
Lemma read_rows_spec (rows : list CsvRow) :
  forall (n : nat) (keywords out : list KeywordEntry),
    read_rows rows n keywords = inr out ->
    exists new,
      out = keywords ++ new
      /\ List.Forall (fun entry =>
           (n <= entry_row_number entry)%nat
           /\ rows !! (entry_row_number entry - n)%nat = Some (entry_original_row entry)
           /\ find_keyword keyword_columns (entry_original_row entry)
              = inr (Some (entry_keyword entry))) new
      /\ StronglySorted lt (map entry_row_number new)
      /\ (forall i row kw,
            rows !! i = Some row ->
            find_keyword keyword_columns row = inr (Some kw) ->
            In {| entry_row_number := n + i; entry_keyword := kw;
                  entry_original_row := row |} new).
Proof.
  induction rows as [|row rest IH]; intros n keywords out; cbn [read_rows].
  - intros Hout. inversion Hout; subst. exists []. rewrite app_nil_r.
    split; [reflexivity|]. split; [constructor|]. split; [constructor|].
    intros i row kw Hi. rewrite lookup_nil in Hi. discriminate.
  - destruct (find_keyword keyword_columns row) as [e|[kw|]] eqn:Hfind; [discriminate| |].
    + intros Hout. apply IH in Hout as (new & Hout & Hall & Hsorted & Hin).
      exists ({| entry_row_number := n; entry_keyword := kw;
                 entry_original_row := row |} :: new).
      split; [rewrite Hout, <- app_assoc; reflexivity|].
      split; [|split].
      * constructor.
        -- cbn [entry_row_number entry_original_row entry_keyword].
           replace (n - n)%nat with 0%nat by lia. split; [lia|]. split; [reflexivity|assumption].
        -- eapply List.Forall_impl; [|exact Hall]. cbn beta.
           intros entry (Hle & Hrow & Hkw). split; [lia|]. split; [|assumption].
           replace (entry_row_number entry - n)%nat
             with (S (entry_row_number entry - S n)) by lia.
           exact Hrow.
      * cbn [map]. constructor; [assumption|].
        rewrite List.Forall_map. eapply List.Forall_impl; [|exact Hall].
        cbn beta. intros entry (Hle & _). cbn [entry_row_number]. lia.
      * intros [|i] row' kw' Hrow' Hkw'.
        -- cbn in Hrow'. inversion Hrow'; subst row'.
           rewrite Hfind in Hkw'. inversion Hkw'; subst kw'.
           left. f_equal. lia.
        -- right. replace (n + S i)%nat with (S n + i)%nat by lia.
           apply Hin; assumption.
    + intros Hout. apply IH in Hout as (new & Hout & Hall & Hsorted & Hin).
      exists new. split; [assumption|]. split; [|split; [assumption|]].
      * eapply List.Forall_impl; [|exact Hall]. cbn beta.
        intros entry (Hle & Hrow & Hkw). split; [lia|]. split; [|assumption].
        replace (entry_row_number entry - n)%nat
          with (S (entry_row_number entry - S n)) by lia.
        exact Hrow.
      * intros [|i] row' kw' Hrow' Hkw'.
        -- cbn in Hrow'. inversion Hrow'; subst row'.
           rewrite Hfind in Hkw'. discriminate.
        -- replace (n + S i)%nat with (S n + i)%nat by lia.
           apply Hin; assumption.
Qed.

Lemma read_rows_raises (rows : list CsvRow) :
  forall (n : nat) (keywords : list KeywordEntry),
    (exists row e, In row rows /\ find_keyword keyword_columns row = inl e) ->
    exists e, read_rows rows n keywords = inl e.
Proof.
  induction rows as [|row rest IH]; intros n keywords (bad & e & Hin & Hbad);
    [destruct Hin|].
  cbn [read_rows].
  destruct (find_keyword keyword_columns row) as [e'|[kw|]] eqn:Hfind.
  - exists e'. reflexivity.
  - destruct Hin as [->|Hin]; [congruence|]. apply IH. exists bad, e. auto.
  - destruct Hin as [->|Hin]; [congruence|]. apply IH. exists bad, e. auto.
Qed.

Lemma read_rows_returns (rows : list CsvRow) :
  forall (n : nat) (keywords : list KeywordEntry),
    (forall row e, In row rows -> find_keyword keyword_columns row <> inl e) ->
    exists out, read_rows rows n keywords = inr out.
Proof.
  induction rows as [|row rest IH]; intros n keywords Hgood; cbn [read_rows].
  - eexists. reflexivity.
  - destruct (find_keyword keyword_columns row) as [e'|[kw|]] eqn:Hfind.
    + exfalso. apply (Hgood row e'); [left; reflexivity|assumption].
    + apply IH. intros row' e Hin. apply Hgood. right. assumption.
    + apply IH. intros row' e Hin. apply Hgood. right. assumption.
Qed.

(** X23. Every entry [read_keywords_from_csv] returns carries a
    non-empty keyword without surrounding white space, taken from one
    of the five keyword columns of its row, and the 1-based position of
    that row among the rows read, so that rows skipped for want of a
    keyword still count; the row numbers come out strictly increasing. *)
Theorem read_keywords_from_csv_entries (file : Exc + list CsvRow) :
  let keywords := read_keywords_from_csv file in
  List.Forall (fun entry =>
      PyStr.truthy (entry_keyword entry) = true
      /\ strip (entry_keyword entry) = entry_keyword entry
      /\ (exists col value,
            In col keyword_columns
            /\ row_get col (entry_original_row entry) = Some (Some value)
            /\ entry_keyword entry = strip value)
      /\ exists rows,
           file = inr rows
           /\ (1 <= entry_row_number entry)%nat
           /\ rows !! (entry_row_number entry - 1)%nat
              = Some (entry_original_row entry)) keywords
  /\ StronglySorted lt (map entry_row_number keywords).
Proof.
  unfold read_keywords_from_csv. destruct file as [e|rows]; cbn zeta.
  - split; constructor.
  - destruct (read_rows rows 1 []) as [e|out] eqn:Hrun; [split; constructor|].
    apply read_rows_spec in Hrun as (new & Hout & Hall & Hsorted & _).
    cbn [app] in Hout. subst new. split; [|assumption].
    eapply List.Forall_impl; [|exact Hall]. cbn beta.
    intros entry (Hle & Hrow & Hkw).
    destruct (find_keyword_found _ _ _ Hkw) as (Ht & Hs & Hcol).
    split; [assumption|]. split; [assumption|]. split; [assumption|].
    exists rows. split; [reflexivity|]. split; assumption.
Qed.

(** X24. [read_keywords_from_csv] is all or nothing.  When the file
    cannot be read, or one row has no value for a keyword column that
    gets looked at (a line shorter than the header), the result is
    empty, whatever the other rows hold.  Otherwise no keyword is lost:
    every row in which a keyword is found is returned with its
    position. *)
Theorem read_keywords_from_csv_all_or_nothing (rows : list CsvRow) :
  (forall e, read_keywords_from_csv (inl e) = [])
  /\ ((exists row e, In row rows /\ find_keyword keyword_columns row = inl e) ->
      read_keywords_from_csv (inr rows) = [])
  /\ ((forall row e, In row rows -> find_keyword keyword_columns row <> inl e) ->
      forall i row kw,
        rows !! i = Some row ->
        find_keyword keyword_columns row = inr (Some kw) ->
        In {| entry_row_number := S i; entry_keyword := kw; entry_original_row := row |}
           (read_keywords_from_csv (inr rows))).
Proof.
  split; [reflexivity|]. unfold read_keywords_from_csv. split.
  - intros Hbad. destruct (read_rows_raises rows 1 [] Hbad) as [e ->]. reflexivity.
  - intros Hgood i row kw Hrow Hkw.
    destruct (read_rows_returns rows 1 [] Hgood) as [out Hrun]. rewrite Hrun.
    apply read_rows_spec in Hrun as (new & Hout & _ & _ & Hin).
    cbn [app] in Hout. subst new. apply (Hin i row kw Hrow Hkw).
Qed.

Lemma read_keywords_from_csv_all_or_nothing_witness :
  read_keywords_from_csv (inr (sample_rows ++ [short_row])) = []
  /\ In {| entry_row_number := 3; entry_keyword := "guitar";
           entry_original_row := [("id", Some "9"); ("keyword", Some "");
                                  ("term", Some "guitar")] |}
        (read_keywords_from_csv (inr sample_rows)).
Proof.
  split.
  - apply (read_keywords_from_csv_all_or_nothing (sample_rows ++ [short_row])).
    exists short_row, "'NoneType' object has no attribute 'strip'".
    split; [vm_compute; tauto|reflexivity].
  - apply (read_keywords_from_csv_all_or_nothing sample_rows).
    + intros row e Hin. vm_compute in Hin.
      destruct Hin as [<-|[<-|[<-|[]]]]; vm_compute; discriminate.
    + reflexivity.
    + reflexivity.
Defined.

(** ** The ranked-keywords client *)

Example ranked_keywords_of_sample :
  ranked_keywords_of (Val sample_items)
  = inr [ {| keyword := "seo tips"; position := 3; search_volume := Some 900%Z;
             cpc := None; competition := Some 0%Q |};
          {| keyword := "seo guide"; position := 10; search_volume := None;
             cpc := None; competition := Some 0%Q |} ]
  /\ ranked_keywords_of Null = inr []
  /\ ranked_keywords_of (Val (sample_items ++ [ranked_item (Val "x") Null Missing]))
     = inl no_comparison.
Proof. vm_compute. repeat split. Qed.

Lemma format_item_kept (item : RankedItem) (record : KeywordRecord) :
  format_item item = inr (Some record) ->
  (1 <= position record <= 10)%Z
  /\ PyStr.truthy (keyword record) = true
  /\ strip (keyword record) = keyword record.
Proof.
  unfold format_item.
  destruct (get_default (keyword_data item) no_keyword_data) as [kd|]; [|discriminate].
  destruct (get_default (data_keyword kd) "") as [text|]; [|discriminate].
  destruct (get_default (ranked_serp_element item) no_ranked_element) as [re|];
    [|discriminate].
  destruct (get_default (serp_item re) no_serp_item) as [si|]; [|discriminate].
  destruct (get_default (rank_group si) 0%Z) as [pos|]; [|discriminate].
  destruct ((1 <=? pos)%Z && (pos <=? 10)%Z && PyStr.truthy (strip text)) eqn:Hc;
    [|discriminate].
  destruct (get_default (data_keyword_info kd) no_keyword_info) as [ki|]; [|discriminate].
  intros Heq. inversion Heq; subst record. cbn.
  apply andb_prop in Hc as [Hc Ht]. apply andb_prop in Hc as [H1 H10].
  split; [lia|]. split; [assumption|apply strip_idem].
Qed.

Lemma format_items_spec (results : list RankedItem) :
  forall keywords,
    (forall item e, In item results -> format_item item <> inl e) ->
    format_items results keywords = inr (keywords ++ omap contribution results).
Proof.
  induction results as [|item rest IH]; intros keywords Hgood;
    cbn [format_items omap list_omap].
  - rewrite app_nil_r. reflexivity.
  - unfold contribution at 1.
    destruct (format_item item) as [e|[record|]] eqn:Hitem.
    + exfalso. apply (Hgood item e); [left; reflexivity|assumption].
    + rewrite IH by (intros i e Hin; apply Hgood; right; assumption).
      rewrite <- app_assoc. reflexivity.
    + apply IH. intros i e Hin. apply Hgood. right. assumption.
Qed.

Lemma format_items_raises (results : list RankedItem) :
  forall keywords,
    (exists item e, In item results /\ format_item item = inl e) ->
    exists e, format_items results keywords = inl e.
Proof.
  induction results as [|item rest IH]; intros keywords (bad & e & Hin & Hbad);
    [destruct Hin|].
  cbn [format_items].
  destruct (format_item item) as [e'|[record|]] eqn:Hitem.
  - exists e'. reflexivity.
  - destruct Hin as [->|Hin]; [congruence|]. apply IH. exists bad, e. auto.
  - destruct Hin as [->|Hin]; [congruence|]. apply IH. exists bad, e. auto.
Qed.

Lemma log_item_quiet (item : RankedItem) :
  (forall e, format_item item <> inl e) -> log_item item = inr tt.
Proof.
  unfold format_item, log_item. intros Hgood.
  destruct (get_default (keyword_data item) no_keyword_data) as [kd|];
    [|exfalso; eapply Hgood; reflexivity].
  destruct (get_default (data_keyword kd) "") as [text|];
    [|exfalso; eapply Hgood; reflexivity].
  destruct (get_default (ranked_serp_element item) no_ranked_element) as [re|];
    [|exfalso; eapply Hgood; reflexivity].
  destruct (get_default (serp_item re) no_serp_item) as [si|];
    [|exfalso; eapply Hgood; reflexivity].
  reflexivity.
Qed.

Lemma log_items_quiet (items : list RankedItem) :
  (forall item e, In item items -> format_item item <> inl e) ->
  log_items items = inr tt.
Proof.
  induction items as [|item rest IH]; intros Hgood; cbn [log_items]; [reflexivity|].
  rewrite log_item_quiet by (intros e; apply Hgood; left; reflexivity).
  apply IH. intros i e Hin. apply Hgood. right. assumption.
Qed.

Lemma omap_contribution_kept (results : list RankedItem) :
  List.Forall (fun record =>
      (1 <= position record <= 10)%Z
      /\ PyStr.truthy (keyword record) = true
      /\ strip (keyword record) = keyword record) (omap contribution results).
Proof.
  induction results as [|item rest IH]; cbn [omap list_omap]; [constructor|].
  unfold contribution at 1.
  destruct (format_item item) as [e|[record|]] eqn:Hitem; try exact IH.
  constructor; [|exact IH]. eapply format_item_kept. eassumption.
Qed.

(** X25. The records [get_ranked_keywords] builds from the items of a
    response: when no item is malformed, they are the items whose
    [rank_group] lies between 1 and 10 and whose keyword is not blank,
    in the order of the response, each with its keyword stripped; a
    missing or [null] item list gives no record.  One item with [null]
    where an object, the keyword or the rank is expected makes the
    whole call raise. *)
Theorem ranked_keywords_of_top_10 (items : Field (list RankedItem)) :
  let results := match items with Val l => l | _ => [] end in
  ((forall item e, In item results -> format_item item <> inl e) ->
     ranked_keywords_of items = inr (omap contribution results))
  /\ (forall keywords,
        ranked_keywords_of items = inr keywords ->
        (length keywords <= length results)%nat
        /\ List.Forall (fun record =>
               (1 <= position record <= 10)%Z
               /\ PyStr.truthy (keyword record) = true
               /\ strip (keyword record) = keyword record) keywords)
  /\ ((exists item e, In item results /\ format_item item = inl e) ->
      exists e, ranked_keywords_of items = inl e).
Proof.
  intros results. unfold ranked_keywords_of. fold results. split; [|split].
  - intros Hgood.
    rewrite log_items_quiet
      by (intros item e Hin; apply Hgood;
          rewrite <- (firstn_skipn 3 results); apply in_or_app; left; exact Hin).
    apply (format_items_spec results [] Hgood).
  - intros keywords Hrun.
    destruct (log_items (firstn 3 results)); [discriminate|].
    assert (Hgood : forall item e, In item results -> format_item item <> inl e).
    { intros item e Hin Hbad.
      destruct (format_items_raises results []
                  (ex_intro _ item (ex_intro _ e (conj Hin Hbad)))) as [e' He'].
      congruence. }
    rewrite (format_items_spec results [] Hgood) in Hrun. cbn [app] in Hrun.
    inversion Hrun; subst keywords. split; [|apply omap_contribution_kept].
    clear. induction results as [|item rest IH]; cbn [omap list_omap length]; [lia|].
    destruct (contribution item); cbn [length]; lia.
  - intros Hbad. destruct (log_items (firstn 3 results)) as [e|[]].
    + exists e. reflexivity.
    + apply format_items_raises. assumption.
Qed.

Lemma ranked_keywords_of_top_10_witness :
  ranked_keywords_of (Val sample_items) = inr (omap contribution sample_items).
Proof.
  apply (proj1 (ranked_keywords_of_top_10 (Val sample_items))).
  intros item e Hin. vm_compute in Hin.
  destruct Hin as [<-|[<-|[<-|[<-|[<-|[<-|[]]]]]]]; vm_compute; discriminate.
Defined.

(** ** The overlap scorer: more candidate URLs *)

(** X26. The overlap never goes down when the candidate list gains
    URLs: if every URL of one candidate list occurs in another, the
    second overlaps the original list at least as much as the first. *)
Theorem calculate_url_overlap_monotone (original candidate candidate' : list string) :
  (forall u, In u candidate -> In u candidate') ->
  (calculate_url_overlap original candidate
   <= calculate_url_overlap original candidate')%Q.
Proof.
  intros Hsub.
  destruct candidate as [|c cs];
    [destruct original; apply (calculate_url_overlap_range _ candidate')|].
  destruct candidate' as [|c' cs']; [destruct (Hsub c (or_introl eq_refl))|].
  destruct original as [|u us]; [apply Qle_refl|].
  rewrite !calculate_url_overlap_cons.
  pose proof (Qnat_pos _ (url_set_nonempty u us)) as Hpos.
  apply Qmult_le_compat_r; [|discriminate].
  unfold Qdiv. apply Qmult_le_compat_r; [|apply Qinv_le_0_compat, Qlt_le_weak, Hpos].
  apply Qnat_le, subseteq_size.
  intros x Hx. apply elem_of_intersection in Hx as [Ho Hc].
  apply elem_of_intersection. split; [assumption|].
  apply url_set_In in Hc as (y & Hy & <-). apply url_set_In.
  exists y. split; [apply Hsub; assumption|reflexivity].
Qed.

Lemma calculate_url_overlap_monotone_witness :
  (calculate_url_overlap seed_urls ["http://s/0"; "http://o/1"]
   <= calculate_url_overlap seed_urls ["http://s/1"; "http://o/1"; "http://s/0"])%Q.
Proof.
  apply calculate_url_overlap_monotone.
  intros u Hin. vm_compute in Hin. destruct Hin as [<-|[<-|[]]].
  - right. right. left. reflexivity.
  - right. left. reflexivity.
Defined.
